(** * Tetris game engine: shallow embedding and verified properties

    The engine lives in these source files:
    - [utils/constants.js]    board dimensions, scoring constants;
    - [utils/tetrominoes.js]  the rotation tables, the piece factory and the
                              7-bag shuffle;
    - [utils/gameLogic.js]    collision test, stamping, line clearing, hard
                              drop distance, initial state;
    - [utils/scoring.js]      the line score and level formulas;
    - [hooks/useGameState.js] the reducer [gameStateReducer];
    - [hooks/useGame.js]      the game loop with its own drop cadence.

    JavaScript numbers that hold integers are [Z]; arrays are lists read
    with stdpp's lookup; [undefined] is written out where the code can
    produce it; a thrown exception and a loop that is still running are
    the two extra results of [Outcome]. *)

From stdpp Require Import base numbers list strings sorting pretty.

Local Open Scope Z_scope.

(** ** JavaScript values used by the engine *)

(** The seven piece kinds: the strings 'I', 'O', 'T', 'S', 'Z', 'J', 'L' of
    the source (prefixed here, since [I], [O], [S] and [Z] are taken). *)
Inductive TetrominoType := TI | TO | TT | TS | TZ | TJ | TL.

#[global] Instance TetrominoType_eq_dec : EqDecision TetrominoType.
Proof. solve_decision. Defined.

(** A board cell: the number 0, the CSS class string of a kind
    ([TETROMINO_COLORS[kind]], written [Filled kind]), or [undefined]
    (what reading past the end of a row gives, and what a hole left by a
    write past the end of a row reads as). *)
Inductive Cell := Zero | Filled (kind : TetrominoType) | Undef.

#[global] Instance Cell_eq_dec : EqDecision Cell.
Proof. solve_decision. Defined.

(** JavaScript truthiness of a cell: class strings are non-empty. *)
Definition truthy (c : Cell) : bool :=
  match c with Filled _ => true | _ => false end.

(** [cell !== 0] *)
Definition notZero (c : Cell) : bool :=
  match c with Zero => false | _ => true end.

Abbreviation Row := (list Cell).
Abbreviation Board := (list (list Cell)).

(** A 4x4 occupancy mask as the source writes it: rows of numbers. *)
Abbreviation Mask := (list (list Z)).

(** The piece object [{ type, x, y, rotation, shape, color }]. The [shape]
    property is [None] when a table lookup returned [undefined]. *)
Record Tetromino := mkTetromino {
  piece_type : TetrominoType;
  piece_x : Z;
  piece_y : Z;
  piece_rotation : Z;
  piece_shape : option Mask;
  piece_color : TetrominoType
}.

(** [arr[i]] for a number [i] that holds an integer: [undefined] below 0
    and past the end. *)
Definition js_index {A} (arr : list A) (i : Z) : option A :=
  if i <? 0 then None else arr !! Z.to_nat i.

(** The results of running a piece of code: a value, a thrown exception,
    or no result yet within the steps allowed. *)
Inductive JsError := TypeError | InvalidTetrominoType.

Inductive Outcome (A : Type) :=
| Done (a : A)
| Thrown (e : JsError)
| Running.
Arguments Done {A} a.
Arguments Thrown {A} e.
Arguments Running {A}.

#[global] Instance Outcome_bind : MBind Outcome := fun A B k m =>
  match m with
  | Done a => k a
  | Thrown e => Thrown e
  | Running => Running
  end.

(** ** utils/constants.js *)
Module constants.
Definition BOARD_WIDTH : Z := 10.
Definition BOARD_HEIGHT : Z := 20.
Definition TETROMINO_TYPES : list TetrominoType := [TI; TO; TT; TS; TZ; TJ; TL].
Definition INITIAL_DROP_SPEED : Z := 1000.
Definition SPEED_INCREASE_PER_LEVEL : Z := 100.
Definition MIN_DROP_SPEED : Z := 50.
Definition POINTS_SOFT_DROP : Z := 1.
Definition POINTS_HARD_DROP : Z := 2.
Definition POINTS_SINGLE_LINE : Z := 40.
Definition POINTS_DOUBLE_LINE : Z := 100.
Definition POINTS_TRIPLE_LINE : Z := 300.
Definition POINTS_TETRIS : Z := 1200.
Definition LINES_PER_LEVEL : Z := 10.
End constants.

(** ** utils/tetrominoes.js *)
Module tetrominoes.
Import constants.

Definition TETROMINO_SHAPES (type : TetrominoType) : list Mask :=
  match type with
  | TI => [ [[0;0;0;0]; [1;1;1;1]; [0;0;0;0]; [0;0;0;0]];
            [[0;0;1;0]; [0;0;1;0]; [0;0;1;0]; [0;0;1;0]];
            [[0;0;0;0]; [1;1;1;1]; [0;0;0;0]; [0;0;0;0]];
            [[0;0;1;0]; [0;0;1;0]; [0;0;1;0]; [0;0;1;0]] ]
  | TO => [ [[0;0;0;0]; [0;1;1;0]; [0;1;1;0]; [0;0;0;0]];
            [[0;0;0;0]; [0;1;1;0]; [0;1;1;0]; [0;0;0;0]];
            [[0;0;0;0]; [0;1;1;0]; [0;1;1;0]; [0;0;0;0]];
            [[0;0;0;0]; [0;1;1;0]; [0;1;1;0]; [0;0;0;0]] ]
  | TT => [ [[0;0;0;0]; [0;1;0;0]; [1;1;1;0]; [0;0;0;0]];
            [[0;0;0;0]; [0;1;0;0]; [0;1;1;0]; [0;1;0;0]];
            [[0;0;0;0]; [0;0;0;0]; [1;1;1;0]; [0;1;0;0]];
            [[0;0;0;0]; [0;1;0;0]; [1;1;0;0]; [0;1;0;0]] ]
  | TS => [ [[0;0;0;0]; [0;1;1;0]; [1;1;0;0]; [0;0;0;0]];
            [[0;0;0;0]; [0;1;0;0]; [0;1;1;0]; [0;0;1;0]];
            [[0;0;0;0]; [0;1;1;0]; [1;1;0;0]; [0;0;0;0]];
            [[0;0;0;0]; [0;1;0;0]; [0;1;1;0]; [0;0;1;0]] ]
  | TZ => [ [[0;0;0;0]; [1;1;0;0]; [0;1;1;0]; [0;0;0;0]];
            [[0;0;0;0]; [0;0;1;0]; [0;1;1;0]; [0;1;0;0]];
            [[0;0;0;0]; [1;1;0;0]; [0;1;1;0]; [0;0;0;0]];
            [[0;0;0;0]; [0;0;1;0]; [0;1;1;0]; [0;1;0;0]] ]
  | TJ => [ [[0;0;0;0]; [1;0;0;0]; [1;1;1;0]; [0;0;0;0]];
            [[0;0;0;0]; [0;1;1;0]; [0;1;0;0]; [0;1;0;0]];
            [[0;0;0;0]; [0;0;0;0]; [1;1;1;0]; [0;0;1;0]];
            [[0;0;0;0]; [0;1;0;0]; [0;1;0;0]; [1;1;0;0]] ]
  | TL => [ [[0;0;0;0]; [0;0;1;0]; [1;1;1;0]; [0;0;0;0]];
            [[0;0;0;0]; [0;1;0;0]; [0;1;0;0]; [0;1;1;0]];
            [[0;0;0;0]; [0;0;0;0]; [1;1;1;0]; [1;0;0;0]];
            [[0;0;0;0]; [1;1;0;0]; [0;1;0;0]; [0;1;0;0]] ]
  end.

(** [createTetromino(type, x = 3, y = -1, rotation = 0)]. The guard
    [TETROMINO_TYPES.includes(type)] holds for every value of
    [TetrominoType]; the caller that passes an array element handles the
    [undefined] case (see [createTetrominoOf]). JavaScript's [%] is the
    truncated remainder [Z.rem]. *)
Definition createTetromino (type : TetrominoType) (x y rotation : Z) : Tetromino :=
  {| piece_type := type;
     piece_x := x;
     piece_y := y;
     piece_rotation := Z.rem rotation 4;
     piece_shape := js_index (TETROMINO_SHAPES type) (Z.rem rotation 4);
     piece_color := type |}.

(** [createTetromino(arr[i])] with the default position and rotation:
    an [undefined] element fails the [includes] guard and throws. *)
Definition createTetrominoOf (elem : option TetrominoType) : Outcome Tetromino :=
  match elem with
  | Some type => Done (createTetromino type 3 (-1) 0)
  | None => Thrown InvalidTetrominoType
  end.

Definition rotateTetromino (tetromino : Tetromino) : Tetromino :=
  let newRotation := Z.rem (piece_rotation tetromino + 1) 4 in
  {| piece_type := piece_type tetromino;
     piece_x := piece_x tetromino;
     piece_y := piece_y tetromino;
     piece_rotation := newRotation;
     piece_shape := js_index (TETROMINO_SHAPES (piece_type tetromino)) newRotation;
     piece_color := piece_color tetromino |}.

Definition rotateTetrominoCounterClockwise (tetromino : Tetromino) : Tetromino :=
  let newRotation := Z.rem (piece_rotation tetromino + 3) 4 in
  {| piece_type := piece_type tetromino;
     piece_x := piece_x tetromino;
     piece_y := piece_y tetromino;
     piece_rotation := newRotation;
     piece_shape := js_index (TETROMINO_SHAPES (piece_type tetromino)) newRotation;
     piece_color := piece_color tetromino |}.

(** [[bag[i], bag[j]] = [bag[j], bag[i]]]: both reads, then the write to
    [bag[i]], then the write to [bag[j]]. The shuffle only calls it with
    [j <= i < bag.length]; outside that range the bag is left as it is. *)
Definition swap (bag : list TetrominoType) (i j : nat) : list TetrominoType :=
  match bag !! i, bag !! j with
  | Some bi, Some bj => <[j:=bi]> (<[i:=bj]> bag)
  | _, _ => bag
  end.

(** The Fisher-Yates loop [for (i = bag.length - 1; i > 0; i--)]. The
    random source is the sequence [rnd] of naturals: the [call]-th
    evaluation of [Math.floor(Math.random() * (i + 1))], which ranges over
    [0 .. i], is [rnd call mod (i + 1)]. *)
Fixpoint shuffleLoop (rnd : nat -> nat) (call : nat) (i : nat)
    (bag : list TetrominoType) : list TetrominoType :=
  match i with
  | O => bag
  | S i' =>
      let j := (rnd call mod (i + 1))%nat in
      shuffleLoop rnd (S call) i' (swap bag i j)
  end.

Definition createTetrominoBag (rnd : nat -> nat) : list TetrominoType :=
  let bag := TETROMINO_TYPES in
  shuffleLoop rnd 0 (length bag - 1) bag.

(** The inner [for] of [getTetrominoPositions] over one shape row. *)
Fixpoint positionsOfRow (cells : list Z) (tx ty : Z) (y x : Z) : list (Z * Z) :=
  match cells with
  | [] => []
  | c :: rest =>
      if decide (c = 0) then positionsOfRow rest tx ty y (x + 1)
      else (tx + x, ty + y) :: positionsOfRow rest tx ty y (x + 1)
  end.

Fixpoint positionsOfRows (rows : Mask) (tx ty : Z) (y : Z) : list (Z * Z) :=
  match rows with
  | [] => []
  | cells :: rest => positionsOfRow cells tx ty y 0 ++ positionsOfRows rest tx ty (y + 1)
  end.

(** [getTetrominoPositions]: the pairs [(x, y)] pushed, in order;
    [shape.length] of an [undefined] shape throws. *)
Definition getTetrominoPositions (tetromino : Tetromino) : Outcome (list (Z * Z)) :=
  match piece_shape tetromino with
  | None => Thrown TypeError
  | Some shape => Done (positionsOfRows shape (piece_x tetromino) (piece_y tetromino) 0)
  end.

(** The object [{ minX, maxX, minY, maxY }] returned by
    [getTetrominoBounds]. *)
Record Bounds := mkBounds { minX : Z; maxX : Z; minY : Z; maxY : Z }.

(** The inner [for] of [getTetrominoBounds] over one shape row. *)
Fixpoint boundsOfRow (cells : list Z) (y x : Z) (b : Bounds) : Bounds :=
  match cells with
  | [] => b
  | c :: rest =>
      boundsOfRow rest y (x + 1)
        (if decide (c = 0) then b
         else mkBounds (Z.min (minX b) x) (Z.max (maxX b) x)
                       (Z.min (minY b) y) (Z.max (maxY b) y))
  end.

Fixpoint boundsOfRows (rows : Mask) (y : Z) (b : Bounds) : Bounds :=
  match rows with
  | [] => b
  | cells :: rest => boundsOfRows rest (y + 1) (boundsOfRow cells y 0 b)
  end.

(** [getTetrominoBounds], starting from [minX = 4, maxX = -1, minY = 4,
    maxY = -1]. *)
Definition getTetrominoBounds (tetromino : Tetromino) : Outcome Bounds :=
  match piece_shape tetromino with
  | None => Thrown TypeError
  | Some shape => Done (boundsOfRows shape 0 (mkBounds 4 (-1) 4 (-1)))
  end.
End tetrominoes.

(** ** The game state object *)

Inductive GameStates := MENU | PLAYING | PAUSED | GAME_OVER.

(** The object built by [createInitialGameState]; [gameEndTime] is absent
    until the game-over transition adds it. *)
Record GameState := mkGameState {
  board : Board;
  currentPiece : option Tetromino;
  nextPiece : option Tetromino;
  holdPiece : option Tetromino;
  canHold : bool;
  score : Z;
  lines : Z;
  level : Z;
  isGameOver : bool;
  isPaused : bool;
  gameState : GameStates;
  playerName : string;
  gameStartTime : Z;
  lastDropTime : Z;
  tetrominoBag : list TetrominoType;
  bagIndex : nat;
  shouldSpawnNext : bool;
  gameEndTime : option Z
}.

(** What a transition reads from its host: the [k]-th random integer drawn
    ([random]), the [k]-th reading of [Date.now()] ([now]) and
    [String.prototype.trim]. *)
Record Host := mkHost {
  random : nat -> nat;
  now : nat -> Z;
  trim : string -> string
}.

(** ** utils/gameLogic.js *)
Module gameLogic.
Import constants.

Definition createEmptyBoard : Board :=
  replicate (Z.to_nat BOARD_HEIGHT) (replicate (Z.to_nat BOARD_WIDTH) Zero).

(** The inner [for] of [canPlacePiece] over the columns of one shape
    row. [Done false] is the early [return false]; [Done true] means the
    loop ran to its end without returning. [board[newY]] of a missing row
    is [undefined] and indexing it throws; [board[newY][newX]] past the
    end of a row is [undefined], which is falsy. *)
Fixpoint canPlaceCols (board : Board) (cells : list Z) (x y row col : Z) : Outcome bool :=
  match cells with
  | [] => Done true
  | c :: rest =>
      if decide (c = 0) then canPlaceCols board rest x y row (col + 1)
      else
        let newX := x + col in
        let newY := y + row in
        if (newX <? 0) || (newX >=? BOARD_WIDTH) || (newY >=? BOARD_HEIGHT) then Done false
        else if newY >=? 0 then
          match board !! Z.to_nat newY with
          | None => Thrown TypeError
          | Some r =>
              if truthy (default Undef (r !! Z.to_nat newX)) then Done false
              else canPlaceCols board rest x y row (col + 1)
          end
        else canPlaceCols board rest x y row (col + 1)
  end.

(** The outer [for] over the shape rows. *)
Fixpoint canPlaceRows (board : Board) (rows : Mask) (x y row : Z) : Outcome bool :=
  match rows with
  | [] => Done true
  | cells :: rest =>
      ok ← canPlaceCols board cells x y row 0;
      if ok : bool then canPlaceRows board rest x y (row + 1) else Done false
  end.

(** [canPlacePiece(board, tetromino, x, y)]; the callers that rely on the
    defaults pass [piece_x] and [piece_y] themselves. *)
Definition canPlacePiece (board : Board) (tetromino : Tetromino) (x y : Z) : Outcome bool :=
  match piece_shape tetromino with
  | None => Thrown TypeError
  | Some shape => canPlaceRows board shape x y 0
  end.

(** [row[x] = v]: inside the row it overwrites, past the end the array
    grows and the cells in between are holes. *)
Definition setCell (row : Row) (x : nat) (v : Cell) : Row :=
  if decide (x < length row)%nat then <[x:=v]> row
  else row ++ replicate (x - length row) Undef ++ [v].

(** The [forEach] of [placePiece] over the positions. *)
Fixpoint stamp (newBoard : Board) (positions : list (Z * Z)) (v : Cell) : Outcome Board :=
  match positions with
  | [] => Done newBoard
  | (x, y) :: rest =>
      if (y >=? 0) && (y <? BOARD_HEIGHT) && (x >=? 0) && (x <? BOARD_WIDTH) then
        match newBoard !! Z.to_nat y with
        | None => Thrown TypeError
        | Some r => stamp (<[Z.to_nat y := setCell r (Z.to_nat x) v]> newBoard) rest v
        end
      else stamp newBoard rest v
  end.

Definition placePiece (board : Board) (tetromino : Tetromino) : Outcome Board :=
  positions ← tetrominoes.getTetrominoPositions tetromino;
  stamp board positions (Filled (piece_type tetromino)).

(** The loop [for (y = 0; y < BOARD_HEIGHT; y++)] of [findCompleteLines],
    with [count] rows still to visit. *)
Fixpoint findCompleteLinesFrom (board : Board) (count y : nat) : Outcome (list nat) :=
  match count with
  | O => Done []
  | S count' =>
      match board !! y with
      | None => Thrown TypeError
      | Some r =>
          rest ← findCompleteLinesFrom board count' (S y);
          Done (if forallb notZero r then y :: rest else rest)
      end
  end.

Definition findCompleteLines (board : Board) : Outcome (list nat) :=
  findCompleteLinesFrom board (Z.to_nat BOARD_HEIGHT) 0.

(** The loop of [clearLines] that copies the rows that stay. *)
Fixpoint keepRowsFrom (board : Board) (completeLines : list nat) (count y : nat)
    : Outcome Board :=
  match count with
  | O => Done []
  | S count' =>
      if decide (y ∈ completeLines) then keepRowsFrom board completeLines count' (S y)
      else
        match board !! y with
        | None => Thrown TypeError
        | Some r =>
            rest ← keepRowsFrom board completeLines count' (S y);
            Done (r :: rest)
        end
  end.

(** [while (newBoard.length < BOARD_HEIGHT) newBoard.unshift(emptyRow)],
    which runs [missing = BOARD_HEIGHT - newBoard.length] times. *)
Fixpoint unshiftEmpty (missing : nat) (newBoard : Board) : Board :=
  match missing with
  | O => newBoard
  | S missing' => unshiftEmpty missing' (replicate (Z.to_nat BOARD_WIDTH) Zero :: newBoard)
  end.

(** [clearLines(board)] returns [{ newBoard, linesCleared }]. *)
Definition clearLines (board : Board) : Outcome (Board * Z) :=
  completeLines ← findCompleteLines board;
  if decide (length completeLines = 0%nat) then Done (board, 0)
  else
    newBoard ← keepRowsFrom board completeLines (Z.to_nat BOARD_HEIGHT) 0;
    Done (unshiftEmpty (Z.to_nat BOARD_HEIGHT - length newBoard) newBoard,
          Z.of_nat (length completeLines)).

(** The [while] of [getHardDropDistance], run for at most [fuel] tests of
    its condition; [Running] when the loop has not left by then. *)
Fixpoint hardDropLoop (fuel : nat) (board : Board) (tetromino : Tetromino)
    (distance : Z) : Outcome Z :=
  match fuel with
  | O => Running
  | S fuel' =>
      ok ← canPlacePiece board tetromino (piece_x tetromino)
             (piece_y tetromino + distance + 1);
      if ok : bool then hardDropLoop fuel' board tetromino (distance + 1)
      else Done distance
  end.

Definition getHardDropDistance (fuel : nat) (board : Board) (tetromino : Tetromino)
    : Outcome Z :=
  hardDropLoop fuel board tetromino 0.

Definition calculateLevel (linesCleared : Z) : Z :=
  linesCleared `div` LINES_PER_LEVEL + 1.

Definition calculateDropSpeed (level : Z) : Z :=
  let baseSpeed := 1000 in
  let speedIncrease := 100 in
  let minSpeed := 50 in
  Z.max minSpeed (baseSpeed - (level - 1) * speedIncrease).

(** [getShadowPiece]: [{ ...tetromino, y: tetromino.y + dropDistance }]. *)
Definition getShadowPiece (fuel : nat) (board : Board) (tetromino : Tetromino)
    : Outcome Tetromino :=
  dropDistance ← getHardDropDistance fuel board tetromino;
  Done (mkTetromino (piece_type tetromino) (piece_x tetromino)
          (piece_y tetromino + dropDistance) (piece_rotation tetromino)
          (piece_shape tetromino) (piece_color tetromino)).

Definition isWithinBounds (x y : Z) : bool :=
  (x >=? 0) && (x <? BOARD_WIDTH) && (y >=? 0) && (y <? BOARD_HEIGHT).

(** The [forEach] of [getBoardWithPiece] over the positions. *)
Fixpoint overlay (newBoard : Board) (positions : list (Z * Z)) (v : Cell) : Outcome Board :=
  match positions with
  | [] => Done newBoard
  | (x, y) :: rest =>
      if isWithinBounds x y then
        match newBoard !! Z.to_nat y with
        | None => Thrown TypeError
        | Some r => overlay (<[Z.to_nat y := setCell r (Z.to_nat x) v]> newBoard) rest v
        end
      else overlay newBoard rest v
  end.

(** [getBoardWithPiece(board, tetromino)]; [None] is a falsy [tetromino]
    ([null]). *)
Definition getBoardWithPiece (board : Board) (tetromino : option Tetromino)
    : Outcome Board :=
  match tetromino with
  | None => Done board
  | Some piece =>
      positions ← tetrominoes.getTetrominoPositions piece;
      overlay board positions (Filled (piece_type piece))
  end.

(** [createInitialGameState(playerName = '')]; the argument is [None]
    for [undefined] and for any value that is not a string. *)
Definition createInitialGameState (host : Host) (playerName : option string) : GameState :=
  let validPlayerName :=
    match playerName with
    | Some name =>
        if decide (name = "") then ""
        else if decide (trim host name = "") then "" else trim host name
    | None => ""
    end in
  {| board := createEmptyBoard;
     currentPiece := None;
     nextPiece := None;
     holdPiece := None;
     canHold := true;
     score := 0;
     lines := 0;
     level := 1;
     isGameOver := false;
     isPaused := false;
     gameState := MENU;
     playerName := validPlayerName;
     gameStartTime := now host 0;
     lastDropTime := now host 1;
     tetrominoBag := [];
     bagIndex := 0;
     shouldSpawnNext := false;
     gameEndTime := None |}.

(** [isGameOver(board, tetromino)] (declared last: the state field of the
    same name is the one the other modules mean). *)
Definition isGameOver (board : Board) (tetromino : Tetromino) : Outcome bool :=
  ok ← canPlacePiece board tetromino (piece_x tetromino) (piece_y tetromino);
  Done (negb ok).
End gameLogic.

(** ** utils/scoring.js *)
Module scoring.
Import constants.

Definition calculateLineScore (linesCleared level : Z) : Z :=
  if decide (linesCleared = 0) then 0
  else
    let basePoints :=
      if decide (linesCleared = 1) then POINTS_SINGLE_LINE
      else if decide (linesCleared = 2) then POINTS_DOUBLE_LINE
      else if decide (linesCleared = 3) then POINTS_TRIPLE_LINE
      else if decide (linesCleared = 4) then POINTS_TETRIS
      else POINTS_SINGLE_LINE * linesCleared in
    basePoints * level.

Definition calculateSoftDropScore (cells : Z) : Z := cells * POINTS_SOFT_DROP.
Definition calculateHardDropScore (cells : Z) : Z := cells * POINTS_HARD_DROP.

Definition calculateLevel (totalLines : Z) : Z :=
  totalLines `div` LINES_PER_LEVEL + 1.

Definition calculateDropSpeed (level : Z) : Z :=
  let baseSpeed := 1000 in
  let speedDecrease := 50 in
  let minSpeed := 50 in
  Z.max minSpeed (baseSpeed - (level - 1) * speedDecrease).

Definition getLinesUntilNextLevel (totalLines : Z) : Z :=
  let currentLevel := calculateLevel totalLines in
  let linesForNextLevel := currentLevel * LINES_PER_LEVEL in
  linesForNextLevel - totalLines.

Definition calculateComboPoints (comboCount level : Z) : Z :=
  if comboCount <=? 0 then 0 else 50 * comboCount * level.

(** A leaderboard entry, as [createLeaderboardEntry] builds it. *)
Record LeaderboardEntry := mkLeaderboardEntry {
  entry_id : string;
  entry_playerName : string;
  entry_score : Z;
  entry_lines : Z;
  entry_level : Z;
  entry_duration : Z;
  entry_durationFormatted : string;
  entry_linesPerMinute : Z;
  entry_date : string;
  entry_dateFormatted : string
}.

(** [qualifiesForLeaderboard(score, leaderboard, maxEntries)].
    [leaderboard[leaderboard.length - 1]?.score || 0] is 0 for an empty
    leaderboard and for a last score of 0. *)
Definition qualifiesForLeaderboard (score : Z) (leaderboard : list LeaderboardEntry)
    (maxEntries : nat) : bool :=
  if decide (length leaderboard < maxEntries)%nat then true
  else
    let lowestScore :=
      match last leaderboard with
      | Some entry => if decide (entry_score entry = 0) then 0 else entry_score entry
      | None => 0
      end in
    bool_decide (score > lowestScore).

(** The comparator of [updateLeaderboard]: score, then lines, then level,
    highest first. *)
Definition compareEntries (a b : LeaderboardEntry) : Z :=
  if decide (entry_score b <> entry_score a) then entry_score b - entry_score a
  else if decide (entry_lines b <> entry_lines a) then entry_lines b - entry_lines a
  else entry_level b - entry_level a.

(** [Array.prototype.sort(compareFn)]. The sort is stable and, for a
    comparator that is a total preorder (as [compareEntries] is on integer
    fields), its result does not depend on the algorithm: it is the one
    the stable insertion sort below computes, which puts an element
    before the first later element it does not compare greater than. *)
Fixpoint sortInsert {A} (compareFn : A -> A -> Z) (a : A) (sorted : list A) : list A :=
  match sorted with
  | [] => [a]
  | b :: rest =>
      if compareFn a b <=? 0 then a :: b :: rest
      else b :: sortInsert compareFn a rest
  end.

Fixpoint sort {A} (compareFn : A -> A -> Z) (arr : list A) : list A :=
  match arr with
  | [] => []
  | a :: rest => sortInsert compareFn a (sort compareFn rest)
  end.

(** [updateLeaderboard(leaderboard, newEntry, maxEntries)]; [maxEntries]
    is a count, so [slice(0, maxEntries)] is [take]. *)
Definition updateLeaderboard (leaderboard : list LeaderboardEntry)
    (newEntry : LeaderboardEntry) (maxEntries : nat) : list LeaderboardEntry :=
  let updatedBoard := leaderboard ++ [newEntry] in
  take maxEntries (sort compareEntries updatedBoard).
End scoring.

(** ** hooks/useGame.js *)
Module useGame.
Import constants.

Definition calculateDropSpeed (level : Z) : Z :=
  let speed := INITIAL_DROP_SPEED - level * SPEED_INCREASE_PER_LEVEL in
  Z.max speed MIN_DROP_SPEED.
End useGame.

(** ** hooks/useGameState.js *)
Module useGameState.

(** *** Object spread

    [{ ...state, field: v }] copies every property of [state] and then
    sets [field]; one setter per property the reducer overrides. *)
Definition set_board (v : Board) (state : GameState) : GameState :=
  mkGameState v (currentPiece state) (nextPiece state) (holdPiece state)
    (canHold state) (score state) (lines state) (level state) (isGameOver state)
    (isPaused state) (gameState state) (playerName state) (gameStartTime state)
    (lastDropTime state) (tetrominoBag state) (bagIndex state)
    (shouldSpawnNext state) (gameEndTime state).
Definition set_currentPiece (v : option Tetromino) (state : GameState) : GameState :=
  mkGameState (board state) v (nextPiece state) (holdPiece state) (canHold state)
    (score state) (lines state) (level state) (isGameOver state) (isPaused state)
    (gameState state) (playerName state) (gameStartTime state) (lastDropTime state)
    (tetrominoBag state) (bagIndex state) (shouldSpawnNext state)
    (gameEndTime state).
Definition set_nextPiece (v : option Tetromino) (state : GameState) : GameState :=
  mkGameState (board state) (currentPiece state) v (holdPiece state) (canHold state)
    (score state) (lines state) (level state) (isGameOver state) (isPaused state)
    (gameState state) (playerName state) (gameStartTime state) (lastDropTime state)
    (tetrominoBag state) (bagIndex state) (shouldSpawnNext state)
    (gameEndTime state).
Definition set_holdPiece (v : option Tetromino) (state : GameState) : GameState :=
  mkGameState (board state) (currentPiece state) (nextPiece state) v (canHold state)
    (score state) (lines state) (level state) (isGameOver state) (isPaused state)
    (gameState state) (playerName state) (gameStartTime state) (lastDropTime state)
    (tetrominoBag state) (bagIndex state) (shouldSpawnNext state)
    (gameEndTime state).
Definition set_canHold (v : bool) (state : GameState) : GameState :=
  mkGameState (board state) (currentPiece state) (nextPiece state) (holdPiece state)
    v (score state) (lines state) (level state) (isGameOver state) (isPaused state)
    (gameState state) (playerName state) (gameStartTime state) (lastDropTime state)
    (tetrominoBag state) (bagIndex state) (shouldSpawnNext state)
    (gameEndTime state).
Definition set_score (v : Z) (state : GameState) : GameState :=
  mkGameState (board state) (currentPiece state) (nextPiece state) (holdPiece state)
    (canHold state) v (lines state) (level state) (isGameOver state)
    (isPaused state) (gameState state) (playerName state) (gameStartTime state)
    (lastDropTime state) (tetrominoBag state) (bagIndex state)
    (shouldSpawnNext state) (gameEndTime state).
Definition set_lines (v : Z) (state : GameState) : GameState :=
  mkGameState (board state) (currentPiece state) (nextPiece state) (holdPiece state)
    (canHold state) (score state) v (level state) (isGameOver state)
    (isPaused state) (gameState state) (playerName state) (gameStartTime state)
    (lastDropTime state) (tetrominoBag state) (bagIndex state)
    (shouldSpawnNext state) (gameEndTime state).
Definition set_level (v : Z) (state : GameState) : GameState :=
  mkGameState (board state) (currentPiece state) (nextPiece state) (holdPiece state)
    (canHold state) (score state) (lines state) v (isGameOver state)
    (isPaused state) (gameState state) (playerName state) (gameStartTime state)
    (lastDropTime state) (tetrominoBag state) (bagIndex state)
    (shouldSpawnNext state) (gameEndTime state).
Definition set_isGameOver (v : bool) (state : GameState) : GameState :=
  mkGameState (board state) (currentPiece state) (nextPiece state) (holdPiece state)
    (canHold state) (score state) (lines state) (level state) v (isPaused state)
    (gameState state) (playerName state) (gameStartTime state) (lastDropTime state)
    (tetrominoBag state) (bagIndex state) (shouldSpawnNext state)
    (gameEndTime state).
Definition set_isPaused (v : bool) (state : GameState) : GameState :=
  mkGameState (board state) (currentPiece state) (nextPiece state) (holdPiece state)
    (canHold state) (score state) (lines state) (level state) (isGameOver state) v
    (gameState state) (playerName state) (gameStartTime state) (lastDropTime state)
    (tetrominoBag state) (bagIndex state) (shouldSpawnNext state)
    (gameEndTime state).
Definition set_gameState (v : GameStates) (state : GameState) : GameState :=
  mkGameState (board state) (currentPiece state) (nextPiece state) (holdPiece state)
    (canHold state) (score state) (lines state) (level state) (isGameOver state)
    (isPaused state) v (playerName state) (gameStartTime state) (lastDropTime state)
    (tetrominoBag state) (bagIndex state) (shouldSpawnNext state)
    (gameEndTime state).
Definition set_playerName (v : string) (state : GameState) : GameState :=
  mkGameState (board state) (currentPiece state) (nextPiece state) (holdPiece state)
    (canHold state) (score state) (lines state) (level state) (isGameOver state)
    (isPaused state) (gameState state) v (gameStartTime state) (lastDropTime state)
    (tetrominoBag state) (bagIndex state) (shouldSpawnNext state)
    (gameEndTime state).
Definition set_gameStartTime (v : Z) (state : GameState) : GameState :=
  mkGameState (board state) (currentPiece state) (nextPiece state) (holdPiece state)
    (canHold state) (score state) (lines state) (level state) (isGameOver state)
    (isPaused state) (gameState state) (playerName state) v (lastDropTime state)
    (tetrominoBag state) (bagIndex state) (shouldSpawnNext state)
    (gameEndTime state).
Definition set_lastDropTime (v : Z) (state : GameState) : GameState :=
  mkGameState (board state) (currentPiece state) (nextPiece state) (holdPiece state)
    (canHold state) (score state) (lines state) (level state) (isGameOver state)
    (isPaused state) (gameState state) (playerName state) (gameStartTime state) v
    (tetrominoBag state) (bagIndex state) (shouldSpawnNext state)
    (gameEndTime state).
Definition set_tetrominoBag (v : list TetrominoType) (state : GameState) : GameState :=
  mkGameState (board state) (currentPiece state) (nextPiece state) (holdPiece state)
    (canHold state) (score state) (lines state) (level state) (isGameOver state)
    (isPaused state) (gameState state) (playerName state) (gameStartTime state)
    (lastDropTime state) v (bagIndex state) (shouldSpawnNext state)
    (gameEndTime state).
Definition set_bagIndex (v : nat) (state : GameState) : GameState :=
  mkGameState (board state) (currentPiece state) (nextPiece state) (holdPiece state)
    (canHold state) (score state) (lines state) (level state) (isGameOver state)
    (isPaused state) (gameState state) (playerName state) (gameStartTime state)
    (lastDropTime state) (tetrominoBag state) v (shouldSpawnNext state)
    (gameEndTime state).
Definition set_shouldSpawnNext (v : bool) (state : GameState) : GameState :=
  mkGameState (board state) (currentPiece state) (nextPiece state) (holdPiece state)
    (canHold state) (score state) (lines state) (level state) (isGameOver state)
    (isPaused state) (gameState state) (playerName state) (gameStartTime state)
    (lastDropTime state) (tetrominoBag state) (bagIndex state) v (gameEndTime state).
Definition set_gameEndTime (v : option Z) (state : GameState) : GameState :=
  mkGameState (board state) (currentPiece state) (nextPiece state) (holdPiece state)
    (canHold state) (score state) (lines state) (level state) (isGameOver state)
    (isPaused state) (gameState state) (playerName state) (gameStartTime state)
    (lastDropTime state) (tetrominoBag state) (bagIndex state)
    (shouldSpawnNext state) v.

(** [{ ...piece, x: vx, y: vy }] *)
Definition set_xy (vx vy : Z) (piece : Tetromino) : Tetromino :=
  mkTetromino (piece_type piece) vx vy (piece_rotation piece) (piece_shape piece)
    (piece_color piece).

(** [{ ...piece, x: vx, y: vy, rotation: vr }] *)
Definition set_xy_rotation (vx vy vr : Z) (piece : Tetromino) : Tetromino :=
  mkTetromino (piece_type piece) vx vy vr (piece_shape piece) (piece_color piece).

(** The payload of [LOAD_STATE]: an object holding some of the
    properties of a game state ([None]: the property is absent). *)
Record Snapshot := mkSnapshot {
  snap_board : option (Board);
  snap_currentPiece : option (option Tetromino);
  snap_nextPiece : option (option Tetromino);
  snap_holdPiece : option (option Tetromino);
  snap_canHold : option (bool);
  snap_score : option (Z);
  snap_lines : option (Z);
  snap_level : option (Z);
  snap_isGameOver : option (bool);
  snap_isPaused : option (bool);
  snap_gameState : option (GameStates);
  snap_playerName : option (string);
  snap_gameStartTime : option (Z);
  snap_lastDropTime : option (Z);
  snap_tetrominoBag : option (list TetrominoType);
  snap_bagIndex : option (nat);
  snap_shouldSpawnNext : option (bool);
  snap_gameEndTime : option (option Z)
}.

(** [{ ...state, ...snapshot }] *)
Definition spread (state : GameState) (snapshot : Snapshot) : GameState :=
  {|
    board := default (board state) (snap_board snapshot);
    currentPiece := default (currentPiece state) (snap_currentPiece snapshot);
    nextPiece := default (nextPiece state) (snap_nextPiece snapshot);
    holdPiece := default (holdPiece state) (snap_holdPiece snapshot);
    canHold := default (canHold state) (snap_canHold snapshot);
    score := default (score state) (snap_score snapshot);
    lines := default (lines state) (snap_lines snapshot);
    level := default (level state) (snap_level snapshot);
    isGameOver := default (isGameOver state) (snap_isGameOver snapshot);
    isPaused := default (isPaused state) (snap_isPaused snapshot);
    gameState := default (gameState state) (snap_gameState snapshot);
    playerName := default (playerName state) (snap_playerName snapshot);
    gameStartTime := default (gameStartTime state) (snap_gameStartTime snapshot);
    lastDropTime := default (lastDropTime state) (snap_lastDropTime snapshot);
    tetrominoBag := default (tetrominoBag state) (snap_tetrominoBag snapshot);
    bagIndex := default (bagIndex state) (snap_bagIndex snapshot);
    shouldSpawnNext := default (shouldSpawnNext state) (snap_shouldSpawnNext snapshot);
    gameEndTime := default (gameEndTime state) (snap_gameEndTime snapshot) |}.

(** The actions the reducer is sent. [OTHER tag] is an action whose
    [type] has no [case]: the declared but unhandled [DROP_PIECE],
    [GAME_OVER] and [UPDATE_SCORE], and any other tag. *)
Inductive Action :=
| INITIALIZE (playerName : option string)
| START_GAME
| MOVE_PIECE (deltaX deltaY : Z)
| ROTATE_PIECE
| SOFT_DROP
| HARD_DROP
| PLACE_PIECE
| SPAWN_PIECE
| HOLD_PIECE
| PAUSE_GAME
| RESUME_GAME
| RESET_GAME
| LOAD_STATE (snapshot : Snapshot)
| OTHER (tag : string).

(** [state.playerName || 'Player'] *)
Definition playerNameOr (state : GameState) : string :=
  if decide (playerName state = "") then "Player" else playerName state.

(** The lock-in sequence shared, statement for statement, by the
    [SOFT_DROP] failure branch, [HARD_DROP] and [PLACE_PIECE]: stamp,
    clear, score, level. [dropPoints] is 0 except for [HARD_DROP]. *)
Definition lockIn (state : GameState) (piece : Tetromino) (dropPoints : Z)
    : Outcome GameState :=
  placedBoard ← gameLogic.placePiece (board state) piece;
  cleared ← gameLogic.clearLines placedBoard;
  let clearedBoard := fst cleared in
  let linesCleared := snd cleared in
  let lineScore := scoring.calculateLineScore linesCleared (level state) in
  let newLines := lines state + linesCleared in
  let newLevel := scoring.calculateLevel newLines in
  let newScore := score state + dropPoints + lineScore in
  Done (set_board clearedBoard
       (set_currentPiece None
       (set_score newScore
       (set_lines newLines
       (set_level newLevel
       (set_canHold true
       (set_shouldSpawnNext true state))))))).

Definition gameStateReducer (fuel : nat) (host : Host) (state : GameState)
    (action : Action) : Outcome GameState :=
  match action with
  | INITIALIZE name => Done (gameLogic.createInitialGameState host name)

  | START_GAME =>
      let bag := tetrominoes.createTetrominoBag (random host) in
      firstPiece ← tetrominoes.createTetrominoOf (bag !! 0%nat);
      secondPiece ← tetrominoes.createTetrominoOf (bag !! 1%nat);
      Done (set_gameState PLAYING
           (set_currentPiece (Some firstPiece)
           (set_nextPiece (Some secondPiece)
           (set_tetrominoBag (drop 2 bag)
           (set_bagIndex 2%nat
           (set_isGameOver false
           (set_isPaused false
           (set_gameStartTime (now host 0)
           (set_lastDropTime (now host 1) state)))))))))

  | MOVE_PIECE deltaX deltaY =>
      match currentPiece state with
      | Some piece =>
          if isPaused state || isGameOver state then Done state
          else
            let newX := piece_x piece + deltaX in
            let newY := piece_y piece + deltaY in
            ok ← gameLogic.canPlacePiece (board state) piece newX newY;
            if ok : bool
            then Done (set_currentPiece (Some (set_xy newX newY piece)) state)
            else Done state
      | None => Done state
      end

  | ROTATE_PIECE =>
      match currentPiece state with
      | Some piece =>
          if isPaused state || isGameOver state then Done state
          else
            let rotatedPiece := tetrominoes.rotateTetromino piece in
            ok ← gameLogic.canPlacePiece (board state) rotatedPiece
                   (piece_x rotatedPiece) (piece_y rotatedPiece);
            if ok : bool
            then Done (set_currentPiece (Some rotatedPiece) state)
            else Done state
      | None => Done state
      end

  | SOFT_DROP =>
      match currentPiece state with
      | Some piece =>
          if isPaused state || isGameOver state then Done state
          else
            let newYSoft := piece_y piece + 1 in
            ok ← gameLogic.canPlacePiece (board state) piece (piece_x piece) newYSoft;
            if ok : bool then
              let softDropPoints := scoring.calculateSoftDropScore 1 in
              Done (set_currentPiece (Some (set_xy (piece_x piece) newYSoft piece))
                   (set_score (score state + softDropPoints)
                   (set_lastDropTime (now host 0) state)))
            else lockIn state piece 0
      | None => Done state
      end

  | HARD_DROP =>
      match currentPiece state with
      | Some piece =>
          if isPaused state || isGameOver state then Done state
          else
            dropDistance ← gameLogic.getHardDropDistance fuel (board state) piece;
            let hardDropPoints := scoring.calculateHardDropScore dropDistance in
            let droppedPiece := set_xy (piece_x piece) (piece_y piece + dropDistance) piece in
            lockIn state droppedPiece hardDropPoints
      | None => Done state
      end

  | PLACE_PIECE =>
      match currentPiece state with
      | Some piece => lockIn state piece 0
      | None => Done state
      end

  | SPAWN_PIECE =>
      match nextPiece state with
      | Some newCurrentPiece =>
          if isGameOver state then Done state
          else
            let refill := bool_decide (length (tetrominoBag state) ≤ bagIndex state)%nat in
            let currentBag :=
              if refill then tetrominoes.createTetrominoBag (random host)
              else tetrominoBag state in
            let index := if refill then 0%nat else bagIndex state in
            newNextPiece ← tetrominoes.createTetrominoOf (currentBag !! index);
            over ← gameLogic.isGameOver (board state) newCurrentPiece;
            if over : bool then
              Done (set_isGameOver true
                   (set_gameState GAME_OVER
                   (set_gameEndTime (Some (now host 0))
                   (set_playerName (playerNameOr state) state))))
            else
              Done (set_currentPiece (Some newCurrentPiece)
                   (set_nextPiece (Some newNextPiece)
                   (set_tetrominoBag currentBag
                   (set_bagIndex (index + 1)%nat
                   (set_shouldSpawnNext false state)))))
      | None => Done state
      end

  | HOLD_PIECE =>
      match currentPiece state with
      | Some piece =>
          if isPaused state || isGameOver state || negb (canHold state) then Done state
          else
            let newHoldPiece := set_xy_rotation 3 (-1) 0 piece in
            match holdPiece state with
            | Some held =>
                let newCurrentFromHold := set_xy 3 (-1) held in
                Done (set_currentPiece (Some newCurrentFromHold)
                     (set_holdPiece (Some newHoldPiece)
                     (set_canHold false state)))
            | None =>
                Done (set_currentPiece (nextPiece state)
                     (set_holdPiece (Some newHoldPiece)
                     (set_canHold false
                     (set_shouldSpawnNext true state))))
            end
      | None => Done state
      end

  | PAUSE_GAME =>
      if isGameOver state then Done state
      else Done (set_isPaused true (set_gameState PAUSED state))

  | RESUME_GAME =>
      if isGameOver state then Done state
      else Done (set_isPaused false
                (set_gameState PLAYING
                (set_lastDropTime (now host 0) state)))

  | RESET_GAME =>
      let playerNameToKeep := playerNameOr state in
      Done (gameLogic.createInitialGameState host (Some playerNameToKeep))

  | LOAD_STATE snapshot => Done (spread state snapshot)

  | OTHER _ => Done state
  end.
End useGameState.

(** ** Predicates used by the statements *)

(** [validateBoard] of utils/gameLogic.js: an array of [BOARD_HEIGHT] rows,
    each an array of [BOARD_WIDTH] cells that are a string or 0. *)
Definition validateBoard (board : Board) : bool :=
  bool_decide (length board = Z.to_nat constants.BOARD_HEIGHT) &&
  forallb (fun row =>
    bool_decide (length row = Z.to_nat constants.BOARD_WIDTH) &&
    forallb (fun cell => match cell with Undef => false | _ => true end) row) board.

(** The cell [board[newY][newX]] as [canPlacePiece] reads it. *)
Definition cellAt (board : Board) (newX newY : Z) : option Cell :=
  row ← js_index board newY; js_index row newX.

(** [shape[row][col]] is set (truthy). *)
Definition setCellAt (shape : Mask) (row col : nat) : Prop :=
  exists cells c, shape !! row = Some cells /\ cells !! col = Some c /\ c <> 0.

(** Every entry of the mask is 0. *)
Definition allZero (shape : Mask) : Prop :=
  Forall (Forall (fun c => c = 0)) shape.

(** A mask of 4 rows of 4 entries, each 0 or 1. *)
Definition binaryMask4 (shape : Mask) : bool :=
  bool_decide (length shape = 4%nat) &&
  forallb (fun cells =>
    bool_decide (length cells = 4%nat) &&
    forallb (fun c => bool_decide (c = 0) || bool_decide (c = 1)) cells) shape.

(** [validateBoard] as a proposition. *)
Definition boardOk (board : Board) : Prop :=
  length board = 20%nat /\
  Forall (fun row : Row => length row = 10%nat /\ Forall (fun c => c <> Undef) row) board.

(** A complete row: [row.every(cell => cell !== 0)]. *)
Definition completeRow (row : Row) : bool := forallb notZero row.

(** [Array(BOARD_WIDTH).fill(0)] *)
Definition emptyRow : Row := replicate (Z.to_nat constants.BOARD_WIDTH) Zero.

(** Some entry of the mask is set. *)
Definition hasSetCell (shape : Mask) : bool :=
  existsb (existsb (fun c => negb (bool_decide (c = 0)))) shape.

(** The test [canPlacePiece] makes for one set mask cell whose absolute
    position is column [newX], row [newY]: column inside the board, row
    above the floor, and - only for a row that is not above the board -
    the board cell empty. *)
Definition cellOk (board : Board) (newX newY : Z) : Prop :=
  0 <= newX < constants.BOARD_WIDTH /\
  newY < constants.BOARD_HEIGHT /\
  (0 <= newY -> cellAt board newX newY = Some Zero).

(** A piece of the data model: rotation index in [0, 4), a shape that is
    defined and has a set cell. *)
Definition validPiece (piece : Tetromino) : bool :=
  bool_decide (0 <= piece_rotation piece < 4) &&
  match piece_shape piece with
  | Some shape => hasSetCell shape
  | None => false
  end.

Definition validSlot (slot : option Tetromino) : bool :=
  match slot with
  | Some piece => validPiece piece
  | None => true
  end.

(** A state of the data model: a valid board and valid pieces in the
    three slots. *)
Definition validState (state : GameState) : bool :=
  validateBoard (board state) &&
  validSlot (currentPiece state) &&
  validSlot (nextPiece state) &&
  validSlot (holdPiece state).

(** The commands that act on the falling piece. *)
Definition isPieceCommand (action : useGameState.Action) : bool :=
  match action with
  | useGameState.MOVE_PIECE _ _
  | useGameState.ROTATE_PIECE
  | useGameState.SOFT_DROP
  | useGameState.HARD_DROP
  | useGameState.HOLD_PIECE => true
  | _ => false
  end.

(** Move, Rotate, SoftDrop and HardDrop. *)
Definition isMoveCommand (action : useGameState.Action) : bool :=
  match action with
  | useGameState.MOVE_PIECE _ _
  | useGameState.ROTATE_PIECE
  | useGameState.SOFT_DROP
  | useGameState.HARD_DROP => true
  | _ => false
  end.

(** [LOAD_STATE] copies a stored snapshot over the state. *)
Definition restoresSnapshot (action : useGameState.Action) : bool :=
  match action with
  | useGameState.LOAD_STATE _ => true
  | _ => false
  end.

(** The reducer run over a list of actions, each with the host values of
    its transition; it stops at the first transition that does not
    return. *)
Fixpoint runActions (fuel : nat) (state : GameState)
    (steps : list (Host * useGameState.Action)) : Outcome GameState :=
  match steps with
  | [] => Done state
  | (host, action) :: rest =>
      state' ← useGameState.gameStateReducer fuel host state action;
      runActions fuel state' rest
  end.

(** The kind of the piece in a slot. *)
Definition kindOf (slot : option Tetromino) : option TetrominoType :=
  piece_type <$> slot.

(** The game driven as the hook drives it: a hard drop locks the falling
    piece and sets [shouldSpawnNext], upon which the effect dispatches
    [SPAWN_PIECE]. [spawnedKinds] does that [n] times and lists the kinds
    of the pieces that became current. *)
Fixpoint spawnedKinds (fuel n : nat) (host : Host) (state : GameState)
    : Outcome (list (option TetrominoType)) :=
  match n with
  | O => Done []
  | S n' =>
      dropped ← useGameState.gameStateReducer fuel host state useGameState.HARD_DROP;
      spawned ← useGameState.gameStateReducer fuel host dropped useGameState.SPAWN_PIECE;
      rest ← spawnedKinds fuel n' host spawned;
      Done (kindOf (currentPiece spawned) :: rest)
  end.

(** A host whose random draws leave the shuffled bag in the order of
    [TETROMINO_TYPES] (the draw for index [i] is [i] itself), with a clock
    at 0 and an identity [trim]. *)
Definition hostInOrder : Host :=
  {| random := fun call => (6 - call)%nat; now := fun _ => 0; trim := fun name => name |}.

(** A game played to the top: after [START_GAME], ten rounds of hard drop
    and spawn stack the pieces in the spawn columns up to row 2, and an
    eleventh hard drop locks the falling J piece in rows 0 and 1. The
    state is the one in which the effect dispatches the next
    [SPAWN_PIECE]. *)
Definition stackedState : GameState :=
  let initial := gameLogic.createInitialGameState hostInOrder (Some "Player") in
  let round := [(hostInOrder, useGameState.HARD_DROP); (hostInOrder, useGameState.SPAWN_PIECE)] in
  match runActions 40 initial
          ((hostInOrder, useGameState.START_GAME) :: concat (replicate 10 round)
           ++ [(hostInOrder, useGameState.HARD_DROP)]) with
  | Done state => state
  | _ => initial
  end.

(** The state after [START_GAME] on that host: the I piece falls from the
    anchor over an empty board. *)
Definition startedState : GameState :=
  let initial := gameLogic.createInitialGameState hostInOrder (Some "Player") in
  match runActions 40 initial [(hostInOrder, useGameState.START_GAME)] with
  | Done state => state
  | _ => initial
  end.

(** A board whose bottom row is complete. *)
Definition bottomRowFull : Board :=
  replicate 19 emptyRow ++ [replicate 10 (Filled TI)].

(** A piece whose shape is the table entry of its kind and rotation, the
    rotation being an index of the table. *)
Definition consistentPiece (piece : Tetromino) : Prop :=
  0 <= piece_rotation piece < 4 /\
  piece_shape piece =
    js_index (tetrominoes.TETROMINO_SHAPES (piece_type piece)) (piece_rotation piece).

(** The index of the first occurrence of [kind] in [bag]. *)
Fixpoint indexOf (kind : TetrominoType) (bag : list TetrominoType) : nat :=
  match bag with
  | [] => 0%nat
  | k :: rest => if decide (k = kind) then 0%nat else S (indexOf kind rest)
  end.

(** The draws that make the shuffle loop end on [target]: at index [i]
    the draw is the place, in the bag as it stands, of the kind [target]
    has at [i]. *)
Fixpoint drawsFor (target : list TetrominoType) (i : nat) (bag : list TetrominoType)
    : list nat :=
  match i with
  | O => []
  | S i' =>
      let j := indexOf (default TI (target !! i)) bag in
      j :: drawsFor target i' (tetrominoes.swap bag i j)
  end.

(** A random source that makes those draws. *)
Definition randomFor (target : list TetrominoType) : nat -> nat :=
  fun call => default 0%nat (drawsFor target 6 constants.TETROMINO_TYPES !! call).

(** The bag the shuffle ends on when its six draws are the elements of
    [draws]. *)
Definition bagOfDraws (draws : list nat) : list TetrominoType :=
  tetrominoes.createTetrominoBag (fun call => default 0%nat (draws !! call)).

(** The six draws the shuffle loop makes on the random source [rnd]. *)
Definition drawsOf (rnd : nat -> nat) : list nat :=
  [rnd 0 mod 7; rnd 1 mod 6; rnd 2 mod 5; rnd 3 mod 4; rnd 4 mod 3; rnd 5 mod 2]%nat.

(** Every sequence of six draws in range: the first below 7, the second
    below 6, ..., the last below 2. *)
Definition allDraws : list (list nat) :=
  j0 ← seq 0 7; j1 ← seq 0 6; j2 ← seq 0 5; j3 ← seq 0 4; j4 ← seq 0 3; j5 ← seq 0 2;
  [[j0; j1; j2; j3; j4; j5]].

(** The counters of a game in step: no negative score or line count, and
    the level the one [calculateLevel] gives for the lines. *)
Definition scoreboardOk (state : GameState) : Prop :=
  0 <= score state /\ 0 <= lines state /\
  level state = scoring.calculateLevel (lines state).

(** The actions that start the counters afresh or overwrite them. *)
Definition resetsCounters (action : useGameState.Action) : bool :=
  match action with
  | useGameState.INITIALIZE _
  | useGameState.RESET_GAME
  | useGameState.LOAD_STATE _ => true
  | _ => false
  end.

(** [a] is not ranked after [b] by the comparator of [updateLeaderboard]:
    a higher score, or the same score and more lines, or the same score
    and lines and no lower level. *)
Definition rankedBefore (a b : scoring.LeaderboardEntry) : Prop :=
  scoring.compareEntries a b <= 0.

(** The kinds of the stored bag that [SPAWN_PIECE] has yet to read: the
    elements from [bagIndex] on. *)
Definition unreadKinds (state : GameState) : list TetrominoType :=
  drop (bagIndex state) (tetrominoBag state).

(** The actions that write the bag, its index or the next piece. *)
Definition writesBag (action : useGameState.Action) : bool :=
  match action with
  | useGameState.INITIALIZE _
  | useGameState.START_GAME
  | useGameState.SPAWN_PIECE
  | useGameState.RESET_GAME
  | useGameState.LOAD_STATE _ => true
  | _ => false
  end.

(** The actions that begin a game or overwrite the state. *)
Definition startsAfresh (action : useGameState.Action) : bool :=
  match action with
  | useGameState.INITIALIZE _
  | useGameState.START_GAME
  | useGameState.RESET_GAME
  | useGameState.LOAD_STATE _ => true
  | _ => false
  end.

(** The state after [k] soft drops that all moved the falling [piece]:
    the piece [k] rows lower, one point per row, the drop timer restarted. *)
Definition softDropped (host : Host) (k : Z) (state : GameState) (piece : Tetromino)
    : GameState :=
  if decide (k = 0) then state
  else
    useGameState.set_currentPiece
      (Some (useGameState.set_xy (piece_x piece) (piece_y piece + k) piece))
      (useGameState.set_score (score state + k)
         (useGameState.set_lastDropTime (now host 0) state)).

(** * Drop cadence *)

(** C2. The drop-interval formula max(50, 1000 - (level-1)*100) is the
    one of [gameLogic.calculateDropSpeed] (1000 at level 1, 50 at level
    11). The two other functions of that name do not compute it:
    [useGame.calculateDropSpeed], which paces the game loop, subtracts
    [level * 100] and gives 900 at level 1; [scoring.calculateDropSpeed]
    subtracts 50 per level and gives 500 at level 11. *)
Theorem calculateDropSpeed_variants :
  (forall level,
     gameLogic.calculateDropSpeed level = Z.max 50 (1000 - (level - 1) * 100)) /\
  gameLogic.calculateDropSpeed 1 = 1000 /\
  gameLogic.calculateDropSpeed 11 = 50 /\
  (forall level,
     useGame.calculateDropSpeed level = Z.max 50 (1000 - level * 100)) /\
  useGame.calculateDropSpeed 1 = 900 /\
  (forall level,
     scoring.calculateDropSpeed level = Z.max 50 (1000 - (level - 1) * 50)) /\
  scoring.calculateDropSpeed 11 = 500.
Proof.
  repeat split; try reflexivity.
  intros level. unfold useGame.calculateDropSpeed, constants.INITIAL_DROP_SPEED,
    constants.SPEED_INCREASE_PER_LEVEL, constants.MIN_DROP_SPEED. cbv zeta. lia.
Qed.

(** * Shape lookup *)

Lemma rem4_cases (r : Z) :
  0 <= r -> Z.rem r 4 = r `mod` 4 /\
            (r `mod` 4 = 0 \/ r `mod` 4 = 1 \/ r `mod` 4 = 2 \/ r `mod` 4 = 3).
Proof.
  intros Hr. split.
  - apply Z.rem_mod_nonneg; lia.
  - pose proof (Z.mod_pos_bound r 4 ltac:(lia)). lia.
Qed.

Lemma catalog_lookup (type : TetrominoType) (r : Z) :
  0 <= r < 4 ->
  exists shape, js_index (tetrominoes.TETROMINO_SHAPES type) r = Some shape /\
                binaryMask4 shape = true.
Proof.
  intros Hr.
  assert (r = 0 \/ r = 1 \/ r = 2 \/ r = 3) as [-> | [-> | [-> | ->]]] by lia;
    destruct type; eexists; split; reflexivity.
Qed.

(** C9, as the code has it. For every kind and every rotation that is not
    negative, [createTetromino] stores the rotation reduced modulo 4 and a
    shape that is the table entry at that index, a 4x4 mask of 0s and 1s;
    [rotateTetromino] does the same for the successor of the rotation. *)
Theorem shape_lookup_nonnegative (type : TetrominoType) (x y rotation : Z) :
  0 <= rotation ->
  let piece := tetrominoes.createTetromino type x y rotation in
  let rotated := tetrominoes.rotateTetromino piece in
  piece_rotation piece = rotation `mod` 4 /\
  (exists shape,
     piece_shape piece = Some shape /\
     tetrominoes.TETROMINO_SHAPES type !! Z.to_nat (rotation `mod` 4) = Some shape /\
     binaryMask4 shape = true) /\
  piece_rotation rotated = (rotation + 1) `mod` 4 /\
  (exists shape,
     piece_shape rotated = Some shape /\
     tetrominoes.TETROMINO_SHAPES type !! Z.to_nat ((rotation + 1) `mod` 4) = Some shape /\
     binaryMask4 shape = true).
Proof.
  intros Hr piece rotated.
  destruct (rem4_cases rotation Hr) as [Hrem Hcases].
  assert (piece_rotation piece = rotation `mod` 4) as Hrot by (simpl; exact Hrem).
  assert (Z.rem (rotation `mod` 4 + 1) 4 = (rotation + 1) `mod` 4) as Hnext.
  { rewrite Z.rem_mod_nonneg by lia.
    rewrite <- (Zplus_mod_idemp_l rotation 1 4). reflexivity. }
  split; [exact Hrot|]. split; [|split].
  - destruct (catalog_lookup type (rotation `mod` 4) ltac:(lia)) as (shape & Hs & Hb).
    exists shape. simpl. rewrite Hrem. split; [exact Hs|]. split; [|exact Hb].
    unfold js_index in Hs. destruct (rotation `mod` 4 <? 0) eqn:E; [lia|exact Hs].
  - simpl. rewrite Hrem. exact Hnext.
  - pose proof (Z.mod_pos_bound (rotation + 1) 4 ltac:(lia)) as Hb4.
    destruct (catalog_lookup type ((rotation + 1) `mod` 4) ltac:(lia)) as (shape & Hs & Hb).
    exists shape. simpl. rewrite Hrem, Hnext. split; [exact Hs|]. split; [|exact Hb].
    unfold js_index in Hs. destruct ((rotation + 1) `mod` 4 <? 0) eqn:E; [lia|exact Hs].
Qed.

Lemma shape_lookup_nonnegative_witness :
  let piece := tetrominoes.createTetromino TT 3 (-1) 6 in
  piece_rotation piece = 2 /\
  piece_shape piece = Some [[0;0;0;0]; [0;0;0;0]; [1;1;1;0]; [0;1;0;0]].
Proof.
  destruct (shape_lookup_nonnegative TT 3 (-1) 6 ltac:(lia)) as (Hrot & _).
  split; [exact Hrot | reflexivity].
Defined.

(** C9, as stated, fails for negative rotations: JavaScript's [%] keeps the
    sign of the dividend, so rotation -1 is stored as -1 and the table
    lookup at index -1 is [undefined]. *)
Lemma shape_lookup_negative_rotation :
  piece_rotation (tetrominoes.createTetromino TT 3 (-1) (-1)) = -1 /\
  piece_shape (tetrominoes.createTetromino TT 3 (-1) (-1)) = None /\
  piece_shape (tetrominoes.rotateTetromino
                 (tetrominoes.createTetromino TT 3 (-1) (-3))) = None.
Proof. repeat split. Qed.

(** * Collision test *)

Section CanPlace.
Variable board : Board.
Hypothesis Hvalid : validateBoard board = true.

Lemma validateBoard_row (newY : Z) :
  0 <= newY < 20 ->
  exists r, board !! Z.to_nat newY = Some r /\ length r = 10%nat /\
            Forall (fun c => c <> Undef) r.
Proof using Hvalid.
  intros HY. unfold validateBoard in Hvalid.
  apply andb_prop in Hvalid as [Hlen Hrows].
  apply bool_decide_eq_true in Hlen. change (Z.to_nat constants.BOARD_HEIGHT) with 20%nat in Hlen.
  destruct (lookup_lt_is_Some_2 board (Z.to_nat newY) ltac:(lia)) as [r Hr].
  exists r. split; [exact Hr|].
  rewrite forallb_forall in Hrows.
  specialize (Hrows r ltac:(apply list_elem_of_In; eapply list_elem_of_lookup_2; exact Hr)).
  apply andb_prop in Hrows as [Hw Hcells]. apply bool_decide_eq_true in Hw.
  split; [exact Hw|].
  apply Forall_forall. intros c Hc.
  rewrite forallb_forall in Hcells. specialize (Hcells c ltac:(apply list_elem_of_In; exact Hc)).
  destruct c; congruence.
Qed.

(** Inside the board a cell is falsy exactly when it is 0. *)
Lemma cell_falsy (newX newY : Z) (r : Row) :
  0 <= newX < 10 -> 0 <= newY < 20 ->
  board !! Z.to_nat newY = Some r ->
  (truthy (default Undef (r !! Z.to_nat newX)) = false <->
   cellAt board newX newY = Some Zero).
Proof using Hvalid.
  intros HX HY Hr.
  destruct (validateBoard_row newY HY) as (r' & Hr' & Hlen & Hdef).
  rewrite Hr in Hr'. injection Hr' as <-.
  destruct (lookup_lt_is_Some_2 r (Z.to_nat newX) ltac:(lia)) as [c Hc].
  unfold cellAt, js_index.
  destruct (newY <? 0) eqn:E1; [lia|]. rewrite Hr. simpl.
  destruct (newX <? 0) eqn:E2; [lia|]. rewrite Hc. simpl.
  rewrite Forall_forall in Hdef.
  specialize (Hdef c ltac:(eapply list_elem_of_lookup_2; exact Hc)).
  destruct c; simpl; split; congruence.
Qed.

Lemma canPlaceCols_spec (x y row : Z) (cells : list Z) : forall col,
  (gameLogic.canPlaceCols board cells x y row col = Done true /\
   forall (i : nat) c, cells !! i = Some c -> c <> 0 ->
     cellOk board (x + (col + Z.of_nat i)) (y + row)) \/
  (gameLogic.canPlaceCols board cells x y row col = Done false /\
   exists (i : nat) c, cells !! i = Some c /\ c <> 0 /\
     ~ cellOk board (x + (col + Z.of_nat i)) (y + row)).
Proof using Hvalid.
  induction cells as [|c rest IH]; intros col.
  - left. split; [reflexivity|]. intros i c Hc. rewrite lookup_nil in Hc. discriminate.
  - assert (forall P : nat -> Z -> Prop,
              (forall (i : nat) c', rest !! i = Some c' -> P (S i) c') ->
              P 0%nat c ->
              forall (i : nat) c', (c :: rest) !! i = Some c' -> P i c') as Hcons.
    { intros P Hrest H0 [|i] c' Hi; simpl in Hi; [injection Hi as <-; exact H0 | eauto]. }
    assert (gameLogic.canPlaceCols board rest x y row (col + 1) = Done true /\
            (forall (i : nat) c', rest !! i = Some c' -> c' <> 0 ->
               cellOk board (x + (col + Z.of_nat (S i))) (y + row)) \/
            gameLogic.canPlaceCols board rest x y row (col + 1) = Done false /\
            (exists (i : nat) c', (c :: rest) !! i = Some c' /\ c' <> 0 /\
               ~ cellOk board (x + (col + Z.of_nat i)) (y + row))) as Hrest.
    { destruct (IH (col + 1)) as [[Hrun Hall] | [Hrun (i & c' & Hi & Hc' & Hbad)]].
      - left. split; [exact Hrun|]. intros i c' Hi Hc'.
        replace (col + Z.of_nat (S i)) with (col + 1 + Z.of_nat i) by lia. eauto.
      - right. split; [exact Hrun|]. exists (S i), c'. split; [exact Hi|]. split; [exact Hc'|].
        replace (col + Z.of_nat (S i)) with (col + 1 + Z.of_nat i) by lia. exact Hbad. }
    simpl. destruct (decide (c = 0)) as [Hc0 | Hc0].
    + destruct Hrest as [[Hrun Hall] | [Hrun Hbad]]; [left | right; auto].
      split; [exact Hrun|]. intros i c' Hi Hc'. revert i c' Hi Hc'.
      apply (Hcons (fun i c' => c' <> 0 -> cellOk board (x + (col + Z.of_nat i)) (y + row)));
        [exact Hall | congruence].
    + change constants.BOARD_WIDTH with 10. change constants.BOARD_HEIGHT with 20.
      destruct ((x + col <? 0) || (x + col >=? 10) || (y + row >=? 20)) eqn:Hbounds.
      { right. split; [reflexivity|]. exists 0%nat, c. split; [reflexivity|]. split; [exact Hc0|].
        unfold cellOk, constants.BOARD_WIDTH, constants.BOARD_HEIGHT.
        replace (col + Z.of_nat 0) with col by lia. intros (HX & HY & _).
        rewrite !orb_true_iff in Hbounds. lia. }
      rewrite !orb_false_iff in Hbounds. destruct Hbounds as [[Hb1 Hb2] Hb3].
      assert (cellOk board (x + (col + Z.of_nat 0)) (y + row) \/
              (y + row >=? 0) = true /\
              exists r, board !! Z.to_nat (y + row) = Some r /\
                        truthy (default Undef (r !! Z.to_nat (x + col))) = true) as Hcell.
      { replace (col + Z.of_nat 0) with col by lia.
        destruct (y + row >=? 0) eqn:Hneg.
        - destruct (validateBoard_row (y + row) ltac:(lia)) as (r & Hr & _).
          destruct (truthy (default Undef (r !! Z.to_nat (x + col)))) eqn:Ht.
          + right. split; [reflexivity|]. exists r. auto.
          + left. unfold cellOk, constants.BOARD_WIDTH, constants.BOARD_HEIGHT.
            split; [lia|]. split; [lia|]. intros _.
            apply (cell_falsy (x + col) (y + row) r); [lia | lia | exact Hr | exact Ht].
        - left. unfold cellOk, constants.BOARD_WIDTH, constants.BOARD_HEIGHT.
          split; [lia|]. split; [lia|]. lia. }
      destruct Hcell as [Hok | (Hneg & r & Hr & Ht)].
      * assert ((if y + row >=? 0 then
                   match board !! Z.to_nat (y + row) with
                   | Some r =>
                       if truthy (default Undef (r !! Z.to_nat (x + col))) then Done false
                       else gameLogic.canPlaceCols board rest x y row (col + 1)
                   | None => Thrown TypeError
                   end
                 else gameLogic.canPlaceCols board rest x y row (col + 1)) =
                gameLogic.canPlaceCols board rest x y row (col + 1)) as ->.
        { destruct (y + row >=? 0) eqn:Hneg; [|reflexivity].
          destruct (validateBoard_row (y + row) ltac:(lia)) as (r & Hr & _). rewrite Hr.
          destruct Hok as (_ & _ & Hz). specialize (Hz ltac:(lia)).
          replace (col + Z.of_nat 0) with col in Hz by lia.
          apply (cell_falsy (x + col) (y + row) r) in Hz; [|lia|lia|exact Hr].
          rewrite Hz. reflexivity. }
        destruct Hrest as [[Hrun Hall] | [Hrun Hbad]]; [left | right; auto].
        split; [exact Hrun|]. intros i c' Hi Hc'. revert i c' Hi Hc'.
        apply (Hcons (fun i c' => c' <> 0 -> cellOk board (x + (col + Z.of_nat i)) (y + row)));
          [exact Hall | intros _; exact Hok].
      * rewrite Hneg, Hr, Ht. right. split; [reflexivity|].
        exists 0%nat, c. split; [reflexivity|]. split; [exact Hc0|].
        replace (col + Z.of_nat 0) with col by lia. intros (_ & _ & Hz).
        specialize (Hz ltac:(lia)).
        apply (cell_falsy (x + col) (y + row) r) in Hz; [congruence|lia|lia|exact Hr].
Qed.

Lemma canPlaceRows_spec (x y : Z) (rows : Mask) : forall row,
  (gameLogic.canPlaceRows board rows x y row = Done true /\
   forall (i j : nat) cells c, rows !! i = Some cells -> cells !! j = Some c -> c <> 0 ->
     cellOk board (x + Z.of_nat j) (y + (row + Z.of_nat i))) \/
  (gameLogic.canPlaceRows board rows x y row = Done false /\
   exists (i j : nat) cells c, rows !! i = Some cells /\ cells !! j = Some c /\ c <> 0 /\
     ~ cellOk board (x + Z.of_nat j) (y + (row + Z.of_nat i))).
Proof using Hvalid.
  induction rows as [|cells rest IH]; intros row.
  - left. split; [reflexivity|]. intros i j cells c Hi. rewrite lookup_nil in Hi. discriminate.
  - simpl.
    destruct (canPlaceCols_spec x y row cells 0) as [[Hrun Hall] | [Hrun (j & c & Hj & Hc & Hbad)]];
      rewrite Hrun; simpl.
    + destruct (IH (row + 1)) as [[Hrun' Hall'] | [Hrun' (i & j & cells' & c & Hi & Hj & Hc & Hbad)]].
      * left. split; [exact Hrun'|]. intros [|i] j cells' c Hi Hj Hc; simpl in Hi.
        -- injection Hi as <-. replace (row + Z.of_nat 0) with row by lia.
           apply (Hall j c Hj Hc).
        -- replace (row + Z.of_nat (S i)) with (row + 1 + Z.of_nat i) by lia. eauto.
      * right. split; [exact Hrun'|]. exists (S i), j, cells', c.
        replace (row + Z.of_nat (S i)) with (row + 1 + Z.of_nat i) by lia. auto.
    + right. split; [reflexivity|]. exists 0%nat, j, cells, c.
      replace (row + Z.of_nat 0) with row by lia. auto.
Qed.

(** [canPlacePiece] on a valid board: it returns a boolean, and [true]
    exactly when every set cell passes [cellOk]. *)
Lemma canPlacePiece_spec (tetromino : Tetromino) (shape : Mask) (x y : Z) :
  piece_shape tetromino = Some shape ->
  (gameLogic.canPlacePiece board tetromino x y = Done true /\
   forall row col, setCellAt shape row col ->
     cellOk board (x + Z.of_nat col) (y + Z.of_nat row)) \/
  (gameLogic.canPlacePiece board tetromino x y = Done false /\
   exists row col, setCellAt shape row col /\
     ~ cellOk board (x + Z.of_nat col) (y + Z.of_nat row)).
Proof using Hvalid.
  intros Hshape. unfold gameLogic.canPlacePiece. rewrite Hshape.
  destruct (canPlaceRows_spec x y shape 0)
    as [[Hrun Hall] | [Hrun (i & j & cells & c & Hi & Hj & Hc & Hbad)]].
  - left. split; [exact Hrun|]. intros row col (cells & c & Hi & Hj & Hc).
    apply (Hall row col cells c Hi Hj Hc).
  - right. split; [exact Hrun|]. exists i, j. split; [|exact Hbad].
    exists cells, c. auto.
Qed.
End CanPlace.

(** C6. On a board of 20 rows of 10 cells, [canPlacePiece] returns a
    boolean, and it returns [true] if and only if every set cell of the
    mask has its absolute column in [0, 10), its absolute row below 20 and,
    when that row is not negative, an empty board cell under it. A cell
    whose absolute row is negative is not compared with the board: when
    every set cell lies above the board, any two boards give the same
    answer. *)
Theorem canPlacePiece_iff (board : Board) (tetromino : Tetromino) (shape : Mask) (x y : Z) :
  validateBoard board = true ->
  piece_shape tetromino = Some shape ->
  (exists b, gameLogic.canPlacePiece board tetromino x y = Done b) /\
  (gameLogic.canPlacePiece board tetromino x y = Done true <->
   forall row col : nat, setCellAt shape row col ->
     0 <= x + Z.of_nat col < 10 /\
     y + Z.of_nat row < 20 /\
     (0 <= y + Z.of_nat row ->
      cellAt board (x + Z.of_nat col) (y + Z.of_nat row) = Some Zero)) /\
  (forall board' : Board,
     validateBoard board' = true ->
     (forall row col : nat, setCellAt shape row col -> y + Z.of_nat row < 0) ->
     gameLogic.canPlacePiece board' tetromino x y =
     gameLogic.canPlacePiece board tetromino x y).
Proof.
  intros Hvalid Hshape.
  pose proof (canPlacePiece_spec board Hvalid tetromino shape x y Hshape) as Hspec.
  split; [|split].
  - destruct Hspec as [[-> _] | [-> _]]; eauto.
  - split.
    + intros Htrue row col Hset.
      destruct Hspec as [[_ Hall] | [Hfalse _]]; [|congruence].
      apply (Hall row col Hset).
    + intros Hall. destruct Hspec as [[Htrue _] | [_ (row & col & Hset & Hbad)]]; [exact Htrue|].
      exfalso. apply Hbad. apply (Hall row col Hset).
  - intros board' Hvalid' Habove.
    pose proof (canPlacePiece_spec board' Hvalid' tetromino shape x y Hshape) as Hspec'.
    destruct Hspec as [[-> Hall] | [-> (row & col & Hset & Hbad)]];
      destruct Hspec' as [[-> Hall'] | [-> (row' & col' & Hset' & Hbad')]]; try reflexivity; exfalso.
    + apply Hbad'. specialize (Hall row' col' Hset'). specialize (Habove row' col' Hset').
      destruct Hall as (HX & HY & _). split; [exact HX|]. split; [exact HY|]. lia.
    + apply Hbad. specialize (Hall' row col Hset). specialize (Habove row col Hset).
      destruct Hall' as (HX & HY & _). split; [exact HX|]. split; [exact HY|]. lia.
Qed.

(** * Hard drop distance *)

Section HardDrop.
Variable board : Board.
Variable tetromino : Tetromino.
Variable shape : Mask.
Hypothesis Hshape : piece_shape tetromino = Some shape.

(** On any board, a [true] answer means that every set cell is inside
    the side walls and above the floor. *)
Lemma canPlaceCols_true_bounds (x y row : Z) (cells : list Z) : forall col,
  gameLogic.canPlaceCols board cells x y row col = Done true ->
  forall (i : nat) c, cells !! i = Some c -> c <> 0 ->
    0 <= x + (col + Z.of_nat i) < 10 /\ y + row < 20.
Proof.
  induction cells as [|c rest IH]; intros col Hrun i c' Hi Hc'.
  - rewrite lookup_nil in Hi. discriminate.
  - simpl in Hrun. destruct i as [|i]; simpl in Hi.
    + injection Hi as ->. destruct (decide (c' = 0)) as [|_]; [contradiction|].
      change constants.BOARD_WIDTH with 10 in Hrun. change constants.BOARD_HEIGHT with 20 in Hrun.
      destruct ((x + col <? 0) || (x + col >=? 10) || (y + row >=? 20)) eqn:Hb; [discriminate|].
      rewrite !orb_false_iff in Hb. lia.
    + replace (col + Z.of_nat (S i)) with (col + 1 + Z.of_nat i) by lia.
      refine (IH (col + 1) _ i c' Hi Hc').
      destruct (decide (c = 0)); [exact Hrun|].
      destruct ((x + col <? 0) || (x + col >=? constants.BOARD_WIDTH)
                || (y + row >=? constants.BOARD_HEIGHT)); [discriminate|].
      destruct (y + row >=? 0); [|exact Hrun].
      destruct (board !! Z.to_nat (y + row)) as [r|]; [|discriminate].
      destruct (truthy (default Undef (r !! Z.to_nat (x + col)))); [discriminate|exact Hrun].
Qed.

Lemma canPlaceCols_not_running (x y row : Z) (cells : list Z) : forall col,
  gameLogic.canPlaceCols board cells x y row col <> Running.
Proof.
  induction cells as [|c rest IH]; intros col; simpl; [done|].
  repeat (case_match; try done; try exact (IH _)).
Qed.

Lemma canPlaceRows_true_bounds (x y : Z) (rows : Mask) : forall row,
  gameLogic.canPlaceRows board rows x y row = Done true ->
  forall (i j : nat) cells c, rows !! i = Some cells -> cells !! j = Some c -> c <> 0 ->
    0 <= x + Z.of_nat j < 10 /\ y + (row + Z.of_nat i) < 20.
Proof.
  induction rows as [|cells rest IH]; intros row Hrun i j cells' c Hi Hj Hc.
  - rewrite lookup_nil in Hi. discriminate.
  - simpl in Hrun.
    destruct (gameLogic.canPlaceCols board cells x y row 0) as [[|]| |] eqn:Hcols;
      simpl in Hrun; try discriminate.
    destruct i as [|i]; simpl in Hi.
    + injection Hi as <-. replace (row + Z.of_nat 0) with row by lia.
      apply (canPlaceCols_true_bounds x y row cells 0 Hcols j c Hj Hc).
    + replace (row + Z.of_nat (S i)) with (row + 1 + Z.of_nat i) by lia.
      apply (IH (row + 1) Hrun i j cells' c Hi Hj Hc).
Qed.

Lemma canPlaceRows_not_running (x y : Z) (rows : Mask) : forall row,
  gameLogic.canPlaceRows board rows x y row <> Running.
Proof.
  induction rows as [|cells rest IH]; intros row; simpl; [done|].
  pose proof (canPlaceCols_not_running x y row cells 0) as Hcols.
  destruct (gameLogic.canPlaceCols board cells x y row 0) as [[|]| |]; simpl;
    [apply IH | done | done | contradiction].
Qed.

Lemma canPlacePiece_not_running (x y : Z) :
  gameLogic.canPlacePiece board tetromino x y <> Running.
Proof.
  unfold gameLogic.canPlacePiece. rewrite Hshape. apply canPlaceRows_not_running.
Qed.

(** A piece with a set cell in mask row [row] is rejected once that cell
    would be at or below the floor. *)
Lemma canPlacePiece_floor (row col : nat) (x y : Z) :
  setCellAt shape row col ->
  gameLogic.canPlacePiece board tetromino x y = Done true ->
  y + Z.of_nat row < 20.
Proof.
  intros (cells & c & Hi & Hj & Hc) Hrun.
  unfold gameLogic.canPlacePiece in Hrun. rewrite Hshape in Hrun.
  pose proof (canPlaceRows_true_bounds x y shape 0 Hrun row col cells c Hi Hj Hc). lia.
Qed.

(** A mask without a set cell fits everywhere. *)
Lemma canPlaceCols_allZero (x y row : Z) (cells : list Z) : forall col,
  Forall (fun c => c = 0) cells ->
  gameLogic.canPlaceCols board cells x y row col = Done true.
Proof.
  induction cells as [|c rest IH]; intros col Hzero; [reflexivity|].
  apply Forall_cons in Hzero as [-> Hrest]. simpl. apply IH. exact Hrest.
Qed.

Lemma canPlaceRows_allZero (x y : Z) (rows : Mask) : forall row,
  allZero rows ->
  gameLogic.canPlaceRows board rows x y row = Done true.
Proof.
  induction rows as [|cells rest IH]; intros row Hzero; [reflexivity|].
  apply Forall_cons in Hzero as [Hcells Hrest]. simpl.
  rewrite canPlaceCols_allZero by exact Hcells. simpl. apply IH. exact Hrest.
Qed.

(** The loop leaves within [k + 1] tests of its condition when the set
    cell of mask row [row] is at most [k] rows above the floor at the
    first position tested. *)
Lemma hardDropLoop_leaves (row col : nat) :
  setCellAt shape row col ->
  forall (k : nat) (distance : Z),
    20 - Z.of_nat row - (piece_y tetromino + distance + 1) <= Z.of_nat k ->
    exists result, result <> Running /\
      forall fuel, (k < fuel)%nat ->
        gameLogic.hardDropLoop fuel board tetromino distance = result.
Proof.
  intros Hset. induction k as [|k IH]; intros distance Hk.
  - destruct (gameLogic.canPlacePiece board tetromino (piece_x tetromino)
                (piece_y tetromino + distance + 1)) as [[|]|e|] eqn:Htest.
    + pose proof (canPlacePiece_floor row col _ _ Hset Htest). lia.
    + exists (Done distance). split; [done|].
      intros [|fuel] Hfuel; [lia|]. simpl. rewrite Htest. reflexivity.
    + exists (Thrown e). split; [done|].
      intros [|fuel] Hfuel; [lia|]. simpl. rewrite Htest. reflexivity.
    + exfalso. exact (canPlacePiece_not_running _ _ Htest).
  - destruct (gameLogic.canPlacePiece board tetromino (piece_x tetromino)
                (piece_y tetromino + distance + 1)) as [[|]|e|] eqn:Htest.
    + destruct (IH (distance + 1) ltac:(lia)) as (result & Hresult & Hrun).
      exists result. split; [exact Hresult|].
      intros [|fuel] Hfuel; [lia|]. simpl. rewrite Htest. simpl. apply Hrun. lia.
    + exists (Done distance). split; [done|].
      intros [|fuel] Hfuel; [lia|]. simpl. rewrite Htest. reflexivity.
    + exists (Thrown e). split; [done|].
      intros [|fuel] Hfuel; [lia|]. simpl. rewrite Htest. reflexivity.
    + exfalso. exact (canPlacePiece_not_running _ _ Htest).
Qed.

Lemma hardDropLoop_allZero :
  allZero shape ->
  forall fuel distance, gameLogic.hardDropLoop fuel board tetromino distance = Running.
Proof.
  intros Hzero. induction fuel as [|fuel IH]; intros distance; [reflexivity|].
  simpl. unfold gameLogic.canPlacePiece. rewrite Hshape.
  rewrite canPlaceRows_allZero by exact Hzero. simpl. apply IH.
Qed.
End HardDrop.

(** C10. When the shape has a set cell, the loop of [getHardDropDistance]
    ends on every board: from some number of steps on, the function gives
    one and the same result, which is not [Running]. The set cell is
    needed: for a shape of zeros [canPlacePiece] answers [true] at every
    position and the loop is still running after any number of steps. *)
Theorem getHardDropDistance_terminates (board : Board) (tetromino : Tetromino) (shape : Mask) :
  piece_shape tetromino = Some shape ->
  ((exists row col, setCellAt shape row col) ->
   exists (n : nat) result, result <> Running /\
     forall fuel, (n <= fuel)%nat ->
       gameLogic.getHardDropDistance fuel board tetromino = result) /\
  (allZero shape ->
   (forall x y, gameLogic.canPlacePiece board tetromino x y = Done true) /\
   (forall fuel, gameLogic.getHardDropDistance fuel board tetromino = Running)).
Proof.
  intros Hshape. split.
  - intros (row & col & Hset).
    set (k := Z.to_nat (20 - Z.of_nat row - (piece_y tetromino + 0 + 1))).
    destruct (hardDropLoop_leaves board tetromino shape Hshape row col Hset k 0 ltac:(lia))
      as (result & Hresult & Hrun).
    exists (S k), result. split; [exact Hresult|].
    intros fuel Hfuel. apply Hrun. lia.
  - intros Hzero. split.
    + intros x y. unfold gameLogic.canPlacePiece. rewrite Hshape.
      apply canPlaceRows_allZero. exact Hzero.
    + intros fuel. apply (hardDropLoop_allZero board tetromino shape Hshape Hzero).
Qed.

Section HardDropDistance.
Variable board : Board.
Variable tetromino : Tetromino.
Variable shape : Mask.
Hypothesis Hvalid : validateBoard board = true.
Hypothesis Hshape : piece_shape tetromino = Some shape.

Let canPlaceAt (distance : Z) : Outcome bool :=
  gameLogic.canPlacePiece board tetromino (piece_x tetromino)
    (piece_y tetromino + distance).

(** The loop invariant: every offset from the one the loop was entered
    with up to [distance] fits. *)
Lemma hardDropLoop_spec (row col : nat) :
  setCellAt shape row col ->
  forall (k : nat) (distance : Z),
    20 - Z.of_nat row - (piece_y tetromino + distance + 1) <= Z.of_nat k ->
    canPlaceAt distance = Done true ->
    exists d, distance <= d /\
      (forall fuel, (k < fuel)%nat ->
         gameLogic.hardDropLoop fuel board tetromino distance = Done d) /\
      (forall j, distance <= j <= d -> canPlaceAt j = Done true) /\
      canPlaceAt (d + 1) = Done false.
Proof using Hvalid Hshape.
  intros Hset. induction k as [|k IH]; intros distance Hk Hhere;
    destruct (canPlacePiece_spec board Hvalid tetromino shape (piece_x tetromino)
                (piece_y tetromino + (distance + 1)) Hshape) as [[Htest _] | [Htest _]].
  - pose proof (canPlacePiece_floor board tetromino shape Hshape row col _ _ Hset Htest). lia.
  - exists distance. split; [lia|]. split; [|split].
    + intros [|fuel] Hfuel; [lia|]. simpl.
      replace (piece_y tetromino + distance + 1) with (piece_y tetromino + (distance + 1)) by lia.
      rewrite Htest. reflexivity.
    + intros j Hj. replace j with distance by lia. exact Hhere.
    + exact Htest.
  - destruct (IH (distance + 1) ltac:(lia) Htest) as (d & Hd & Hrun & Hfit & Hstop).
    exists d. split; [lia|]. split; [|split].
    + intros [|fuel] Hfuel; [lia|]. simpl.
      replace (piece_y tetromino + distance + 1) with (piece_y tetromino + (distance + 1)) by lia.
      rewrite Htest. simpl. apply Hrun. lia.
    + intros j Hj. destruct (decide (j = distance)) as [-> | Hne]; [exact Hhere|].
      apply Hfit. lia.
    + exact Hstop.
  - exists distance. split; [lia|]. split; [|split].
    + intros [|fuel] Hfuel; [lia|]. simpl.
      replace (piece_y tetromino + distance + 1) with (piece_y tetromino + (distance + 1)) by lia.
      rewrite Htest. reflexivity.
    + intros j Hj. replace j with distance by lia. exact Hhere.
    + exact Htest.
Qed.
End HardDropDistance.

(** C8. On a board of 20 rows of 10 cells, for a piece that fits where it
    is (and whose shape has a set cell, as every shape of the catalog
    has), [getHardDropDistance] returns a distance [d >= 0] such that the
    piece fits [d] rows further down and does not fit [d + 1] rows further
    down; it also fits at every offset in between. *)
Theorem getHardDropDistance_spec (board : Board) (tetromino : Tetromino) (shape : Mask) :
  validateBoard board = true ->
  piece_shape tetromino = Some shape ->
  (exists row col, setCellAt shape row col) ->
  gameLogic.canPlacePiece board tetromino (piece_x tetromino) (piece_y tetromino) = Done true ->
  exists (d : Z) (n : nat),
    (forall fuel, (n <= fuel)%nat ->
       gameLogic.getHardDropDistance fuel board tetromino = Done d) /\
    0 <= d /\
    gameLogic.canPlacePiece board tetromino (piece_x tetromino) (piece_y tetromino + d)
      = Done true /\
    gameLogic.canPlacePiece board tetromino (piece_x tetromino) (piece_y tetromino + d + 1)
      = Done false /\
    (forall j, 0 <= j <= d ->
       gameLogic.canPlacePiece board tetromino (piece_x tetromino) (piece_y tetromino + j)
         = Done true).
Proof.
  intros Hvalid Hshape (row & col & Hset) Hhere.
  set (k := Z.to_nat (20 - Z.of_nat row - (piece_y tetromino + 0 + 1))).
  destruct (hardDropLoop_spec board tetromino shape Hvalid Hshape row col Hset k 0)
    as (d & Hd & Hrun & Hfit & Hstop).
  { lia. }
  { replace (piece_y tetromino + 0) with (piece_y tetromino) by lia. exact Hhere. }
  exists d, (S k). split; [|split; [|split; [|split]]].
  - intros fuel Hfuel. apply Hrun. lia.
  - exact Hd.
  - apply Hfit. lia.
  - replace (piece_y tetromino + d + 1) with (piece_y tetromino + (d + 1)) by lia. exact Hstop.
  - exact Hfit.
Qed.

Lemma hasSetCell_setCellAt (shape : Mask) :
  hasSetCell shape = true -> exists row col, setCellAt shape row col.
Proof.
  unfold hasSetCell. rewrite existsb_exists. intros (cells & Hcells & Hsome).
  rewrite existsb_exists in Hsome. destruct Hsome as (c & Hc & Hnz).
  apply list_elem_of_In, list_elem_of_lookup in Hcells as [row Hrow].
  apply list_elem_of_In, list_elem_of_lookup in Hc as [col Hcol].
  exists row, col, cells, c. split; [exact Hrow|]. split; [exact Hcol|].
  intros ->. discriminate.
Qed.

(** Every shape of the catalog has a set cell. *)
Lemma catalog_shapes_set_cell (type : TetrominoType) (r : Z) (shape : Mask) :
  js_index (tetrominoes.TETROMINO_SHAPES type) r = Some shape ->
  hasSetCell shape = true.
Proof.
  unfold js_index. destruct (r <? 0); [discriminate|].
  destruct type; destruct (Z.to_nat r) as [|[|[|[|n]]]]; simpl; intros Hs;
    try (rewrite lookup_nil in Hs); try discriminate; injection Hs as <-; reflexivity.
Qed.

(** * Line clearing *)

Section ClearLines.
Variable board : Board.

Let isComplete (i : nat) : Prop :=
  exists r, board !! i = Some r /\ completeRow r = true.

(** The indices reported are those of the complete rows visited. *)
Lemma findCompleteLinesFrom_spec (count : nat) : forall y,
  (y + count <= length board)%nat ->
  exists found,
    gameLogic.findCompleteLinesFrom board count y = Done found /\
    length found = length (List.filter completeRow (take count (drop y board))) /\
    forall i, i ∈ found <-> (y <= i < y + count)%nat /\ isComplete i.
Proof.
  induction count as [|count IH]; intros y Hlen.
  - exists []. split; [reflexivity|]. split; [reflexivity|].
    intros i. split; [intros Hi; inversion Hi | intros [Hi _]; lia].
  - destruct (lookup_lt_is_Some_2 board y ltac:(lia)) as [r Hr].
    destruct (IH (S y) ltac:(lia)) as (found & Hrun & Hcount & Hmem).
    simpl. rewrite Hr, Hrun. simpl.
    rewrite (drop_S board r y Hr). simpl.
    change (forallb notZero r) with (completeRow r).
    destruct (completeRow r) eqn:Hcomplete.
    + exists (y :: found). split; [reflexivity|]. split; [simpl; congruence|].
      intros i. rewrite elem_of_cons, Hmem. split.
      * intros [-> | [Hi Hc]]; [|split; [lia | exact Hc]].
        split; [lia|]. exists r. auto.
      * intros [Hi Hc]. destruct (decide (i = y)) as [|Hne]; [left; assumption|].
        right. split; [lia | exact Hc].
    + exists found. split; [reflexivity|]. split; [exact Hcount|].
      intros i. rewrite Hmem. split.
      * intros [Hi Hc]. split; [lia | exact Hc].
      * intros [Hi Hc]. split; [|exact Hc].
        destruct (decide (i = y)) as [-> | Hne]; [|lia].
        destruct Hc as (r' & Hr' & Hc). rewrite Hr in Hr'. injection Hr' as <-. congruence.
Qed.

(** The rows kept are the visited rows that are not complete, in order. *)
Lemma keepRowsFrom_spec (completeLines : list nat) (count : nat) : forall y,
  (y + count <= length board)%nat ->
  (forall i, (y <= i < y + count)%nat -> i ∈ completeLines <-> isComplete i) ->
  gameLogic.keepRowsFrom board completeLines count y =
  Done (List.filter (fun r => negb (completeRow r)) (take count (drop y board))).
Proof.
  induction count as [|count IH]; intros y Hlen Hmem; [reflexivity|].
  destruct (lookup_lt_is_Some_2 board y ltac:(lia)) as [r Hr].
  simpl. rewrite (drop_S board r y Hr). simpl.
  rewrite (IH (S y)) by (try lia; intros i Hi; apply Hmem; lia).
  destruct (decide (y ∈ completeLines)) as [Hin | Hout].
  - apply Hmem in Hin; [|lia]. destruct Hin as (r' & Hr' & Hc).
    rewrite Hr in Hr'. injection Hr' as <-. rewrite Hc. reflexivity.
  - rewrite Hr. simpl. destruct (completeRow r) eqn:Hc; [|reflexivity].
    exfalso. apply Hout. apply Hmem; [lia|]. exists r. auto.
Qed.
End ClearLines.

Lemma unshiftEmpty_replicate (missing : nat) : forall newBoard : Board,
  gameLogic.unshiftEmpty missing newBoard = replicate missing emptyRow ++ newBoard.
Proof.
  induction missing as [|missing IH]; intros newBoard; [reflexivity|].
  rewrite replicate_S_end, <- app_assoc. cbn [gameLogic.unshiftEmpty]. apply IH.
Qed.

Lemma filter_partition_length {A} (p : A -> bool) (l : list A) :
  (length (List.filter p l) + length (List.filter (fun a => negb (p a)) l) = length l)%nat.
Proof.
  induction l as [|a l IH]; [reflexivity|]. simpl. destruct (p a); simpl; lia.
Qed.

Lemma filter_none {A} (p : A -> bool) (l : list A) :
  length (List.filter p l) = 0%nat -> List.filter (fun a => negb (p a)) l = l.
Proof.
  induction l as [|a l IH]; [reflexivity|]. simpl. destruct (p a); simpl; [discriminate|].
  intros Hl. f_equal. exact (IH Hl).
Qed.

Lemma clearLines_result (board : Board) :
  validateBoard board = true ->
  let complete := List.filter completeRow board in
  let kept := List.filter (fun r => negb (completeRow r)) board in
  let newBoard := replicate (length complete) emptyRow ++ kept in
  gameLogic.clearLines board = Done (newBoard, Z.of_nat (length complete)) /\
  length newBoard = 20%nat /\
  validateBoard newBoard = true /\
  (length complete = 0%nat -> gameLogic.clearLines board = Done (board, 0)).
Proof.
  intros Hvalid complete kept newBoard.
  pose proof Hvalid as Hvalid'. unfold validateBoard in Hvalid'.
  apply andb_prop in Hvalid' as [Hlen Hrows]. apply bool_decide_eq_true in Hlen.
  change (Z.to_nat constants.BOARD_HEIGHT) with 20%nat in Hlen.
  pose proof (filter_partition_length completeRow board) as Hpart.
  fold complete kept in Hpart.
  assert (take 20 (drop 0 board) = board) as Hall.
  { rewrite drop_0. apply take_ge. lia. }
  destruct (findCompleteLinesFrom_spec board 20 0 ltac:(lia)) as (found & Hrun & Hcount & Hmem).
  rewrite Hall in Hcount. fold complete in Hcount.
  assert (gameLogic.clearLines board = Done (newBoard, Z.of_nat (length complete))) as Hclear.
  { unfold gameLogic.clearLines, gameLogic.findCompleteLines.
    change (Z.to_nat constants.BOARD_HEIGHT) with 20%nat. rewrite Hrun. cbn [mbind Outcome_bind].
    destruct (decide (length found = 0%nat)) as [Hnone | Hsome].
    - unfold newBoard, kept. rewrite <- Hcount, Hnone. cbn [replicate app].
      rewrite filter_none by (fold complete; lia). reflexivity.
    - rewrite (keepRowsFrom_spec board found 20 0)
        by (try lia; intros i Hi; rewrite Hmem; tauto).
      rewrite Hall. cbn [mbind Outcome_bind]. fold kept.
      rewrite unshiftEmpty_replicate. rewrite Hcount.
      replace (20 - length kept)%nat with (length complete) by lia. reflexivity. }
  split; [exact Hclear|]. split; [|split].
  - unfold newBoard. rewrite length_app, length_replicate. lia.
  - unfold validateBoard. apply andb_true_intro. split.
    + apply bool_decide_eq_true. unfold newBoard. rewrite length_app, length_replicate.
      change (Z.to_nat constants.BOARD_HEIGHT) with 20%nat. lia.
    + apply forallb_forall. intros r Hr. unfold newBoard in Hr.
      apply in_app_or in Hr as [Hr | Hr].
      * apply list_elem_of_In, elem_of_replicate in Hr as [-> _]. reflexivity.
      * apply filter_In in Hr as [Hr _]. rewrite forallb_forall in Hrows. apply Hrows, Hr.
  - intros Hnone. rewrite Hclear. unfold newBoard, kept. rewrite Hnone. cbn [replicate app Z.of_nat].
    rewrite filter_none by (fold complete; lia). reflexivity.
Qed.

(** C7. On a board of 20 rows of 10 cells, [clearLines] returns the rows
    that are not complete, in their order, below as many empty rows as
    there were complete rows, together with that number; the result is
    again a board of 20 rows of 10 cells. With no complete row it returns
    the board it was given and 0. *)
Theorem clearLines_spec (board : Board) :
  validateBoard board = true ->
  let complete := List.filter completeRow board in
  let kept := List.filter (fun r => negb (completeRow r)) board in
  let newBoard := replicate (length complete) emptyRow ++ kept in
  gameLogic.clearLines board = Done (newBoard, Z.of_nat (length complete)) /\
  length newBoard = 20%nat /\
  validateBoard newBoard = true /\
  (length complete = 0%nat -> gameLogic.clearLines board = Done (board, 0)).
Proof. exact (clearLines_result board). Qed.

(** * Stamping a piece *)

Lemma validateBoard_iff (board : Board) : validateBoard board = true <-> boardOk board.
Proof.
  unfold validateBoard, boardOk.
  rewrite andb_true_iff, bool_decide_eq_true, forallb_forall, Forall_forall.
  change (Z.to_nat constants.BOARD_HEIGHT) with 20%nat.
  change (Z.to_nat constants.BOARD_WIDTH) with 10%nat.
  split; intros [Hlen Hrows]; (split; [exact Hlen|]); intros r Hr.
  - specialize (Hrows r ltac:(apply list_elem_of_In; exact Hr)).
    rewrite andb_true_iff, bool_decide_eq_true, forallb_forall in Hrows.
    destruct Hrows as [Hw Hcells]. split; [exact Hw|].
    apply Forall_forall. intros c Hc.
    specialize (Hcells c ltac:(apply list_elem_of_In; exact Hc)). destruct c; congruence.
  - specialize (Hrows r ltac:(apply list_elem_of_In; exact Hr)). destruct Hrows as [Hw Hcells].
    rewrite andb_true_iff, bool_decide_eq_true, forallb_forall. split; [exact Hw|].
    intros c Hc. rewrite Forall_forall in Hcells.
    specialize (Hcells c ltac:(apply list_elem_of_In; exact Hc)). destruct c; congruence.
Qed.

Lemma stamp_boardOk (v : Cell) (positions : list (Z * Z)) : forall board : Board,
  v <> Undef -> boardOk board ->
  exists newBoard, gameLogic.stamp board positions v = Done newBoard /\ boardOk newBoard.
Proof.
  induction positions as [|[x y] rest IH]; intros board Hv Hok.
  - exists board. split; [reflexivity | exact Hok].
  - cbn [gameLogic.stamp].
    change constants.BOARD_WIDTH with 10. change constants.BOARD_HEIGHT with 20.
    destruct ((y >=? 0) && (y <? 20) && (x >=? 0) && (x <? 10)) eqn:Hin; [|apply IH; assumption].
    rewrite !andb_true_iff in Hin. destruct Hin as [[[Hy0 Hy1] Hx0] Hx1].
    destruct Hok as [Hlen Hrows].
    destruct (lookup_lt_is_Some_2 board (Z.to_nat y) ltac:(lia)) as [r Hr].
    rewrite Hr. apply IH; [exact Hv|].
    pose proof (Forall_lookup_1 _ _ _ _ Hrows Hr) as [Hw Hcells].
    split; [rewrite length_insert; exact Hlen|].
    apply Forall_insert; [exact Hrows|].
    unfold gameLogic.setCell. destruct (decide (Z.to_nat x < length r)%nat) as [_|Hout]; [|lia].
    split; [rewrite length_insert; exact Hw|].
    apply Forall_insert; [exact Hcells | exact Hv].
Qed.

Lemma placePiece_valid (board : Board) (tetromino : Tetromino) (shape : Mask) :
  validateBoard board = true ->
  piece_shape tetromino = Some shape ->
  exists newBoard,
    gameLogic.placePiece board tetromino = Done newBoard /\
    validateBoard newBoard = true.
Proof.
  intros Hvalid Hshape. unfold gameLogic.placePiece, tetrominoes.getTetrominoPositions.
  rewrite Hshape. cbn [mbind Outcome_bind].
  destruct (stamp_boardOk (Filled (piece_type tetromino))
              (tetrominoes.positionsOfRows shape (piece_x tetromino) (piece_y tetromino) 0)
              board ltac:(discriminate) ltac:(apply validateBoard_iff; exact Hvalid))
    as (newBoard & Hrun & Hok).
  exists newBoard. split; [exact Hrun | apply validateBoard_iff; exact Hok].
Qed.

(** * The bag *)

Lemma swap_Permutation (bag : list TetrominoType) (i j : nat) :
  tetrominoes.swap bag i j ≡ₚ bag.
Proof.
  unfold tetrominoes.swap.
  destruct (bag !! i) as [bi|] eqn:Hi; [|reflexivity].
  destruct (bag !! j) as [bj|] eqn:Hj; [|reflexivity].
  apply Permutation_insert_swap; assumption.
Qed.

Lemma shuffleLoop_Permutation (rnd : nat -> nat) (i : nat) :
  forall call bag, tetrominoes.shuffleLoop rnd call i bag ≡ₚ bag.
Proof.
  induction i as [|i IH]; intros call bag; [reflexivity|].
  cbn [tetrominoes.shuffleLoop]. rewrite IH. apply swap_Permutation.
Qed.

(** Every bag is a permutation of the seven kinds: each kind once. *)
Lemma createTetrominoBag_Permutation (rnd : nat -> nat) :
  tetrominoes.createTetrominoBag rnd ≡ₚ constants.TETROMINO_TYPES.
Proof. apply shuffleLoop_Permutation. Qed.

Lemma createTetrominoBag_length (rnd : nat -> nat) :
  length (tetrominoes.createTetrominoBag rnd) = 7%nat.
Proof. rewrite createTetrominoBag_Permutation. reflexivity. Qed.

Lemma createTetrominoBag_NoDup (rnd : nat -> nat) :
  NoDup (tetrominoes.createTetrominoBag rnd).
Proof.
  rewrite createTetrominoBag_Permutation. unfold constants.TETROMINO_TYPES.
  apply (bool_decide_unpack _). vm_compute. exact I.
Qed.

(** The draws of the shuffle are inside the part of the bag not yet
    fixed, so [swap] is always called on two existing elements. *)
Lemma shuffle_draw_in_range (rnd : nat -> nat) (call i : nat) :
  (rnd call mod (S i + 1) <= S i)%nat.
Proof. pose proof (Nat.mod_upper_bound (rnd call) (S i + 1) ltac:(lia)). lia. Qed.

(** * The reducer *)

(** C1, at a concrete game. With random draws that leave the first bag in
    the order I, O, T, S, Z, J, L, [START_GAME] makes I current and O next,
    but stores [bag.slice(2)] together with [bagIndex = 2]: the draws that
    follow read the stored bag from its index 2, which is the element 4 of
    the bag. The pieces that become current are I, O, Z, J, L and then the
    first of a fresh bag: T and S of the first bag are never spawned, and
    the fresh bag is shuffled while they are still unread. *)
Theorem start_game_skips_two_kinds :
  let initial := gameLogic.createInitialGameState hostInOrder (Some "Player") in
  tetrominoes.createTetrominoBag (random hostInOrder) = [TI; TO; TT; TS; TZ; TJ; TL] /\
  exists started,
    useGameState.gameStateReducer 40 hostInOrder initial useGameState.START_GAME
      = Done started /\
    kindOf (currentPiece started) = Some TI /\
    kindOf (nextPiece started) = Some TO /\
    tetrominoBag started = [TT; TS; TZ; TJ; TL] /\
    bagIndex started = 2%nat /\
    spawnedKinds 40 5 hostInOrder started
      = Done [Some TO; Some TZ; Some TJ; Some TL; Some TI].
Proof.
  split; [reflexivity|]. eexists. split; [reflexivity|]. repeat split.
Qed.

(** For every random source and every state, [START_GAME] hands out the
    elements 0 and 1 of the bag and leaves a stored bag whose next read,
    at [bagIndex], is the element 4 of the bag. *)
Lemma START_GAME_next_read (fuel : nat) (host : Host) (state : GameState) :
  let bag := tetrominoes.createTetrominoBag (random host) in
  exists started,
    useGameState.gameStateReducer fuel host state useGameState.START_GAME = Done started /\
    kindOf (currentPiece started) = bag !! 0%nat /\
    kindOf (nextPiece started) = bag !! 1%nat /\
    tetrominoBag started = drop 2 bag /\
    bagIndex started = 2%nat /\
    tetrominoBag started !! bagIndex started = bag !! 4%nat.
Proof.
  intros bag. pose proof (createTetrominoBag_length (random host)) as Hlen. fold bag in Hlen.
  cbn [useGameState.gameStateReducer]. fold bag.
  destruct bag as [|b0 [|b1 rest]]; [discriminate | discriminate |].
  eexists. split; [reflexivity|]. repeat split.
Qed.

(** What [HOLD_PIECE] does with an empty hold slot: the falling piece goes
    to the slot with [x], [y] and [rotation] overwritten - its [shape] is
    copied as it is - the next piece becomes current, [canHold] is cleared,
    and a second [HOLD_PIECE] changes nothing. *)
Lemma HOLD_PIECE_empty_slot (fuel : nat) (host : Host) (state : GameState) (piece : Tetromino) :
  currentPiece state = Some piece ->
  holdPiece state = None ->
  canHold state = true ->
  isPaused state = false ->
  isGameOver state = false ->
  exists held,
    useGameState.gameStateReducer fuel host state useGameState.HOLD_PIECE = Done held /\
    holdPiece held =
      Some (mkTetromino (piece_type piece) 3 (-1) 0 (piece_shape piece) (piece_color piece)) /\
    currentPiece held = nextPiece state /\
    canHold held = false /\
    useGameState.gameStateReducer fuel host held useGameState.HOLD_PIECE = Done held.
Proof.
  intros Hcur Hhold Hcan Hpaused Hover.
  cbn [useGameState.gameStateReducer]. rewrite Hcur, Hhold, Hcan, Hpaused, Hover. cbn [orb negb].
  eexists. split; [reflexivity|]. split; [reflexivity|]. split; [reflexivity|]. split; [reflexivity|].
  cbn. destruct (nextPiece state); [|reflexivity].
  rewrite Hpaused, Hover. reflexivity.
Qed.

(** C3, at a concrete game. After [START_GAME] (I current, O next) and one
    [ROTATE_PIECE], the falling I piece is vertical. [HOLD_PIECE] puts it in
    the empty hold slot with x = 3, y = -1 and rotation 0, but with the
    vertical mask of rotation 1 still as its shape: not the rotation-0
    shape of its kind. *)
Theorem hold_keeps_rotated_shape :
  let initial := gameLogic.createInitialGameState hostInOrder (Some "Player") in
  exists state held,
    runActions 40 initial
      [(hostInOrder, useGameState.START_GAME);
       (hostInOrder, useGameState.ROTATE_PIECE);
       (hostInOrder, useGameState.HOLD_PIECE)] = Done state /\
    holdPiece state = Some held /\
    piece_type held = TI /\
    piece_x held = 3 /\ piece_y held = -1 /\ piece_rotation held = 0 /\
    piece_shape held = Some [[0;0;1;0]; [0;0;1;0]; [0;0;1;0]; [0;0;1;0]] /\
    js_index (tetrominoes.TETROMINO_SHAPES TI) 0
      = Some [[0;0;0;0]; [1;1;1;1]; [0;0;0;0]; [0;0;0;0]] /\
    piece_shape held <> js_index (tetrominoes.TETROMINO_SHAPES (piece_type held)) 0 /\
    kindOf (currentPiece state) = Some TO /\
    canHold state = false.
Proof.
  intros initial.
  remember (runActions 40 initial _) as result eqn:Hrun.
  vm_compute in Hrun. subst result.
  eexists. eexists. split; [reflexivity|]. split; [reflexivity|].
  repeat split. discriminate.
Qed.

(** ** Totality on valid states *)

Lemma canPlacePiece_returns (board : Board) (tetromino : Tetromino) (x y : Z) :
  validateBoard board = true ->
  validPiece tetromino = true ->
  exists b, gameLogic.canPlacePiece board tetromino x y = Done b.
Proof.
  intros Hvalid Hpiece. unfold validPiece in Hpiece.
  apply andb_prop in Hpiece as [_ Hshape].
  destruct (piece_shape tetromino) as [shape|] eqn:Hs; [|discriminate].
  destruct (canPlacePiece_spec board Hvalid tetromino shape x y Hs) as [[-> _] | [-> _]]; eauto.
Qed.

Lemma hardDropLoop_not_thrown (board : Board) (tetromino : Tetromino) :
  validateBoard board = true ->
  validPiece tetromino = true ->
  forall fuel distance e,
    gameLogic.hardDropLoop fuel board tetromino distance <> Thrown e.
Proof.
  intros Hvalid Hpiece. induction fuel as [|fuel IH]; intros distance e; [done|].
  cbn [gameLogic.hardDropLoop].
  destruct (canPlacePiece_returns board tetromino (piece_x tetromino)
              (piece_y tetromino + distance + 1) Hvalid Hpiece) as [[|] ->];
    cbn [mbind Outcome_bind]; [apply IH | done].
Qed.

Lemma getHardDropDistance_returns (board : Board) (tetromino : Tetromino) :
  validateBoard board = true ->
  validPiece tetromino = true ->
  exists (d : Z) (n : nat),
    forall fuel, (n <= fuel)%nat ->
      gameLogic.getHardDropDistance fuel board tetromino = Done d.
Proof.
  intros Hvalid Hpiece. pose proof Hpiece as Hpiece'. unfold validPiece in Hpiece'.
  apply andb_prop in Hpiece' as [_ Hshape].
  destruct (piece_shape tetromino) as [shape|] eqn:Hs; [|discriminate].
  destruct (hasSetCell_setCellAt shape Hshape) as (row & col & Hset).
  set (k := Z.to_nat (20 - Z.of_nat row - (piece_y tetromino + 0 + 1))).
  destruct (hardDropLoop_leaves board tetromino shape Hs row col Hset k 0 ltac:(lia))
    as (result & Hresult & Hrun).
  destruct result as [d|e|].
  - exists d, (S k). intros fuel Hfuel. apply Hrun. lia.
  - exfalso. apply (hardDropLoop_not_thrown board tetromino Hvalid Hpiece (S k) 0 e).
    apply Hrun. lia.
  - contradiction.
Qed.

Lemma validState_fields (state : GameState) :
  validState state = true <->
  validateBoard (board state) = true /\
  validSlot (currentPiece state) = true /\
  validSlot (nextPiece state) = true /\
  validSlot (holdPiece state) = true.
Proof. unfold validState. rewrite !andb_true_iff. tauto. Qed.

Lemma validPiece_set_xy (vx vy : Z) (piece : Tetromino) :
  validPiece (useGameState.set_xy vx vy piece) = validPiece piece.
Proof. reflexivity. Qed.

Lemma validPiece_hold (piece : Tetromino) :
  validPiece piece = true ->
  validPiece (useGameState.set_xy_rotation 3 (-1) 0 piece) = true.
Proof.
  unfold validPiece. cbn. intros H. apply andb_prop in H as [_ ->]. reflexivity.
Qed.

Lemma validPiece_createTetromino (type : TetrominoType) :
  validPiece (tetrominoes.createTetromino type 3 (-1) 0) = true.
Proof. destruct type; reflexivity. Qed.

Lemma validPiece_rotateTetromino (piece : Tetromino) :
  validPiece piece = true ->
  validPiece (tetrominoes.rotateTetromino piece) = true.
Proof.
  unfold validPiece. intros H. apply andb_prop in H as [Hrot _].
  apply bool_decide_eq_true in Hrot.
  assert (piece_rotation piece = 0 \/ piece_rotation piece = 1 \/
          piece_rotation piece = 2 \/ piece_rotation piece = 3) as Hcases by lia.
  unfold tetrominoes.rotateTetromino. cbn [piece_rotation piece_shape].
  destruct Hcases as [-> | [-> | [-> | ->]]]; destruct (piece_type piece); reflexivity.
Qed.

Lemma createTetrominoOf_lookup (bag : list TetrominoType) (i : nat) :
  (i < length bag)%nat ->
  exists type, bag !! i = Some type /\
    tetrominoes.createTetrominoOf (bag !! i) = Done (tetrominoes.createTetromino type 3 (-1) 0).
Proof.
  intros Hi. destruct (lookup_lt_is_Some_2 bag i Hi) as [type Htype].
  exists type. rewrite Htype. split; reflexivity.
Qed.

(** The lock-in sequence returns, with a valid board and an empty current
    slot, and leaves the flags of the game untouched. *)
Lemma lockIn_returns (state : GameState) (piece : Tetromino) (dropPoints : Z) :
  validState state = true ->
  validPiece piece = true ->
  exists state',
    useGameState.lockIn state piece dropPoints = Done state' /\
    validState state' = true /\
    isGameOver state' = isGameOver state.
Proof.
  intros Hstate Hpiece. apply validState_fields in Hstate as (Hboard & _ & Hnext & Hhold).
  pose proof Hpiece as Hpiece'. unfold validPiece in Hpiece'.
  apply andb_prop in Hpiece' as [_ Hshape].
  destruct (piece_shape piece) as [shape|] eqn:Hs; [|discriminate].
  destruct (placePiece_valid (board state) piece shape Hboard Hs) as (placed & Hplace & Hplaced).
  destruct (clearLines_result placed Hplaced) as (Hclear & _ & Hcleared & _).
  unfold useGameState.lockIn. rewrite Hplace. cbn [mbind Outcome_bind].
  rewrite Hclear. cbn [mbind Outcome_bind fst snd].
  eexists. split; [reflexivity|]. split; [|reflexivity].
  apply validState_fields. cbn. auto.
Qed.

Ltac valid_fields :=
  apply validState_fields; cbn;
  rewrite ?validPiece_set_xy;
  repeat match goal with
         | H : ?slot = Some _ |- context [?slot] => rewrite H
         end;
  auto using validPiece_createTetromino, validPiece_rotateTetromino, validPiece_hold.

(** One transition from a valid state returns (given enough steps for the
    hard-drop loop) and its result is a valid state again. *)
Lemma gameStateReducer_step (host : Host) (state : GameState) (action : useGameState.Action) :
  validState state = true ->
  restoresSnapshot action = false ->
  exists state' (n : nat),
    (forall fuel, (n <= fuel)%nat ->
       useGameState.gameStateReducer fuel host state action = Done state') /\
    validState state' = true.
Proof.
  intros Hstate Hnot.
  pose proof Hstate as Hfields.
  apply validState_fields in Hfields as (Hboard & Hcur & Hnext & Hhold).
  destruct action; cbn [useGameState.gameStateReducer]; try discriminate Hnot.
  - (* INITIALIZE *)
    eexists. exists 0%nat. split; [intros; reflexivity | reflexivity].
  - (* START_GAME *)
    pose proof (createTetrominoBag_length (random host)) as Hlen.
    destruct (createTetrominoOf_lookup (tetrominoes.createTetrominoBag (random host)) 0
                ltac:(lia)) as (k0 & _ & ->).
    destruct (createTetrominoOf_lookup (tetrominoes.createTetrominoBag (random host)) 1
                ltac:(lia)) as (k1 & _ & ->).
    cbn [mbind Outcome_bind].
    eexists. exists 0%nat. split; [intros; reflexivity | valid_fields].
  - (* MOVE_PIECE *)
    destruct (currentPiece state) as [piece|] eqn:Hpiece;
      [|exists state, 0%nat; split; [intros; reflexivity | exact Hstate]].
    destruct (isPaused state || isGameOver state);
      [exists state, 0%nat; split; [intros; reflexivity | exact Hstate]|].
    destruct (canPlacePiece_returns (board state) piece (piece_x piece + deltaX)
                (piece_y piece + deltaY) Hboard Hcur) as [[|] ->]; cbn [mbind Outcome_bind].
    + eexists. exists 0%nat. split; [intros; reflexivity | valid_fields].
    + exists state, 0%nat. split; [intros; reflexivity | exact Hstate].
  - (* ROTATE_PIECE *)
    destruct (currentPiece state) as [piece|] eqn:Hpiece;
      [|exists state, 0%nat; split; [intros; reflexivity | exact Hstate]].
    destruct (isPaused state || isGameOver state);
      [exists state, 0%nat; split; [intros; reflexivity | exact Hstate]|].
    pose proof (validPiece_rotateTetromino piece Hcur) as Hrotated.
    destruct (canPlacePiece_returns (board state) (tetrominoes.rotateTetromino piece)
                (piece_x (tetrominoes.rotateTetromino piece))
                (piece_y (tetrominoes.rotateTetromino piece)) Hboard Hrotated) as [[|] ->];
      cbn [mbind Outcome_bind].
    + eexists. exists 0%nat. split; [intros; reflexivity | valid_fields].
    + exists state, 0%nat. split; [intros; reflexivity | exact Hstate].
  - (* SOFT_DROP *)
    destruct (currentPiece state) as [piece|] eqn:Hpiece;
      [|exists state, 0%nat; split; [intros; reflexivity | exact Hstate]].
    destruct (isPaused state || isGameOver state);
      [exists state, 0%nat; split; [intros; reflexivity | exact Hstate]|].
    destruct (canPlacePiece_returns (board state) piece (piece_x piece)
                (piece_y piece + 1) Hboard Hcur) as [[|] ->]; cbn [mbind Outcome_bind].
    + eexists. exists 0%nat. split; [intros; reflexivity | valid_fields].
    + destruct (lockIn_returns state piece 0 Hstate Hcur) as (state' & -> & Hvalid' & _).
      exists state', 0%nat. split; [intros; reflexivity | exact Hvalid'].
  - (* HARD_DROP *)
    destruct (currentPiece state) as [piece|] eqn:Hpiece;
      [|exists state, 0%nat; split; [intros; reflexivity | exact Hstate]].
    destruct (isPaused state || isGameOver state);
      [exists state, 0%nat; split; [intros; reflexivity | exact Hstate]|].
    destruct (getHardDropDistance_returns (board state) piece Hboard Hcur) as (d & n & Hdrop).
    destruct (lockIn_returns state
                (useGameState.set_xy (piece_x piece) (piece_y piece + d) piece)
                (scoring.calculateHardDropScore d) Hstate
                ltac:(rewrite validPiece_set_xy; exact Hcur)) as (state' & Hlock & Hvalid' & _).
    exists state', n. split; [|exact Hvalid'].
    intros fuel Hfuel. rewrite (Hdrop fuel Hfuel). cbn [mbind Outcome_bind]. exact Hlock.
  - (* PLACE_PIECE *)
    destruct (currentPiece state) as [piece|] eqn:Hpiece;
      [|exists state, 0%nat; split; [intros; reflexivity | exact Hstate]].
    destruct (lockIn_returns state piece 0 Hstate Hcur) as (state' & -> & Hvalid' & _).
    exists state', 0%nat. split; [intros; reflexivity | exact Hvalid'].
  - (* SPAWN_PIECE *)
    destruct (nextPiece state) as [piece|] eqn:Hpiece;
      [|exists state, 0%nat; split; [intros; reflexivity | exact Hstate]].
    destruct (isGameOver state);
      [exists state, 0%nat; split; [intros; reflexivity | exact Hstate]|].
    assert (exists type,
              tetrominoes.createTetrominoOf
                ((if bool_decide (length (tetrominoBag state) <= bagIndex state)%nat
                  then tetrominoes.createTetrominoBag (random host)
                  else tetrominoBag state)
                 !! (if bool_decide (length (tetrominoBag state) <= bagIndex state)%nat
                     then 0%nat else bagIndex state))
              = Done (tetrominoes.createTetromino type 3 (-1) 0)) as (type & ->).
    { destruct (bool_decide (length (tetrominoBag state) <= bagIndex state)%nat) eqn:Hrefill.
      - pose proof (createTetrominoBag_length (random host)) as Hlen.
        destruct (createTetrominoOf_lookup (tetrominoes.createTetrominoBag (random host)) 0
                    ltac:(lia)) as (type & _ & ->). eauto.
      - apply bool_decide_eq_false in Hrefill.
        destruct (createTetrominoOf_lookup (tetrominoBag state) (bagIndex state)
                    ltac:(lia)) as (type & _ & ->). eauto. }
    cbn [mbind Outcome_bind]. unfold gameLogic.isGameOver.
    destruct (canPlacePiece_returns (board state) piece (piece_x piece) (piece_y piece)
                Hboard Hnext) as [[|] ->]; cbn [mbind Outcome_bind negb].
    + eexists. exists 0%nat. split; [intros; reflexivity | valid_fields].
    + eexists. exists 0%nat. split; [intros; reflexivity | valid_fields].
  - (* HOLD_PIECE *)
    destruct (currentPiece state) as [piece|] eqn:Hpiece;
      [|exists state, 0%nat; split; [intros; reflexivity | exact Hstate]].
    destruct (isPaused state || isGameOver state || negb (canHold state));
      [exists state, 0%nat; split; [intros; reflexivity | exact Hstate]|].
    destruct (holdPiece state) as [held|] eqn:Hheld.
    + eexists. exists 0%nat. split; [intros; reflexivity | valid_fields].
    + eexists. exists 0%nat. split; [intros; reflexivity | valid_fields].
  - (* PAUSE_GAME *)
    destruct (isGameOver state).
    + exists state, 0%nat. split; [intros; reflexivity | exact Hstate].
    + eexists. exists 0%nat. split; [intros; reflexivity | valid_fields].
  - (* RESUME_GAME *)
    destruct (isGameOver state).
    + exists state, 0%nat. split; [intros; reflexivity | exact Hstate].
    + eexists. exists 0%nat. split; [intros; reflexivity | valid_fields].
  - (* RESET_GAME *)
    eexists. exists 0%nat. split; [intros; reflexivity | reflexivity].
  - (* OTHER *)
    exists state, 0%nat. split; [intros; reflexivity | exact Hstate].
Qed.

(** The state a game starts from is valid, and so is every state a
    sequence of transitions (other than [LOAD_STATE]) reaches from a valid
    state: the whole sequence returns. *)
Lemma createInitialGameState_valid (host : Host) (name : option string) :
  validState (gameLogic.createInitialGameState host name) = true.
Proof. reflexivity. Qed.

Lemma runActions_returns (steps : list (Host * useGameState.Action)) :
  forall state,
    validState state = true ->
    Forall (fun step => restoresSnapshot (snd step) = false) steps ->
    exists state' (n : nat),
      (forall fuel, (n <= fuel)%nat -> runActions fuel state steps = Done state') /\
      validState state' = true.
Proof.
  induction steps as [|[host action] rest IH]; intros state Hstate Hsteps.
  - exists state, 0%nat. split; [intros; reflexivity | exact Hstate].
  - apply Forall_cons in Hsteps as [Hstep Hrest]. cbn [snd] in Hstep.
    destruct (gameStateReducer_step host state action Hstate Hstep)
      as (mid & n1 & Hrun1 & Hmid).
    destruct (IH mid Hmid Hrest) as (state' & n2 & Hrun2 & Hvalid').
    exists state', (n1 `max` n2)%nat. split; [|exact Hvalid'].
    intros fuel Hfuel. cbn [runActions].
    rewrite (Hrun1 fuel ltac:(lia)). cbn [mbind Outcome_bind]. apply Hrun2. lia.
Qed.

(** C5. From every state of the data model the reducer returns a state for
    every action: it does not throw, and the hard-drop loop ends. The
    commands on the falling piece return the state they were given when
    the game is paused or over or no piece is falling, and so does an
    action whose tag has no case. *)
Theorem gameStateReducer_total :
  (forall host state action,
     validState state = true ->
     exists state' (n : nat),
       forall fuel, (n <= fuel)%nat ->
         useGameState.gameStateReducer fuel host state action = Done state') /\
  (forall fuel host state action,
     isPieceCommand action = true ->
     isPaused state = true \/ isGameOver state = true \/ currentPiece state = None ->
     useGameState.gameStateReducer fuel host state action = Done state) /\
  (forall fuel host state tag,
     useGameState.gameStateReducer fuel host state (useGameState.OTHER tag) = Done state).
Proof.
  split; [|split].
  - intros host state action Hstate.
    destruct (restoresSnapshot action) eqn:Hload.
    + destruct action; try discriminate Hload.
      eexists. exists 0%nat. intros fuel _. reflexivity.
    + destruct (gameStateReducer_step host state action Hstate Hload) as (state' & n & Hrun & _).
      exists state', n. exact Hrun.
  - intros fuel host state action Hcommand Hguard.
    destruct action; try discriminate Hcommand; cbn [useGameState.gameStateReducer];
      destruct (currentPiece state) as [piece|] eqn:Hpiece; try reflexivity;
      destruct Hguard as [-> | [-> | Hnone]]; try discriminate Hnone;
      rewrite ?orb_true_r; reflexivity.
  - intros fuel host state tag. reflexivity.
Qed.

(** ** Game over *)

Lemma lockIn_keeps_flags (state state' : GameState) (piece : Tetromino) (dropPoints : Z) :
  useGameState.lockIn state piece dropPoints = Done state' ->
  isGameOver state' = isGameOver state /\ nextPiece state' = nextPiece state.
Proof.
  unfold useGameState.lockIn.
  destruct (gameLogic.placePiece (board state) piece) as [placed| |]; cbn [mbind Outcome_bind];
    try discriminate.
  destruct (gameLogic.clearLines placed) as [cleared| |]; cbn [mbind Outcome_bind];
    try discriminate.
  intros [= <-]. split; reflexivity.
Qed.

(** The spawn anchor: the default position [createTetromino] gives. *)
Lemma createTetrominoOf_anchor (elem : option TetrominoType) (piece : Tetromino) :
  tetrominoes.createTetrominoOf elem = Done piece ->
  piece_x piece = 3 /\ piece_y piece = -1.
Proof. destruct elem; intros [= <-]; split; reflexivity. Qed.

(** The outcome of a transition, taken apart: every way the reducer has of
    returning a state. *)
Ltac reducer_cases H :=
  repeat match type of H with
         | Done _ = Done _ => injection H as <-
         | Thrown _ = Done _ => discriminate H
         | Running = Done _ => discriminate H
         | context [mbind _ ?m] =>
             let E := fresh "Hcall" in
             destruct m eqn:E; cbn [mbind Outcome_bind] in H
         | context [match ?x with _ => _ end] =>
             let E := fresh "Hcase" in destruct x eqn:E
         end.

(** A transition other than [LOAD_STATE] that sets [isGameOver] is a
    [SPAWN_PIECE] whose promoted piece does not fit where it stands. *)
Lemma game_over_flip (fuel : nat) (host : Host) (state state' : GameState)
    (action : useGameState.Action) :
  restoresSnapshot action = false ->
  isGameOver state = false ->
  useGameState.gameStateReducer fuel host state action = Done state' ->
  isGameOver state' = true ->
  action = useGameState.SPAWN_PIECE /\
  exists piece,
    nextPiece state = Some piece /\
    gameLogic.canPlacePiece (board state) piece (piece_x piece) (piece_y piece)
      = Done false /\
    board state' = board state.
Proof.
  intros Hnot Hover Hrun Hover'.
  destruct action; try discriminate Hnot; cbn [useGameState.gameStateReducer] in Hrun.
  - (* INITIALIZE *) injection Hrun as <-. discriminate Hover'.
  - (* START_GAME *) reducer_cases Hrun. discriminate Hover'.
  - (* MOVE_PIECE *) reducer_cases Hrun; cbn in Hover'; congruence.
  - (* ROTATE_PIECE *) reducer_cases Hrun; cbn in Hover'; congruence.
  - (* SOFT_DROP *)
    destruct (currentPiece state) as [piece|]; [|congruence].
    destruct (isPaused state || isGameOver state); [congruence|].
    destruct (gameLogic.canPlacePiece (board state) piece (piece_x piece) (piece_y piece + 1))
      as [[|]| |]; cbn [mbind Outcome_bind] in Hrun; try discriminate Hrun.
    + injection Hrun as <-. cbn in Hover'. congruence.
    + apply lockIn_keeps_flags in Hrun as [Hsame _]. congruence.
  - (* HARD_DROP *)
    destruct (currentPiece state) as [piece|]; [|congruence].
    destruct (isPaused state || isGameOver state); [congruence|].
    destruct (gameLogic.getHardDropDistance fuel (board state) piece) as [d| |];
      cbn [mbind Outcome_bind] in Hrun; try discriminate Hrun.
    apply lockIn_keeps_flags in Hrun as [Hsame _]. congruence.
  - (* PLACE_PIECE *)
    destruct (currentPiece state) as [piece|]; [|congruence].
    apply lockIn_keeps_flags in Hrun as [Hsame _]. congruence.
  - (* SPAWN_PIECE *)
    split; [reflexivity|].
    destruct (nextPiece state) as [piece|]; [|congruence].
    rewrite Hover in Hrun.
    destruct (tetrominoes.createTetrominoOf _) as [newNext| |];
      cbn [mbind Outcome_bind] in Hrun; try discriminate Hrun.
    unfold gameLogic.isGameOver in Hrun.
    destruct (gameLogic.canPlacePiece (board state) piece (piece_x piece) (piece_y piece))
      as [[|]| |] eqn:Hfit; cbn [mbind Outcome_bind negb] in Hrun; try discriminate Hrun;
      injection Hrun as <-.
    + cbn in Hover'. congruence.
    + exists piece. auto.
  - (* HOLD_PIECE *) reducer_cases Hrun; cbn in Hover'; congruence.
  - (* PAUSE_GAME *) reducer_cases Hrun; cbn in Hover'; congruence.
  - (* RESUME_GAME *) reducer_cases Hrun; cbn in Hover'; congruence.
  - (* RESET_GAME *) injection Hrun as <-. discriminate Hover'.
  - (* OTHER *) reducer_cases Hrun. congruence.
Qed.

(** The piece waiting in the next slot stands at the spawn anchor (3, -1):
    the transitions other than [LOAD_STATE] keep it so. *)
Lemma nextPiece_at_anchor (fuel : nat) (host : Host) (state state' : GameState)
    (action : useGameState.Action) :
  restoresSnapshot action = false ->
  useGameState.gameStateReducer fuel host state action = Done state' ->
  (forall piece, nextPiece state = Some piece -> piece_x piece = 3 /\ piece_y piece = -1) ->
  forall piece, nextPiece state' = Some piece -> piece_x piece = 3 /\ piece_y piece = -1.
Proof.
  intros Hnot Hrun Hanchor piece Hnext.
  destruct action; try discriminate Hnot; cbn [useGameState.gameStateReducer] in Hrun.
  - injection Hrun as <-. discriminate Hnext.
  - destruct (tetrominoes.createTetrominoOf
                (tetrominoes.createTetrominoBag (random host) !! 0%nat)) as [first| |];
      cbn [mbind Outcome_bind] in Hrun; try discriminate Hrun.
    destruct (tetrominoes.createTetrominoOf
                (tetrominoes.createTetrominoBag (random host) !! 1%nat))
      as [second| |] eqn:Hsecond;
      cbn [mbind Outcome_bind] in Hrun; try discriminate Hrun.
    injection Hrun as <-. cbn in Hnext. injection Hnext as <-.
    exact (createTetrominoOf_anchor _ _ Hsecond).
  - reducer_cases Hrun; apply Hanchor; exact Hnext.
  - reducer_cases Hrun; apply Hanchor; exact Hnext.
  - destruct (currentPiece state) as [falling|]; [|injection Hrun as <-; auto].
    destruct (isPaused state || isGameOver state); [injection Hrun as <-; auto|].
    destruct (gameLogic.canPlacePiece _ _ _ _) as [[|]| |];
      cbn [mbind Outcome_bind] in Hrun; try discriminate Hrun.
    + injection Hrun as <-. apply Hanchor. exact Hnext.
    + apply lockIn_keeps_flags in Hrun as [_ Hsame]. apply Hanchor. congruence.
  - destruct (currentPiece state) as [falling|]; [|injection Hrun as <-; auto].
    destruct (isPaused state || isGameOver state); [injection Hrun as <-; auto|].
    destruct (gameLogic.getHardDropDistance _ _ _) as [d| |];
      cbn [mbind Outcome_bind] in Hrun; try discriminate Hrun.
    apply lockIn_keeps_flags in Hrun as [_ Hsame]. apply Hanchor. congruence.
  - destruct (currentPiece state) as [falling|]; [|injection Hrun as <-; auto].
    apply lockIn_keeps_flags in Hrun as [_ Hsame]. apply Hanchor. congruence.
  - destruct (nextPiece state) as [promoted|] eqn:Hpromoted; [|injection Hrun as <-; congruence].
    destruct (isGameOver state); [injection Hrun as <-; apply Hanchor; congruence|].
    destruct (tetrominoes.createTetrominoOf _) as [newNext| |] eqn:Hnew;
      cbn [mbind Outcome_bind] in Hrun; try discriminate Hrun.
    destruct (gameLogic.isGameOver _ _) as [[|]| |];
      cbn [mbind Outcome_bind] in Hrun; try discriminate Hrun; injection Hrun as <-.
    + cbn in Hnext. apply Hanchor. congruence.
    + cbn in Hnext. injection Hnext as <-. exact (createTetrominoOf_anchor _ _ Hnew).
  - reducer_cases Hrun; apply Hanchor; exact Hnext.
  - reducer_cases Hrun; apply Hanchor; exact Hnext.
  - reducer_cases Hrun; apply Hanchor; exact Hnext.
  - injection Hrun as <-. discriminate Hnext.
  - injection Hrun as <-. apply Hanchor. exact Hnext.
Qed.

(** C4. Leaving [LOAD_STATE] aside (it copies whatever flag the stored
    snapshot holds), a transition sets [isGameOver] only as [SPAWN_PIECE]
    whose promoted piece - the one of the next slot, which stands at the
    spawn anchor (3, -1) - does not fit where it stands, and then the board
    is kept; such a [SPAWN_PIECE] does set it. Once [isGameOver] is set,
    Move, Rotate, SoftDrop and HardDrop return the state they were given. *)
Theorem game_over_only_on_failed_spawn :
  (forall fuel host state state' action,
     restoresSnapshot action = false ->
     isGameOver state = false ->
     useGameState.gameStateReducer fuel host state action = Done state' ->
     isGameOver state' = true ->
     action = useGameState.SPAWN_PIECE /\
     exists piece,
       nextPiece state = Some piece /\
       gameLogic.canPlacePiece (board state) piece (piece_x piece) (piece_y piece)
         = Done false /\
       board state' = board state) /\
  (forall fuel host state piece,
     isGameOver state = false ->
     nextPiece state = Some piece ->
     gameLogic.canPlacePiece (board state) piece (piece_x piece) (piece_y piece)
       = Done false ->
     exists state',
       useGameState.gameStateReducer fuel host state useGameState.SPAWN_PIECE = Done state' /\
       isGameOver state' = true /\
       gameState state' = GAME_OVER /\
       board state' = board state) /\
  (forall fuel host state state' action,
     restoresSnapshot action = false ->
     useGameState.gameStateReducer fuel host state action = Done state' ->
     (forall piece, nextPiece state = Some piece -> piece_x piece = 3 /\ piece_y piece = -1) ->
     forall piece, nextPiece state' = Some piece -> piece_x piece = 3 /\ piece_y piece = -1) /\
  (forall fuel host state action,
     isMoveCommand action = true ->
     isGameOver state = true ->
     useGameState.gameStateReducer fuel host state action = Done state).
Proof.
  split; [|split; [|split]].
  - intros fuel host state state' action. apply game_over_flip.
  - intros fuel host state piece Hover Hnext Hfit.
    cbn [useGameState.gameStateReducer]. rewrite Hnext, Hover.
    assert (exists newNext,
              tetrominoes.createTetrominoOf
                ((if bool_decide (length (tetrominoBag state) <= bagIndex state)%nat
                  then tetrominoes.createTetrominoBag (random host)
                  else tetrominoBag state)
                 !! (if bool_decide (length (tetrominoBag state) <= bagIndex state)%nat
                     then 0%nat else bagIndex state))
              = Done newNext) as (newNext & ->).
    { destruct (bool_decide (length (tetrominoBag state) <= bagIndex state)%nat) eqn:Hrefill.
      - pose proof (createTetrominoBag_length (random host)) as Hlen.
        destruct (createTetrominoOf_lookup (tetrominoes.createTetrominoBag (random host)) 0
                    ltac:(lia)) as (type & _ & ->). eauto.
      - apply bool_decide_eq_false in Hrefill.
        destruct (createTetrominoOf_lookup (tetrominoBag state) (bagIndex state)
                    ltac:(lia)) as (type & _ & ->). eauto. }
    cbn [mbind Outcome_bind]. unfold gameLogic.isGameOver. rewrite Hfit.
    cbn [mbind Outcome_bind negb]. eexists. split; [reflexivity|]. repeat split.
  - intros fuel host state state' action. apply nextPiece_at_anchor.
  - intros fuel host state action Hcommand Hover.
    destruct action; try discriminate Hcommand; cbn [useGameState.gameStateReducer];
      destruct (currentPiece state) as [piece|]; try reflexivity;
      rewrite Hover, orb_true_r; reflexivity.
Qed.

(** * Instances at concrete inputs *)

(** The T piece at its spawn position on the empty board. *)
Lemma canPlacePiece_iff_witness :
  validateBoard gameLogic.createEmptyBoard = true /\
  exists b,
    gameLogic.canPlacePiece gameLogic.createEmptyBoard
      (tetrominoes.createTetromino TT 3 (-1) 0) 3 (-1) = Done b.
Proof.
  split; [reflexivity|].
  exact (proj1 (canPlacePiece_iff gameLogic.createEmptyBoard
                  (tetrominoes.createTetromino TT 3 (-1) 0)
                  [[0;0;0;0]; [0;1;0;0]; [1;1;1;0]; [0;0;0;0]] 3 (-1) eq_refl eq_refl)).
Defined.

(** Clearing the one complete row of [bottomRowFull] gives the empty
    board and the count 1. *)
Lemma clearLines_spec_witness :
  validateBoard bottomRowFull = true /\
  gameLogic.clearLines bottomRowFull = Done (gameLogic.createEmptyBoard, 1).
Proof.
  split; [reflexivity|].
  exact (proj1 (clearLines_spec bottomRowFull eq_refl)).
Defined.

(** The T piece above the empty board falls 17 rows. *)
Lemma getHardDropDistance_spec_witness :
  exists (d : Z) (n : nat),
    (forall fuel, (n <= fuel)%nat ->
       gameLogic.getHardDropDistance fuel gameLogic.createEmptyBoard
         (tetrominoes.createTetromino TT 3 (-1) 0) = Done d) /\
    0 <= d.
Proof.
  destruct (getHardDropDistance_spec gameLogic.createEmptyBoard
              (tetrominoes.createTetromino TT 3 (-1) 0)
              [[0;0;0;0]; [0;1;0;0]; [1;1;1;0]; [0;0;0;0]] eq_refl eq_refl
              (hasSetCell_setCellAt [[0;0;0;0]; [0;1;0;0]; [1;1;1;0]; [0;0;0;0]] eq_refl)
              eq_refl) as (d & n & Hrun & Hd & _).
  exists d, n. split; [exact Hrun | exact Hd].
Defined.

(** The loop ends for the I piece on the empty board. *)
Lemma getHardDropDistance_terminates_witness :
  exists (n : nat) result, result <> Running /\
    forall fuel, (n <= fuel)%nat ->
      gameLogic.getHardDropDistance fuel gameLogic.createEmptyBoard
        (tetrominoes.createTetromino TI 3 (-1) 0) = result.
Proof.
  exact (proj1 (getHardDropDistance_terminates gameLogic.createEmptyBoard
                  (tetrominoes.createTetromino TI 3 (-1) 0)
                  [[0;0;0;0]; [1;1;1;1]; [0;0;0;0]; [0;0;0;0]] eq_refl)
               (hasSetCell_setCellAt [[0;0;0;0]; [1;1;1;1]; [0;0;0;0]; [0;0;0;0]] eq_refl)).
Defined.

(** A hard drop in the stacked game returns. *)
Lemma gameStateReducer_total_witness :
  validState stackedState = true /\
  exists state' (n : nat),
    forall fuel, (n <= fuel)%nat ->
      useGameState.gameStateReducer fuel hostInOrder stackedState useGameState.HARD_DROP
        = Done state'.
Proof.
  assert (validState stackedState = true) as Hvalid by (vm_compute; reflexivity).
  split; [exact Hvalid|].
  exact (proj1 gameStateReducer_total hostInOrder stackedState useGameState.HARD_DROP Hvalid).
Defined.

(** In the stacked game the spawn that follows the last lock-in ends the
    game: the L piece of the next slot does not fit at the anchor. *)
Lemma game_over_only_on_failed_spawn_witness :
  isGameOver stackedState = false /\
  exists state' piece,
    useGameState.gameStateReducer 40 hostInOrder stackedState useGameState.SPAWN_PIECE
      = Done state' /\
    isGameOver state' = true /\
    nextPiece stackedState = Some piece /\
    gameLogic.canPlacePiece (board stackedState) piece (piece_x piece) (piece_y piece)
      = Done false.
Proof.
  assert (isGameOver stackedState = false) as Hbefore by (vm_compute; reflexivity).
  split; [exact Hbefore|].
  assert (exists state',
            useGameState.gameStateReducer 40 hostInOrder stackedState useGameState.SPAWN_PIECE
              = Done state' /\ isGameOver state' = true) as (state' & Hrun & Hafter).
  { vm_compute. eexists. split; reflexivity. }
  destruct (proj1 game_over_only_on_failed_spawn 40%nat hostInOrder stackedState state'
              useGameState.SPAWN_PIECE eq_refl Hbefore Hrun Hafter)
    as (_ & piece & Hnext & Hfit & _).
  exists state', piece. auto.
Defined.


(** * Further properties of the piece catalog and the bag *)

(** X1. Four clockwise rotations bring a piece back: for a piece whose
    shape is the table entry of its rotation, [rotateTetromino] applied
    four times returns the piece itself. *)
Theorem rotateTetromino_four_times (piece : Tetromino) :
  consistentPiece piece ->
  tetrominoes.rotateTetromino
    (tetrominoes.rotateTetromino
       (tetrominoes.rotateTetromino (tetrominoes.rotateTetromino piece))) = piece.
Proof.
  destruct piece as [type x y r shape color]. intros [Hr Hshape]. cbn in Hr, Hshape.
  subst shape.
  assert (r = 0 \/ r = 1 \/ r = 2 \/ r = 3) as [-> | [-> | [-> | ->]]] by lia;
    reflexivity.
Qed.

Lemma rotateTetromino_four_times_witness :
  let piece := tetrominoes.createTetromino TL 3 (-1) 0 in
  tetrominoes.rotateTetromino
    (tetrominoes.rotateTetromino
       (tetrominoes.rotateTetromino (tetrominoes.rotateTetromino piece))) = piece.
Proof.
  intros piece. apply rotateTetromino_four_times.
  split; [change (0 <= 0 < 4); lia | reflexivity].
Defined.

(** X2. The two rotations undo each other: on a piece whose shape is the
    table entry of its rotation, [rotateTetrominoCounterClockwise] after
    [rotateTetromino] returns the piece, and so does [rotateTetromino]
    after [rotateTetrominoCounterClockwise]. *)
Theorem rotations_are_inverse (piece : Tetromino) :
  consistentPiece piece ->
  tetrominoes.rotateTetrominoCounterClockwise (tetrominoes.rotateTetromino piece) = piece /\
  tetrominoes.rotateTetromino (tetrominoes.rotateTetrominoCounterClockwise piece) = piece.
Proof.
  destruct piece as [type x y r shape color]. intros [Hr Hshape]. cbn in Hr, Hshape.
  subst shape.
  assert (r = 0 \/ r = 1 \/ r = 2 \/ r = 3) as [-> | [-> | [-> | ->]]] by lia;
    split; reflexivity.
Qed.

Lemma rotations_are_inverse_witness :
  let piece := tetrominoes.createTetromino TS 3 (-1) 3 in
  tetrominoes.rotateTetrominoCounterClockwise (tetrominoes.rotateTetromino piece) = piece.
Proof.
  intros piece. apply rotations_are_inverse.
  split; [change (0 <= 3 < 4); lia | reflexivity].
Defined.

(** X3. Whatever the random draws, [createTetrominoBag] returns the seven
    kinds, each exactly once: a permutation of [TETROMINO_TYPES] without
    duplicates. *)
Theorem createTetrominoBag_each_kind_once (rnd : nat -> nat) :
  tetrominoes.createTetrominoBag rnd ≡ₚ constants.TETROMINO_TYPES /\
  NoDup (tetrominoes.createTetrominoBag rnd) /\
  length (tetrominoes.createTetrominoBag rnd) = 7%nat /\
  forall kind : TetrominoType, kind ∈ tetrominoes.createTetrominoBag rnd.
Proof.
  split; [apply createTetrominoBag_Permutation|].
  split; [apply createTetrominoBag_NoDup|].
  split; [apply createTetrominoBag_length|].
  intros kind. rewrite createTetrominoBag_Permutation.
  destruct kind; apply (bool_decide_unpack _); vm_compute; exact I.
Qed.

(** The bag depends on the random source only through its six draws. *)
Lemma createTetrominoBag_draws (rnd : nat -> nat) :
  tetrominoes.createTetrominoBag rnd = bagOfDraws (drawsOf rnd).
Proof.
  unfold bagOfDraws, drawsOf, tetrominoes.createTetrominoBag.
  cbn [length constants.TETROMINO_TYPES Nat.sub tetrominoes.shuffleLoop Nat.add
       lookup list_lookup default from_option].
  unfold id. rewrite !Nat.Div0.mod_mod. reflexivity.
Qed.

Lemma draws_in_allDraws (rnd : nat -> nat) : drawsOf rnd ∈ allDraws.
Proof.
  unfold allDraws, drawsOf.
  pose proof (Nat.mod_upper_bound (rnd 0%nat) 7 ltac:(lia)).
  pose proof (Nat.mod_upper_bound (rnd 1%nat) 6 ltac:(lia)).
  pose proof (Nat.mod_upper_bound (rnd 2%nat) 5 ltac:(lia)).
  pose proof (Nat.mod_upper_bound (rnd 3%nat) 4 ltac:(lia)).
  pose proof (Nat.mod_upper_bound (rnd 4%nat) 3 ltac:(lia)).
  pose proof (Nat.mod_upper_bound (rnd 5%nat) 2 ltac:(lia)).
  apply list_elem_of_bind. exists (rnd 0 mod 7)%nat. split; [|apply elem_of_seq; lia].
  apply list_elem_of_bind. exists (rnd 1 mod 6)%nat. split; [|apply elem_of_seq; lia].
  apply list_elem_of_bind. exists (rnd 2 mod 5)%nat. split; [|apply elem_of_seq; lia].
  apply list_elem_of_bind. exists (rnd 3 mod 4)%nat. split; [|apply elem_of_seq; lia].
  apply list_elem_of_bind. exists (rnd 4 mod 3)%nat. split; [|apply elem_of_seq; lia].
  apply list_elem_of_bind. exists (rnd 5 mod 2)%nat. split; [|apply elem_of_seq; lia].
  apply list_elem_of_singleton. reflexivity.
Qed.

Lemma drawsOf_lookup (rnd : nat -> nat) (call : nat) :
  (call < 6)%nat -> drawsOf rnd !! call = Some (rnd call mod (7 - call))%nat.
Proof.
  intros Hcall. destruct call as [|[|[|[|[|[|call]]]]]]; try lia; reflexivity.
Qed.

Lemma drawsFor_bagOfDraws (draws : list nat) :
  draws ∈ allDraws ->
  drawsFor (bagOfDraws draws) 6 constants.TETROMINO_TYPES = draws.
Proof.
  assert (forallb (fun draws =>
            bool_decide (drawsFor (bagOfDraws draws) 6 constants.TETROMINO_TYPES = draws))
            allDraws = true) as Hall by (vm_compute; reflexivity).
  rewrite forallb_forall in Hall. intros Hin.
  apply list_elem_of_In in Hin. apply Hall in Hin. apply bool_decide_eq_true in Hin. exact Hin.
Qed.

Lemma createTetrominoBag_randomFor (target : list TetrominoType) :
  target ≡ₚ constants.TETROMINO_TYPES ->
  tetrominoes.createTetrominoBag (randomFor target) = target.
Proof.
  assert (forallb (fun target =>
            bool_decide (tetrominoes.createTetrominoBag (randomFor target) = target))
            (permutations constants.TETROMINO_TYPES) = true) as Hall
    by (vm_compute; reflexivity).
  rewrite forallb_forall in Hall. intros Hperm.
  symmetry in Hperm. apply permutations_Permutation in Hperm.
  apply list_elem_of_In in Hperm. apply Hall in Hperm.
  apply bool_decide_eq_true in Hperm. exact Hperm.
Qed.

(** X4. The Fisher-Yates loop of [createTetrominoBag] reaches every
    ordering of the seven kinds, and each by one sequence of draws only:
    for every permutation of [TETROMINO_TYPES] there is a random source
    on which the bag is that permutation, and two random sources that
    give the same bag made the same six draws. *)
Theorem createTetrominoBag_bijective :
  (forall target : list TetrominoType,
     target ≡ₚ constants.TETROMINO_TYPES ->
     tetrominoes.createTetrominoBag (randomFor target) = target) /\
  (forall rnd rnd' : nat -> nat,
     tetrominoes.createTetrominoBag rnd = tetrominoes.createTetrominoBag rnd' ->
     forall call, (call < 6)%nat ->
       (rnd call mod (7 - call) = rnd' call mod (7 - call))%nat).
Proof.
  split.
  - exact createTetrominoBag_randomFor.
  - intros rnd rnd' Hsame call Hcall.
    assert (drawsOf rnd = drawsOf rnd') as Hdraws.
    { rewrite <- (drawsFor_bagOfDraws _ (draws_in_allDraws rnd)).
      rewrite <- (drawsFor_bagOfDraws _ (draws_in_allDraws rnd')).
      rewrite <- !createTetrominoBag_draws, Hsame. reflexivity. }
    apply (inj Some).
    rewrite <- (drawsOf_lookup rnd call Hcall), <- (drawsOf_lookup rnd' call Hcall), Hdraws.
    reflexivity.
Qed.

Lemma createTetrominoBag_bijective_witness :
  tetrominoes.createTetrominoBag (randomFor [TL; TJ; TZ; TS; TT; TO; TI])
  = [TL; TJ; TZ; TS; TT; TO; TI].
Proof.
  apply (proj1 createTetrominoBag_bijective).
  apply (bool_decide_unpack _). vm_compute. exact I.
Defined.

(** ** The bounding box *)

Section Bounds.
Import tetrominoes.

(** One row of the scan: the box only grows, it covers the set cells of
    the row, and each side that moved rests on a set cell of the row. *)
Lemma boundsOfRow_spec (y : Z) (cells : list Z) : forall x b,
  let b' := boundsOfRow cells y x b in
  (minX b' <= minX b /\ maxX b <= maxX b' /\ minY b' <= minY b /\ maxY b <= maxY b') /\
  (forall (i : nat) c, cells !! i = Some c -> c <> 0 ->
     minX b' <= x + Z.of_nat i <= maxX b' /\ minY b' <= y <= maxY b') /\
  (minX b' = minX b \/
   exists (i : nat) c, cells !! i = Some c /\ c <> 0 /\ minX b' = x + Z.of_nat i) /\
  (maxX b' = maxX b \/
   exists (i : nat) c, cells !! i = Some c /\ c <> 0 /\ maxX b' = x + Z.of_nat i) /\
  (minY b' = minY b \/
   exists (i : nat) c, cells !! i = Some c /\ c <> 0 /\ minY b' = y) /\
  (maxY b' = maxY b \/
   exists (i : nat) c, cells !! i = Some c /\ c <> 0 /\ maxY b' = y) /\
  (Forall (fun c => c = 0) cells -> b' = b).
Proof.
  induction cells as [|c rest IH]; intros x b.
  - cbn. repeat split; try lia; auto.
    all: rewrite lookup_nil in *; discriminate.
  - cbn [boundsOfRow].
    set (b1 := if decide (c = 0) then b
               else mkBounds (Z.min (minX b) x) (Z.max (maxX b) x)
                             (Z.min (minY b) y) (Z.max (maxY b) y)).
    specialize (IH (x + 1) b1). cbv zeta in IH |- *.
    set (b' := boundsOfRow rest y (x + 1) b1) in *.
    destruct IH as (Hmono & Hcover & HminX & HmaxX & HminY & HmaxY & Hzero).
    assert (forall P : nat -> Prop,
              (exists (i : nat) c', rest !! i = Some c' /\ c' <> 0 /\ P i) ->
              exists (i : nat) c', (c :: rest) !! i = Some c' /\ c' <> 0 /\ P (pred i))
      as Hlift.
    { intros P (i & c' & Hi & Hc' & HP). exists (S i), c'. auto. }
    destruct (decide (c = 0)) as [Hc | Hc]; subst b1.
    + split; [exact Hmono|]. split.
      { intros [|i] c' Hi Hc'; cbn in Hi; [congruence|].
        replace (x + Z.of_nat (S i)) with (x + 1 + Z.of_nat i) by lia. eauto. }
      split; [|split; [|split; [|split]]].
      * destruct HminX as [? | (i & c' & Hi & Hc' & ->)]; [left; assumption|].
        right. exists (S i), c'. repeat split; auto. lia.
      * destruct HmaxX as [? | (i & c' & Hi & Hc' & ->)]; [left; assumption|].
        right. exists (S i), c'. repeat split; auto. lia.
      * destruct HminY as [? | (i & c' & Hi & Hc' & ->)]; [left; assumption|].
        right. exists (S i), c'. repeat split; auto.
      * destruct HmaxY as [? | (i & c' & Hi & Hc' & ->)]; [left; assumption|].
        right. exists (S i), c'. repeat split; auto.
      * intros Hall. apply Forall_cons in Hall as [_ Hall]. auto.
    + cbn [minX maxX minY maxY] in *.
      split; [lia|]. split.
      { intros [|i] c' Hi Hc'; cbn in Hi.
        - replace (x + Z.of_nat 0) with x by lia. lia.
        - replace (x + Z.of_nat (S i)) with (x + 1 + Z.of_nat i) by lia. eauto. }
      split; [|split; [|split; [|split]]].
      * destruct HminX as [Heq | (i & c' & Hi & Hc' & ->)].
        -- destruct (Z.min_spec (minX b) x) as [[_ Hm] | [_ Hm]]; [left; lia|].
           right. exists 0%nat, c. repeat split; auto. lia.
        -- right. exists (S i), c'. repeat split; auto. lia.
      * destruct HmaxX as [Heq | (i & c' & Hi & Hc' & ->)].
        -- destruct (Z.max_spec (maxX b) x) as [[_ Hm] | [_ Hm]]; [|left; lia].
           right. exists 0%nat, c. repeat split; auto. lia.
        -- right. exists (S i), c'. repeat split; auto. lia.
      * destruct HminY as [Heq | (i & c' & Hi & Hc' & ->)].
        -- destruct (Z.min_spec (minY b) y) as [[_ Hm] | [_ Hm]]; [left; lia|].
           right. exists 0%nat, c. repeat split; auto. lia.
        -- right. exists (S i), c'. repeat split; auto.
      * destruct HmaxY as [Heq | (i & c' & Hi & Hc' & ->)].
        -- destruct (Z.max_spec (maxY b) y) as [[_ Hm] | [_ Hm]]; [|left; lia].
           right. exists 0%nat, c. repeat split; auto. lia.
        -- right. exists (S i), c'. repeat split; auto.
      * intros Hall. apply Forall_cons in Hall as [Hall _]. contradiction.
Qed.

Lemma boundsOfRows_spec (rows : Mask) : forall y b,
  let b' := boundsOfRows rows y b in
  (minX b' <= minX b /\ maxX b <= maxX b' /\ minY b' <= minY b /\ maxY b <= maxY b') /\
  (forall (i j : nat) cells c, rows !! i = Some cells -> cells !! j = Some c -> c <> 0 ->
     minX b' <= Z.of_nat j <= maxX b' /\ minY b' <= y + Z.of_nat i <= maxY b') /\
  (minX b' = minX b \/
   exists (i j : nat) cells c, rows !! i = Some cells /\ cells !! j = Some c /\ c <> 0 /\
     minX b' = Z.of_nat j) /\
  (maxX b' = maxX b \/
   exists (i j : nat) cells c, rows !! i = Some cells /\ cells !! j = Some c /\ c <> 0 /\
     maxX b' = Z.of_nat j) /\
  (minY b' = minY b \/
   exists (i j : nat) cells c, rows !! i = Some cells /\ cells !! j = Some c /\ c <> 0 /\
     minY b' = y + Z.of_nat i) /\
  (maxY b' = maxY b \/
   exists (i j : nat) cells c, rows !! i = Some cells /\ cells !! j = Some c /\ c <> 0 /\
     maxY b' = y + Z.of_nat i) /\
  (allZero rows -> b' = b).
Proof.
  induction rows as [|cells rest IH]; intros y b.
  - cbn. repeat split; try lia; auto.
    all: rewrite lookup_nil in *; discriminate.
  - cbn [boundsOfRows].
    pose proof (boundsOfRow_spec y cells 0 b) as Hrow. cbv zeta in Hrow.
    set (b1 := boundsOfRow cells y 0 b) in *.
    specialize (IH (y + 1) b1). cbv zeta in IH |- *.
    set (b' := boundsOfRows rest (y + 1) b1) in *.
    destruct Hrow as (Hmono1 & Hcover1 & HminX1 & HmaxX1 & HminY1 & HmaxY1 & Hzero1).
    destruct IH as (Hmono & Hcover & HminX & HmaxX & HminY & HmaxY & Hzero).
    split; [lia|]. split.
    { intros [|i] j cells' c Hi Hj Hc; cbn in Hi.
      - injection Hi as <-. specialize (Hcover1 j c Hj Hc).
        replace (y + Z.of_nat 0) with y by lia. lia.
      - specialize (Hcover i j cells' c Hi Hj Hc).
        replace (y + Z.of_nat (S i)) with (y + 1 + Z.of_nat i) by lia. lia. }
    split; [|split; [|split; [|split]]].
    + destruct HminX as [Heq | (i & j & cells' & c & Hi & Hj & Hc & Heq)].
      * destruct HminX1 as [Heq1 | (j & c & Hj & Hc & Heq1)]; [left; lia|].
        right. exists 0%nat, j, cells, c. repeat split; auto. lia.
      * right. exists (S i), j, cells', c. repeat split; auto.
    + destruct HmaxX as [Heq | (i & j & cells' & c & Hi & Hj & Hc & Heq)].
      * destruct HmaxX1 as [Heq1 | (j & c & Hj & Hc & Heq1)]; [left; lia|].
        right. exists 0%nat, j, cells, c. repeat split; auto. lia.
      * right. exists (S i), j, cells', c. repeat split; auto.
    + destruct HminY as [Heq | (i & j & cells' & c & Hi & Hj & Hc & Heq)].
      * destruct HminY1 as [Heq1 | (j & c & Hj & Hc & Heq1)]; [left; lia|].
        right. exists 0%nat, j, cells, c. repeat split; auto. lia.
      * right. exists (S i), j, cells', c. repeat split; auto. lia.
    + destruct HmaxY as [Heq | (i & j & cells' & c & Hi & Hj & Hc & Heq)].
      * destruct HmaxY1 as [Heq1 | (j & c & Hj & Hc & Heq1)]; [left; lia|].
        right. exists 0%nat, j, cells, c. repeat split; auto. lia.
      * right. exists (S i), j, cells', c. repeat split; auto. lia.
    + intros Hall. apply Forall_cons in Hall as [Hcells Hrest].
      rewrite (Hzero Hrest). apply Hzero1. exact Hcells.
Qed.
End Bounds.

(** X5. [getTetrominoBounds] returns the smallest box around the set
    cells: every set cell of the shape lies inside it, each of its four
    sides is either still at its initial value (minX = 4, maxX = -1,
    minY = 4, maxY = -1) or passes through a set cell, and for a shape
    without set cells the initial values come back unchanged. *)
Theorem getTetrominoBounds_spec (tetromino : Tetromino) (shape : Mask) :
  piece_shape tetromino = Some shape ->
  exists b,
    tetrominoes.getTetrominoBounds tetromino = Done b /\
    (forall row col : nat, setCellAt shape row col ->
       tetrominoes.minX b <= Z.of_nat col <= tetrominoes.maxX b /\
       tetrominoes.minY b <= Z.of_nat row <= tetrominoes.maxY b) /\
    (tetrominoes.minX b = 4 \/
     exists row col : nat, setCellAt shape row col /\ tetrominoes.minX b = Z.of_nat col) /\
    (tetrominoes.maxX b = -1 \/
     exists row col : nat, setCellAt shape row col /\ tetrominoes.maxX b = Z.of_nat col) /\
    (tetrominoes.minY b = 4 \/
     exists row col : nat, setCellAt shape row col /\ tetrominoes.minY b = Z.of_nat row) /\
    (tetrominoes.maxY b = -1 \/
     exists row col : nat, setCellAt shape row col /\ tetrominoes.maxY b = Z.of_nat row) /\
    (allZero shape -> b = tetrominoes.mkBounds 4 (-1) 4 (-1)).
Proof.
  intros Hshape. unfold tetrominoes.getTetrominoBounds. rewrite Hshape.
  eexists. split; [reflexivity|].
  pose proof (boundsOfRows_spec shape 0 (tetrominoes.mkBounds 4 (-1) 4 (-1))) as Hspec.
  cbv zeta in Hspec. cbn [tetrominoes.minX tetrominoes.maxX tetrominoes.minY tetrominoes.maxY]
    in Hspec.
  destruct Hspec as (_ & Hcover & HminX & HmaxX & HminY & HmaxY & Hzero).
  split.
  { intros row col (cells & c & Hi & Hj & Hc).
    specialize (Hcover row col cells c Hi Hj Hc). lia. }
  split; [|split; [|split; [|split]]].
  - destruct HminX as [? | (i & j & cells & c & Hi & Hj & Hc & Heq)]; [left; assumption|].
    right. exists i, j. split; [exists cells, c; auto | exact Heq].
  - destruct HmaxX as [? | (i & j & cells & c & Hi & Hj & Hc & Heq)]; [left; assumption|].
    right. exists i, j. split; [exists cells, c; auto | exact Heq].
  - destruct HminY as [? | (i & j & cells & c & Hi & Hj & Hc & Heq)]; [left; assumption|].
    right. exists i, j. split; [exists cells, c; auto | lia].
  - destruct HmaxY as [? | (i & j & cells & c & Hi & Hj & Hc & Heq)]; [left; assumption|].
    right. exists i, j. split; [exists cells, c; auto | lia].
  - exact Hzero.
Qed.

(** The box of the T piece at rotation 0: columns 0 to 2, rows 1 to 2. *)
Lemma getTetrominoBounds_spec_witness :
  exists b,
    tetrominoes.getTetrominoBounds (tetrominoes.createTetromino TT 3 (-1) 0) = Done b /\
    forall row col : nat,
      setCellAt [[0;0;0;0]; [0;1;0;0]; [1;1;1;0]; [0;0;0;0]] row col ->
      tetrominoes.minX b <= Z.of_nat col <= tetrominoes.maxX b /\
      tetrominoes.minY b <= Z.of_nat row <= tetrominoes.maxY b.
Proof.
  destruct (getTetrominoBounds_spec (tetrominoes.createTetromino TT 3 (-1) 0)
              [[0;0;0;0]; [0;1;0;0]; [1;1;1;0]; [0;0;0;0]] eq_refl)
    as (b & Hrun & Hcover & _).
  exists b. split; [exact Hrun | exact Hcover].
Defined.

(** ** The cells of a piece *)

Lemma positionsOfRow_elem (tx ty y : Z) (cells : list Z) : forall x x' y',
  (x', y') ∈ tetrominoes.positionsOfRow cells tx ty y x <->
  exists (i : nat) c, cells !! i = Some c /\ c <> 0 /\
    x' = tx + (x + Z.of_nat i) /\ y' = ty + y.
Proof.
  induction cells as [|c rest IH]; intros x x' y'.
  - cbn. split; [intros H; inversion H|].
    intros (i & c & Hi & _). rewrite lookup_nil in Hi. discriminate.
  - cbn [tetrominoes.positionsOfRow].
    assert ((exists (i : nat) c', (c :: rest) !! i = Some c' /\ c' <> 0 /\
               x' = tx + (x + Z.of_nat i) /\ y' = ty + y) <->
            (c <> 0 /\ x' = tx + x /\ y' = ty + y) \/
            (exists (i : nat) c', rest !! i = Some c' /\ c' <> 0 /\
               x' = tx + (x + 1 + Z.of_nat i) /\ y' = ty + y)) as ->.
    { split.
      - intros ([|i] & c' & Hi & Hc' & Hx & Hy); cbn in Hi.
        + injection Hi as ->. left. split; [exact Hc'|]. split; [lia | exact Hy].
        + right. exists i, c'. repeat split; auto. lia.
      - intros [(Hc & Hx & Hy) | (i & c' & Hi & Hc' & Hx & Hy)].
        + exists 0%nat, c. repeat split; auto. lia.
        + exists (S i), c'. repeat split; auto. lia. }
    destruct (decide (c = 0)) as [Hc | Hc].
    + rewrite IH. split; [auto | intros [[? _] | ?]; [contradiction | assumption]].
    + rewrite elem_of_cons, IH. split.
      * intros [[= -> ->] | ?]; [left | right]; auto.
      * intros [(_ & -> & ->) | ?]; [left | right]; auto.
Qed.

Lemma positionsOfRow_NoDup (tx ty y : Z) (cells : list Z) : forall x,
  NoDup (tetrominoes.positionsOfRow cells tx ty y x).
Proof.
  induction cells as [|c rest IH]; intros x; [apply NoDup_nil_2|].
  cbn [tetrominoes.positionsOfRow]. destruct (decide (c = 0)); [apply IH|].
  apply NoDup_cons. split; [|apply IH].
  rewrite positionsOfRow_elem. intros (i & c' & _ & _ & Hx & _). lia.
Qed.

Lemma positionsOfRows_elem (tx ty : Z) (rows : Mask) : forall y x' y',
  (x', y') ∈ tetrominoes.positionsOfRows rows tx ty y <->
  exists (i j : nat) cells c, rows !! i = Some cells /\ cells !! j = Some c /\ c <> 0 /\
    x' = tx + Z.of_nat j /\ y' = ty + (y + Z.of_nat i).
Proof.
  induction rows as [|cells rest IH]; intros y x' y'.
  - cbn. split; [intros H; inversion H|].
    intros (i & j & cells & c & Hi & _). rewrite lookup_nil in Hi. discriminate.
  - cbn [tetrominoes.positionsOfRows]. rewrite elem_of_app, positionsOfRow_elem, IH. split.
    + intros [(j & c & Hj & Hc & Hx & Hy) | (i & j & cells' & c & Hi & Hj & Hc & Hx & Hy)].
      * exists 0%nat, j, cells, c. repeat split; auto; lia.
      * exists (S i), j, cells', c. repeat split; auto; lia.
    + intros ([|i] & j & cells' & c & Hi & Hj & Hc & Hx & Hy); cbn in Hi.
      * injection Hi as <-. left. exists j, c. repeat split; auto; lia.
      * right. exists i, j, cells', c. repeat split; auto; lia.
Qed.

Lemma positionsOfRows_NoDup (tx ty : Z) (rows : Mask) : forall y,
  NoDup (tetrominoes.positionsOfRows rows tx ty y).
Proof.
  induction rows as [|cells rest IH]; intros y; [apply NoDup_nil_2|].
  cbn [tetrominoes.positionsOfRows]. apply NoDup_app.
  split; [apply positionsOfRow_NoDup|]. split; [|apply IH].
  intros [x' y']. rewrite positionsOfRow_elem, positionsOfRows_elem.
  intros (_ & _ & _ & _ & _ & Hy) (i & _ & _ & _ & _ & _ & _ & _ & Hy'). lia.
Qed.

(** X6. [getTetrominoPositions] lists the absolute positions of the set
    cells of the shape and nothing else, each once: [(x, y)] is listed
    exactly when [x - piece.x] and [y - piece.y] are the column and the row
    of a set cell. For a shape of the catalog the list has four
    positions. *)
Theorem getTetrominoPositions_spec (tetromino : Tetromino) (shape : Mask) :
  piece_shape tetromino = Some shape ->
  exists positions,
    tetrominoes.getTetrominoPositions tetromino = Done positions /\
    (forall x y,
       (x, y) ∈ positions <->
       exists row col : nat, setCellAt shape row col /\
         x = piece_x tetromino + Z.of_nat col /\ y = piece_y tetromino + Z.of_nat row) /\
    NoDup positions /\
    ((exists r, js_index (tetrominoes.TETROMINO_SHAPES (piece_type tetromino)) r
                = Some shape) ->
     length positions = 4%nat).
Proof.
  intros Hshape. unfold tetrominoes.getTetrominoPositions. rewrite Hshape.
  eexists. split; [reflexivity|]. split; [|split].
  - intros x y. rewrite positionsOfRows_elem. split.
    + intros (i & j & cells & c & Hi & Hj & Hc & Hx & Hy).
      exists i, j. split; [exists cells, c; auto|]. split; [exact Hx | lia].
    + intros (row & col & (cells & c & Hi & Hj & Hc) & Hx & Hy).
      exists row, col, cells, c. repeat split; auto; lia.
  - apply positionsOfRows_NoDup.
  - intros (r & Hr). unfold js_index in Hr. destruct (r <? 0); [discriminate|].
    destruct (piece_type tetromino); destruct (Z.to_nat r) as [|[|[|[|n]]]];
      cbn in Hr; try (rewrite lookup_nil in Hr); try discriminate;
      injection Hr as <-; reflexivity.
Qed.

(** The S piece at the spawn anchor covers four cells. *)
Lemma getTetrominoPositions_spec_witness :
  exists positions,
    tetrominoes.getTetrominoPositions (tetrominoes.createTetromino TS 3 (-1) 0)
      = Done positions /\
    NoDup positions /\ length positions = 4%nat.
Proof.
  destruct (getTetrominoPositions_spec (tetrominoes.createTetromino TS 3 (-1) 0)
              [[0;0;0;0]; [0;1;1;0]; [1;1;0;0]; [0;0;0;0]] eq_refl)
    as (positions & Hrun & _ & Hnodup & Hfour).
  exists positions. split; [exact Hrun|]. split; [exact Hnodup|].
  apply Hfour. exists 0. reflexivity.
Defined.

(** * Further properties of the board *)

Lemma cellAt_insert (board : Board) (r : Row) (px py x y : Z) (v : Cell) :
  0 <= px < 10 -> 0 <= py < 20 ->
  board !! Z.to_nat py = Some r ->
  length r = 10%nat ->
  cellAt (<[Z.to_nat py := <[Z.to_nat px := v]> r]> board) x y =
  if decide (x = px /\ y = py) then Some v else cellAt board x y.
Proof.
  intros Hpx Hpy Hr Hw. unfold cellAt, js_index.
  pose proof (lookup_lt_Some _ _ _ Hr) as Hlen.
  destruct (y <? 0) eqn:Hy.
  { destruct (decide (x = px /\ y = py)) as [[_ ->]|_]; [lia | reflexivity]. }
  destruct (decide (Z.to_nat py = Z.to_nat y)) as [Hsame | Hother].
  - assert (y = py) as -> by lia.
    rewrite list_lookup_insert_eq by exact Hlen. rewrite Hr. cbn.
    destruct (x <? 0) eqn:Hx.
    { destruct (decide (x = px /\ py = py)) as [[-> _]|_]; [lia | reflexivity]. }
    destruct (decide (Z.to_nat px = Z.to_nat x)) as [Hsamex | Hotherx].
    + assert (x = px) as -> by lia.
      rewrite list_lookup_insert_eq by lia.
      destruct (decide (px = px /\ py = py)) as [_|Hno]; [reflexivity | tauto].
    + rewrite list_lookup_insert_ne by exact Hotherx.
      destruct (decide (x = px /\ py = py)) as [[-> _]|_]; [contradiction | reflexivity].
  - rewrite list_lookup_insert_ne by exact Hother.
    destruct (decide (x = px /\ y = py)) as [[_ ->]|_]; [contradiction | reflexivity].
Qed.

(** The cells of the board after the stamping loop: [v] at the listed
    positions that are inside the board, the old cell elsewhere. *)
Lemma stamp_cellAt (v : Cell) (positions : list (Z * Z)) : forall (board newBoard : Board),
  v <> Undef ->
  boardOk board ->
  gameLogic.stamp board positions v = Done newBoard ->
  forall x y,
    cellAt newBoard x y =
    if decide ((x, y) ∈ positions /\ 0 <= x < 10 /\ 0 <= y < 20) then Some v
    else cellAt board x y.
Proof.
  induction positions as [|[px py] rest IH]; intros board newBoard Hv Hok Hrun x y.
  - cbn in Hrun. injection Hrun as <-.
    destruct (decide _) as [[Hin _]|_]; [inversion Hin | reflexivity].
  - cbn [gameLogic.stamp] in Hrun.
    change constants.BOARD_WIDTH with 10 in Hrun. change constants.BOARD_HEIGHT with 20 in Hrun.
    destruct ((py >=? 0) && (py <? 20) && (px >=? 0) && (px <? 10)) eqn:Hin.
    + rewrite !andb_true_iff in Hin. destruct Hin as [[[Hy0 Hy1] Hx0] Hx1].
      destruct Hok as [Hlen Hrows].
      destruct (lookup_lt_is_Some_2 board (Z.to_nat py) ltac:(lia)) as [r Hr].
      rewrite Hr in Hrun.
      pose proof (Forall_lookup_1 _ _ _ _ Hrows Hr) as [Hw Hcells].
      assert (gameLogic.setCell r (Z.to_nat px) v = <[Z.to_nat px := v]> r) as Hset.
      { unfold gameLogic.setCell. destruct (decide _); [reflexivity | lia]. }
      rewrite Hset in Hrun.
      assert (boardOk (<[Z.to_nat py := <[Z.to_nat px := v]> r]> board)) as Hok1.
      { split; [rewrite length_insert; exact Hlen|].
        apply Forall_insert; [exact Hrows|].
        split; [rewrite length_insert; exact Hw|].
        apply Forall_insert; [exact Hcells | exact Hv]. }
      rewrite (IH _ _ Hv Hok1 Hrun x y).
      rewrite (cellAt_insert board r px py x y v ltac:(lia) ltac:(lia) Hr Hw).
      destruct (decide ((x, y) ∈ rest /\ 0 <= x < 10 /\ 0 <= y < 20)) as [[Hrest Hb]|Hno].
      * rewrite decide_True by (split; [apply elem_of_cons; right; exact Hrest | exact Hb]).
        reflexivity.
      * destruct (decide (x = px /\ y = py)) as [[-> ->]|Hne].
        -- rewrite decide_True by (split; [apply elem_of_cons; left; reflexivity | lia]).
           reflexivity.
        -- rewrite decide_False; [reflexivity|].
           intros [Hhere Hb]. apply elem_of_cons in Hhere as [[= -> ->]|Hrest]; tauto.
    + rewrite (IH _ _ Hv Hok Hrun x y).
      rewrite <- not_true_iff_false, !andb_true_iff, !Z.geb_le, !Z.ltb_lt in Hin.
      destruct (decide ((x, y) ∈ rest /\ 0 <= x < 10 /\ 0 <= y < 20)) as [[Hrest Hb]|Hno].
      * rewrite decide_True by (split; [apply elem_of_cons; right; exact Hrest | exact Hb]).
        reflexivity.
      * rewrite decide_False; [reflexivity|].
        intros [Hhere Hb]. apply elem_of_cons in Hhere as [[= -> ->]|Hrest]; [lia | tauto].
Qed.

(** Whether a position is under a set cell of the piece can be decided
    on the list of positions. *)
Lemma covered_iff (shape : Mask) (tetromino : Tetromino) (x y : Z) :
  (x, y) ∈ tetrominoes.positionsOfRows shape (piece_x tetromino) (piece_y tetromino) 0 <->
  exists row col : nat, setCellAt shape row col /\
    x = piece_x tetromino + Z.of_nat col /\ y = piece_y tetromino + Z.of_nat row.
Proof.
  rewrite positionsOfRows_elem. split.
  - intros (i & j & cells & c & Hi & Hj & Hc & Hx' & Hy').
    exists i, j. split; [exists cells, c; auto|]. split; [exact Hx' | lia].
  - intros (row & col & (cells & c & Hi & Hj & Hc) & Hx' & Hy').
    exists row, col, cells, c. repeat split; auto; lia.
Qed.

Lemma covered_or_not (shape : Mask) (tetromino : Tetromino) (x y : Z) :
  (exists row col : nat, setCellAt shape row col /\
     x = piece_x tetromino + Z.of_nat col /\ y = piece_y tetromino + Z.of_nat row) \/
  ~ (exists row col : nat, setCellAt shape row col /\
       x = piece_x tetromino + Z.of_nat col /\ y = piece_y tetromino + Z.of_nat row).
Proof.
  rewrite <- covered_iff.
  destruct (decide ((x, y) ∈ tetrominoes.positionsOfRows shape (piece_x tetromino)
                      (piece_y tetromino) 0)); auto.
Qed.

(** The board after [placePiece], cell by cell. *)
Lemma placePiece_cellAt (board : Board) (tetromino : Tetromino) (shape : Mask) :
  validateBoard board = true ->
  piece_shape tetromino = Some shape ->
  exists newBoard,
    gameLogic.placePiece board tetromino = Done newBoard /\
    validateBoard newBoard = true /\
    forall x y, 0 <= x < 10 -> 0 <= y < 20 ->
      ((exists row col : nat, setCellAt shape row col /\
          x = piece_x tetromino + Z.of_nat col /\ y = piece_y tetromino + Z.of_nat row) ->
       cellAt newBoard x y = Some (Filled (piece_type tetromino))) /\
      (~ (exists row col : nat, setCellAt shape row col /\
            x = piece_x tetromino + Z.of_nat col /\ y = piece_y tetromino + Z.of_nat row) ->
       cellAt newBoard x y = cellAt board x y).
Proof.
  intros Hvalid Hshape.
  destruct (placePiece_valid board tetromino shape Hvalid Hshape) as (newBoard & Hrun & Hnew).
  exists newBoard. split; [exact Hrun|]. split; [exact Hnew|].
  intros x y Hx Hy.
  unfold gameLogic.placePiece, tetrominoes.getTetrominoPositions in Hrun.
  rewrite Hshape in Hrun. cbn [mbind Outcome_bind] in Hrun.
  assert (Filled (piece_type tetromino) <> Undef) as Hv by discriminate.
  pose proof (stamp_cellAt _ _ _ _ Hv
                ltac:(apply validateBoard_iff; exact Hvalid) Hrun x y) as Hcell.
  pose proof (covered_iff shape tetromino x y) as Hmem.
  split; intros Hcovered.
  - rewrite Hcell. rewrite decide_True; [reflexivity|]. split; [apply Hmem, Hcovered | lia].
  - rewrite Hcell. rewrite decide_False; [reflexivity|]. intros [Hin _]. apply Hcovered, Hmem, Hin.
Qed.

(** X7. [placePiece] writes the kind of the piece into the board cells
    covered by a set cell of its shape and leaves every other cell as it
    was; set cells that fall outside the 20 rows and 10 columns are
    dropped, and the result is again a board of 20 rows of 10 cells. *)
Theorem placePiece_spec (board : Board) (tetromino : Tetromino) (shape : Mask) :
  validateBoard board = true ->
  piece_shape tetromino = Some shape ->
  exists newBoard,
    gameLogic.placePiece board tetromino = Done newBoard /\
    validateBoard newBoard = true /\
    forall x y, 0 <= x < 10 -> 0 <= y < 20 ->
      ((exists row col : nat, setCellAt shape row col /\
          x = piece_x tetromino + Z.of_nat col /\ y = piece_y tetromino + Z.of_nat row) ->
       cellAt newBoard x y = Some (Filled (piece_type tetromino))) /\
      (~ (exists row col : nat, setCellAt shape row col /\
            x = piece_x tetromino + Z.of_nat col /\ y = piece_y tetromino + Z.of_nat row) ->
       cellAt newBoard x y = cellAt board x y).
Proof. exact (placePiece_cellAt board tetromino shape). Qed.

(** The O piece stamped at its spawn anchor on the empty board. *)
Lemma placePiece_spec_witness :
  exists newBoard,
    gameLogic.placePiece gameLogic.createEmptyBoard (tetrominoes.createTetromino TO 3 (-1) 0)
      = Done newBoard /\
    validateBoard newBoard = true.
Proof.
  destruct (placePiece_spec gameLogic.createEmptyBoard
              (tetrominoes.createTetromino TO 3 (-1) 0)
              [[0;0;0;0]; [0;1;1;0]; [0;1;1;0]; [0;0;0;0]] eq_refl eq_refl)
    as (newBoard & Hrun & Hvalid & _).
  exists newBoard. split; [exact Hrun | exact Hvalid].
Defined.

(** X8. A piece that [canPlacePiece] accepts where it stands is stamped
    over empty cells only: after [placePiece], every cell that held a kind
    still holds that kind, and every cell the piece covers inside the
    board was 0 before. *)
Theorem placePiece_overwrites_nothing (board : Board) (tetromino : Tetromino) (shape : Mask) :
  validateBoard board = true ->
  piece_shape tetromino = Some shape ->
  gameLogic.canPlacePiece board tetromino (piece_x tetromino) (piece_y tetromino) = Done true ->
  exists newBoard,
    gameLogic.placePiece board tetromino = Done newBoard /\
    (forall x y kind,
       cellAt board x y = Some (Filled kind) -> cellAt newBoard x y = Some (Filled kind)) /\
    (forall x y, 0 <= x < 10 -> 0 <= y < 20 ->
       cellAt newBoard x y <> cellAt board x y ->
       cellAt board x y = Some Zero /\
       cellAt newBoard x y = Some (Filled (piece_type tetromino))).
Proof.
  intros Hvalid Hshape Hfit.
  destruct (placePiece_cellAt board tetromino shape Hvalid Hshape)
    as (newBoard & Hrun & Hnew & Hcells).
  destruct (canPlacePiece_spec board Hvalid tetromino shape (piece_x tetromino)
              (piece_y tetromino) Hshape) as [[_ Hall] | [Hfalse _]]; [|congruence].
  assert (forall x y, 0 <= x < 10 -> 0 <= y < 20 ->
            (exists row col : nat, setCellAt shape row col /\
               x = piece_x tetromino + Z.of_nat col /\ y = piece_y tetromino + Z.of_nat row) ->
            cellAt board x y = Some Zero) as Hempty.
  { intros x y Hx Hy (row & col & Hset & -> & ->).
    destruct (Hall row col Hset) as (_ & _ & Hzero). apply Hzero. lia. }
  exists newBoard. split; [exact Hrun|]. split.
  - intros x y kind Hold.
    assert (0 <= x < 10 /\ 0 <= y < 20) as [Hx Hy].
    { unfold cellAt, js_index in Hold.
      destruct (y <? 0) eqn:Hy0; [discriminate|].
      destruct (board !! Z.to_nat y) as [r|] eqn:Hr; [|discriminate]. cbn in Hold.
      destruct (x <? 0) eqn:Hx0; [discriminate|].
      apply validateBoard_iff in Hvalid as [Hlen Hrows].
      pose proof (lookup_lt_Some _ _ _ Hr).
      pose proof (Forall_lookup_1 _ _ _ _ Hrows Hr) as [Hw _].
      pose proof (lookup_lt_Some _ _ _ Hold). lia. }
    destruct (Hcells x y Hx Hy) as [_ Hsame].
    rewrite Hsame; [exact Hold|]. intros Hcovered.
    rewrite (Hempty x y Hx Hy Hcovered) in Hold. discriminate.
  - intros x y Hx Hy Hchanged.
    destruct (Hcells x y Hx Hy) as [Hfill Hsame].
    destruct (covered_or_not shape tetromino x y) as [Hcovered | Hnot].
    + split; [apply Hempty; assumption | apply Hfill; assumption].
    + exfalso. apply Hchanged, Hsame, Hnot.
Qed.

Lemma placePiece_overwrites_nothing_witness :
  exists newBoard,
    gameLogic.placePiece gameLogic.createEmptyBoard (tetrominoes.createTetromino TO 3 (-1) 0)
      = Done newBoard /\
    forall x y kind,
      cellAt gameLogic.createEmptyBoard x y = Some (Filled kind) ->
      cellAt newBoard x y = Some (Filled kind).
Proof.
  destruct (placePiece_overwrites_nothing gameLogic.createEmptyBoard
              (tetrominoes.createTetromino TO 3 (-1) 0)
              [[0;0;0;0]; [0;1;1;0]; [0;1;1;0]; [0;0;0;0]] eq_refl eq_refl eq_refl)
    as (newBoard & Hrun & Hkeep & _).
  exists newBoard. split; [exact Hrun | exact Hkeep].
Defined.

Lemma overlay_stamp (v : Cell) (positions : list (Z * Z)) : forall board : Board,
  gameLogic.overlay board positions v = gameLogic.stamp board positions v.
Proof.
  induction positions as [|[x y] rest IH]; intros board; [reflexivity|].
  cbn [gameLogic.overlay gameLogic.stamp]. unfold gameLogic.isWithinBounds.
  assert ((x >=? 0) && (x <? constants.BOARD_WIDTH) && (y >=? 0) && (y <? constants.BOARD_HEIGHT)
          = (y >=? 0) && (y <? constants.BOARD_HEIGHT) && (x >=? 0) && (x <? constants.BOARD_WIDTH))
    as -> by (destruct (x >=? 0), (x <? constants.BOARD_WIDTH), (y >=? 0),
                (y <? constants.BOARD_HEIGHT); reflexivity).
  destruct (_ && _); [|apply IH].
  destruct (board !! Z.to_nat y); [apply IH | reflexivity].
Qed.

(** X9. The board drawn with the falling piece is the board a lock-in
    would make: for a piece, [getBoardWithPiece] returns what [placePiece]
    returns (on every board, including the error when the shape is
    undefined), and without a piece it returns the board it was given. *)
Theorem getBoardWithPiece_placePiece (board : Board) :
  (forall tetromino : Tetromino,
     gameLogic.getBoardWithPiece board (Some tetromino) = gameLogic.placePiece board tetromino) /\
  gameLogic.getBoardWithPiece board None = Done board.
Proof.
  split; [|reflexivity]. intros tetromino.
  unfold gameLogic.getBoardWithPiece, gameLogic.placePiece.
  destruct (tetrominoes.getTetrominoPositions tetromino) as [positions| |];
    cbn [mbind Outcome_bind]; [apply overlay_stamp | reflexivity | reflexivity].
Qed.

(** ** Complete rows *)

Lemma findCompleteLinesFrom_sorted (board : Board) (count : nat) : forall y found,
  gameLogic.findCompleteLinesFrom board count y = Done found ->
  StronglySorted lt found /\ Forall (fun i => (y <= i)%nat) found.
Proof.
  induction count as [|count IH]; intros y found Hrun.
  - injection Hrun as <-. split; constructor.
  - cbn [gameLogic.findCompleteLinesFrom] in Hrun.
    destruct (board !! y) as [r|]; [|discriminate].
    destruct (gameLogic.findCompleteLinesFrom board count (S y)) as [rest| |] eqn:Hrest;
      cbn [mbind Outcome_bind] in Hrun; try discriminate.
    destruct (IH (S y) rest Hrest) as [Hsorted Hfrom].
    injection Hrun as <-. destruct (forallb notZero r).
    + split.
      * constructor; [exact Hsorted|]. eapply Forall_impl; [exact Hfrom|]. cbn. lia.
      * constructor; [lia|]. eapply Forall_impl; [exact Hfrom|]. cbn. lia.
    + split; [exact Hsorted|]. eapply Forall_impl; [exact Hfrom|]. cbn. lia.
Qed.

(** X10. On a board of 20 rows of 10 cells [findCompleteLines] returns
    the indices of the rows without a 0 cell, all of them and no other,
    in ascending order without repetition. *)
Theorem findCompleteLines_spec (board : Board) :
  validateBoard board = true ->
  exists found,
    gameLogic.findCompleteLines board = Done found /\
    (forall i : nat, i ∈ found <-> exists r, board !! i = Some r /\ completeRow r = true) /\
    StronglySorted lt found /\
    length found = length (List.filter completeRow board).
Proof.
  intros Hvalid. apply validateBoard_iff in Hvalid as [Hlen _].
  destruct (findCompleteLinesFrom_spec board 20 0 ltac:(lia)) as (found & Hrun & Hcount & Hmem).
  exists found. split; [exact Hrun|]. split; [|split].
  - intros i. rewrite Hmem. split; [intros [_ H]; exact H|].
    intros (r & Hr & Hc). split; [|exists r; auto].
    pose proof (lookup_lt_Some _ _ _ Hr). lia.
  - exact (proj1 (findCompleteLinesFrom_sorted board 20 0 found Hrun)).
  - rewrite Hcount, drop_0, take_ge by lia. reflexivity.
Qed.

Lemma findCompleteLines_spec_witness :
  exists found,
    gameLogic.findCompleteLines bottomRowFull = Done found /\
    StronglySorted lt found /\ length found = 1%nat.
Proof.
  destruct (findCompleteLines_spec bottomRowFull eq_refl)
    as (found & Hrun & _ & Hsorted & Hcount).
  exists found. split; [exact Hrun|]. split; [exact Hsorted | exact Hcount].
Defined.

Lemma filter_complete_cleared (board : Board) (cleared : nat) :
  List.filter completeRow
    (replicate cleared emptyRow ++ List.filter (fun r => negb (completeRow r)) board) = [].
Proof.
  rewrite List.filter_app.
  assert (List.filter completeRow (replicate cleared emptyRow) = []) as ->.
  { induction cleared as [|cleared IH]; [reflexivity | exact IH]. }
  induction board as [|r board IH]; [reflexivity|].
  cbn. destruct (completeRow r) eqn:Hc; cbn; [exact IH|]. rewrite Hc. exact IH.
Qed.

(** X11. [clearLines] leaves no complete row behind: on a board of 20
    rows of 10 cells, running it again on its own result returns that
    result unchanged with the count 0. *)
Theorem clearLines_idempotent (board : Board) :
  validateBoard board = true ->
  exists newBoard count,
    gameLogic.clearLines board = Done (newBoard, count) /\
    gameLogic.findCompleteLines newBoard = Done [] /\
    gameLogic.clearLines newBoard = Done (newBoard, 0).
Proof.
  intros Hvalid.
  destruct (clearLines_result board Hvalid) as (Hclear & _ & Hnew & _).
  eexists. eexists. split; [exact Hclear|].
  destruct (clearLines_result _ Hnew) as (_ & _ & _ & Hnone).
  pose proof (filter_complete_cleared board (length (List.filter completeRow board))) as Hempty.
  split; [|apply Hnone; rewrite Hempty; reflexivity].
  pose proof Hnew as Hlen. apply validateBoard_iff in Hlen as [Hlen _].
  destruct (findCompleteLinesFrom_spec _ 20 0 ltac:(rewrite Hlen; lia))
    as (found & Hrun & Hcount & _).
  rewrite drop_0, take_ge, Hempty in Hcount by lia.
  destruct found; [exact Hrun | discriminate].
Qed.

Lemma clearLines_idempotent_witness :
  exists newBoard count,
    gameLogic.clearLines bottomRowFull = Done (newBoard, count) /\
    gameLogic.clearLines newBoard = Done (newBoard, 0).
Proof.
  destruct (clearLines_idempotent bottomRowFull eq_refl)
    as (newBoard & count & Hclear & _ & Hagain).
  exists newBoard, count. split; [exact Hclear | exact Hagain].
Defined.

(** ** The shadow piece *)

(** X12. The shadow of a piece that fits where it stands is the piece
    moved straight down to where it rests: same column, kind, rotation and
    shape, not higher than the piece, it fits there, and it is its own
    shadow (its hard-drop distance is 0). *)
Theorem getShadowPiece_rests (board : Board) (tetromino : Tetromino) (shape : Mask) :
  validateBoard board = true ->
  piece_shape tetromino = Some shape ->
  hasSetCell shape = true ->
  gameLogic.canPlacePiece board tetromino (piece_x tetromino) (piece_y tetromino) = Done true ->
  exists (shadow : Tetromino) (n : nat),
    (forall fuel, (n <= fuel)%nat ->
       gameLogic.getShadowPiece fuel board tetromino = Done shadow) /\
    shadow = mkTetromino (piece_type tetromino) (piece_x tetromino) (piece_y shadow)
               (piece_rotation tetromino) (piece_shape tetromino) (piece_color tetromino) /\
    piece_y tetromino <= piece_y shadow /\
    gameLogic.canPlacePiece board shadow (piece_x shadow) (piece_y shadow) = Done true /\
    (forall fuel, (1 <= fuel)%nat ->
       gameLogic.getHardDropDistance fuel board shadow = Done 0 /\
       gameLogic.getShadowPiece fuel board shadow = Done shadow).
Proof.
  intros Hvalid Hshape Hcell Hhere.
  destruct (hasSetCell_setCellAt shape Hcell) as (row & col & Hset).
  set (k := Z.to_nat (20 - Z.of_nat row - (piece_y tetromino + 0 + 1))).
  destruct (hardDropLoop_spec board tetromino shape Hvalid Hshape row col Hset k 0)
    as (d & Hd & Hrun & Hfit & Hstop).
  { lia. }
  { replace (piece_y tetromino + 0) with (piece_y tetromino) by lia. exact Hhere. }
  set (shadow := mkTetromino (piece_type tetromino) (piece_x tetromino)
                   (piece_y tetromino + d) (piece_rotation tetromino)
                   (piece_shape tetromino) (piece_color tetromino)).
  assert (forall x y, gameLogic.canPlacePiece board shadow x y
                      = gameLogic.canPlacePiece board tetromino x y) as Hsame
    by reflexivity.
  exists shadow, (S k). split; [|split; [|split; [|split]]].
  - intros fuel Hfuel. unfold gameLogic.getShadowPiece, gameLogic.getHardDropDistance.
    rewrite (Hrun fuel ltac:(lia)). reflexivity.
  - reflexivity.
  - cbn. lia.
  - rewrite Hsame. cbn [piece_x piece_y shadow]. apply Hfit. lia.
  - intros [|fuel] Hfuel; [lia|].
    assert (gameLogic.getHardDropDistance (S fuel) board shadow = Done 0) as Hzero.
    { unfold gameLogic.getHardDropDistance. cbn [gameLogic.hardDropLoop].
      rewrite Hsame. cbn [piece_x piece_y shadow].
      replace (piece_y tetromino + d + 0 + 1) with (piece_y tetromino + (d + 1)) by lia.
      rewrite Hstop. reflexivity. }
    split; [exact Hzero|].
    unfold gameLogic.getShadowPiece. rewrite Hzero. cbn [mbind Outcome_bind].
    unfold shadow. cbn [piece_type piece_x piece_y piece_rotation piece_shape piece_color].
    replace (piece_y tetromino + d + 0) with (piece_y tetromino + d) by lia. reflexivity.
Qed.

Lemma getShadowPiece_rests_witness :
  exists (shadow : Tetromino) (n : nat),
    (forall fuel, (n <= fuel)%nat ->
       gameLogic.getShadowPiece fuel gameLogic.createEmptyBoard
         (tetrominoes.createTetromino TT 3 (-1) 0) = Done shadow) /\
    gameLogic.canPlacePiece gameLogic.createEmptyBoard shadow (piece_x shadow) (piece_y shadow)
      = Done true.
Proof.
  destruct (getShadowPiece_rests gameLogic.createEmptyBoard
              (tetrominoes.createTetromino TT 3 (-1) 0)
              [[0;0;0;0]; [0;1;0;0]; [1;1;1;0]; [0;0;0;0]] eq_refl eq_refl eq_refl eq_refl)
    as (shadow & n & Hrun & _ & _ & Hfit & _).
  exists shadow, n. split; [exact Hrun | exact Hfit].
Defined.

(** ** How many rows a piece can complete *)

(** A board row is read back cell by cell with [cellAt]. *)
Lemma row_cellAt (board : Board) (i j : nat) (r : Row) :
  board !! i = Some r -> cellAt board (Z.of_nat j) (Z.of_nat i) = r !! j.
Proof.
  intros Hr. unfold cellAt, js_index.
  rewrite !Nat2Z.id.
  destruct (Z.of_nat i <? 0) eqn:Hi; [apply Z.ltb_lt in Hi; lia|]. rewrite Hr. cbn.
  destruct (Z.of_nat j <? 0) eqn:Hj; [apply Z.ltb_lt in Hj; lia|]. reflexivity.
Qed.

(** [placePiece] leaves the rows outside the rows of the mask as they
    were. *)
Lemma placePiece_row_unchanged (board placed : Board) (tetromino : Tetromino)
    (shape : Mask) (i : nat) :
  validateBoard board = true ->
  piece_shape tetromino = Some shape ->
  gameLogic.placePiece board tetromino = Done placed ->
  ~ (piece_y tetromino <= Z.of_nat i < piece_y tetromino + Z.of_nat (length shape)) ->
  placed !! i = board !! i.
Proof.
  intros Hvalid Hshape Hrun Hout.
  destruct (placePiece_cellAt board tetromino shape Hvalid Hshape)
    as (placed' & Hrun' & Hnew & Hcells).
  rewrite Hrun in Hrun'. injection Hrun' as <-.
  apply validateBoard_iff in Hvalid as [Hlen Hrows].
  apply validateBoard_iff in Hnew as [Hlen' Hrows'].
  destruct (decide (i < 20)%nat) as [Hi | Hi];
    [|rewrite !lookup_ge_None_2 by lia; reflexivity].
  destruct (lookup_lt_is_Some_2 board i ltac:(lia)) as [r Hr].
  destruct (lookup_lt_is_Some_2 placed i ltac:(lia)) as [r' Hr'].
  rewrite Hr, Hr'. f_equal.
  pose proof (Forall_lookup_1 _ _ _ _ Hrows Hr) as [Hw _].
  pose proof (Forall_lookup_1 _ _ _ _ Hrows' Hr') as [Hw' _].
  apply list_eq. intros j.
  destruct (decide (j < 10)%nat) as [Hj | Hj];
    [|rewrite !lookup_ge_None_2 by lia; reflexivity].
  rewrite <- (row_cellAt placed i j r' Hr'), <- (row_cellAt board i j r Hr).
  apply (Hcells (Z.of_nat j) (Z.of_nat i) ltac:(lia) ltac:(lia)).
  intros (row & col & (cells & c & Hrow & _) & _ & Hy).
  pose proof (lookup_lt_Some _ _ _ Hrow). lia.
Qed.

Lemma filter_none_sublist (board : Board) (n : nat) :
  List.filter completeRow board = [] ->
  List.filter completeRow (take n board) = [] /\
  List.filter completeRow (drop n board) = [].
Proof.
  revert n. induction board as [|r board IH]; intros n Hnone.
  - rewrite take_nil, drop_nil. split; reflexivity.
  - cbn in Hnone. destruct (completeRow r) eqn:Hc; [discriminate|].
    destruct n as [|n]; cbn; rewrite ?Hc; [split; [reflexivity | exact Hnone]|].
    apply IH. exact Hnone.
Qed.

Lemma filter_length_le {A} (p : A -> bool) (l : list A) :
  (length (List.filter p l) <= length l)%nat.
Proof. induction l as [|a l IH]; cbn; [lia|]. destruct (p a); cbn; lia. Qed.

(** X13. A piece completes at most four rows: on a board of 20 rows of
    10 cells that has no complete row, stamping a piece whose mask has
    at most four rows and clearing the lines removes between 0 and 4
    rows, so [calculateLineScore] is never asked for more than 4. *)
Theorem placePiece_completes_at_most_four (board : Board) (tetromino : Tetromino)
    (shape : Mask) :
  validateBoard board = true ->
  piece_shape tetromino = Some shape ->
  (length shape <= 4)%nat ->
  gameLogic.findCompleteLines board = Done [] ->
  exists placed newBoard linesCleared,
    gameLogic.placePiece board tetromino = Done placed /\
    gameLogic.clearLines placed = Done (newBoard, linesCleared) /\
    0 <= linesCleared <= 4 /\
    gameLogic.findCompleteLines newBoard = Done [].
Proof.
  intros Hvalid Hshape Hrows Hnone.
  assert (List.filter completeRow board = []) as Hfilter.
  { pose proof Hvalid as Hok. apply validateBoard_iff in Hok as [Hlen _].
    destruct (findCompleteLinesFrom_spec board 20 0 ltac:(lia)) as (found & Hrun & Hcount & _).
    unfold gameLogic.findCompleteLines in Hnone.
    change (Z.to_nat constants.BOARD_HEIGHT) with 20%nat in Hnone.
    rewrite Hrun in Hnone. injection Hnone as ->.
    rewrite drop_0, take_ge in Hcount by lia.
    destruct (List.filter completeRow board); [reflexivity | discriminate]. }
  destruct (placePiece_valid board tetromino shape Hvalid Hshape) as (placed & Hplace & Hplaced).
  destruct (clearLines_result placed Hplaced) as (Hclear & _ & Hnew & _).
  exists placed. eexists. eexists. split; [exact Hplace|]. split; [exact Hclear|].
  set (a := Z.to_nat (piece_y tetromino)).
  set (b := Z.to_nat (piece_y tetromino + Z.of_nat (length shape))).
  assert (take a placed = take a board) as Htake.
  { apply list_eq. intros i. destruct (decide (i < a)%nat) as [Hi | Hi].
    - rewrite !lookup_take_lt by exact Hi.
      apply (placePiece_row_unchanged board placed tetromino shape i Hvalid Hshape Hplace). lia.
    - rewrite !lookup_take_ge by lia. reflexivity. }
  assert (drop b placed = drop b board) as Hdrop.
  { apply list_eq. intros i. rewrite !lookup_drop.
    apply (placePiece_row_unchanged board placed tetromino shape (b + i) Hvalid Hshape Hplace).
    lia. }
  assert (placed = take a placed ++ take (b - a) (drop a placed) ++ drop b placed) as Hsplit.
  { rewrite <- (take_drop a placed) at 1. f_equal.
    rewrite <- (take_drop (b - a) (drop a placed)) at 1. f_equal.
    rewrite drop_drop. f_equal. lia. }
  assert (length (List.filter completeRow placed) <= 4)%nat as Hfour.
  { rewrite Hsplit, !List.filter_app, !length_app, Htake, Hdrop.
    destruct (filter_none_sublist board a Hfilter) as [-> _].
    destruct (filter_none_sublist board b Hfilter) as [_ ->]. cbn [length].
    pose proof (filter_length_le completeRow (take (b - a) (drop a placed))) as Hle.
    rewrite length_take in Hle. lia. }
  split; [lia|].
  pose proof Hnew as Hlen. apply validateBoard_iff in Hlen as [Hlen _].
  destruct (findCompleteLinesFrom_spec _ 20 0 ltac:(rewrite Hlen; lia))
    as (found & Hrun & Hcount & _).
  rewrite drop_0, take_ge, filter_complete_cleared in Hcount by lia.
  destruct found; [exact Hrun | discriminate].
Qed.

Lemma placePiece_completes_at_most_four_witness :
  exists placed newBoard linesCleared,
    gameLogic.placePiece gameLogic.createEmptyBoard
      (tetrominoes.createTetromino TI 3 18 0) = Done placed /\
    gameLogic.clearLines placed = Done (newBoard, linesCleared) /\
    0 <= linesCleared <= 4.
Proof.
  destruct (placePiece_completes_at_most_four gameLogic.createEmptyBoard
              (tetrominoes.createTetromino TI 3 18 0)
              [[0;0;0;0]; [1;1;1;1]; [0;0;0;0]; [0;0;0;0]] eq_refl eq_refl
              ltac:(cbn; lia) eq_refl)
    as (placed & newBoard & n & Hplace & Hclear & Hn & _).
  exists placed, newBoard, n. auto.
Defined.


(** * Further properties of scoring and cadence *)

(** X14. Levels advance every ten lines: for a line count that is not
    negative the level is at least 1, [getLinesUntilNextLevel] is between
    1 and 10, the level stays the same for fewer additional lines than
    that and is one higher after exactly that many. *)
Theorem level_progress (totalLines : Z) :
  0 <= totalLines ->
  1 <= scoring.calculateLevel totalLines /\
  1 <= scoring.getLinesUntilNextLevel totalLines <= 10 /\
  (forall k, 0 <= k < scoring.getLinesUntilNextLevel totalLines ->
     scoring.calculateLevel (totalLines + k) = scoring.calculateLevel totalLines) /\
  scoring.calculateLevel (totalLines + scoring.getLinesUntilNextLevel totalLines)
    = scoring.calculateLevel totalLines + 1.
Proof.
  intros Hlines.
  unfold scoring.getLinesUntilNextLevel, scoring.calculateLevel, constants.LINES_PER_LEVEL.
  cbv zeta.
  pose proof (Z.div_mod totalLines 10 ltac:(lia)) as Hdm.
  pose proof (Z.mod_pos_bound totalLines 10 ltac:(lia)) as Hmod.
  pose proof (Z.div_pos totalLines 10 Hlines ltac:(lia)) as Hq.
  split; [lia|]. split; [lia|]. split.
  - intros k Hk. f_equal. symmetry. apply (Z.div_unique _ 10 _ (totalLines `mod` 10 + k)); lia.
  - f_equal. symmetry. apply (Z.div_unique _ 10 _ 0); lia.
Qed.

Lemma level_progress_witness :
  scoring.getLinesUntilNextLevel 25 = 5 /\
  scoring.calculateLevel (25 + scoring.getLinesUntilNextLevel 25) = scoring.calculateLevel 25 + 1.
Proof.
  destruct (level_progress 25 ltac:(lia)) as (_ & _ & _ & Hnext).
  split; [reflexivity | exact Hnext].
Defined.

(** X15. The three drop-interval functions never go below 50 ms and never
    grow with the level; each stays at 50 from some level on (level 11 for
    utils/gameLogic.js, level 10 for hooks/useGame.js, level 20 for
    utils/scoring.js); and the interval the game loop uses at a level is
    the one utils/gameLogic.js gives for the next level. *)
Theorem calculateDropSpeed_monotone :
  (forall level level', level <= level' ->
     50 <= gameLogic.calculateDropSpeed level' <= gameLogic.calculateDropSpeed level /\
     50 <= useGame.calculateDropSpeed level' <= useGame.calculateDropSpeed level /\
     50 <= scoring.calculateDropSpeed level' <= scoring.calculateDropSpeed level) /\
  (forall level,
     (11 <= level -> gameLogic.calculateDropSpeed level = 50) /\
     (10 <= level -> useGame.calculateDropSpeed level = 50) /\
     (20 <= level -> scoring.calculateDropSpeed level = 50)) /\
  (forall level,
     useGame.calculateDropSpeed level = gameLogic.calculateDropSpeed (level + 1)).
Proof.
  unfold gameLogic.calculateDropSpeed, useGame.calculateDropSpeed, scoring.calculateDropSpeed,
    constants.INITIAL_DROP_SPEED, constants.SPEED_INCREASE_PER_LEVEL, constants.MIN_DROP_SPEED.
  cbv zeta. repeat split; intros; lia.
Qed.

Lemma calculateDropSpeed_monotone_witness :
  50 <= gameLogic.calculateDropSpeed 7 <= gameLogic.calculateDropSpeed 3.
Proof.
  exact (proj1 (proj1 calculateDropSpeed_monotone 3 7 ltac:(lia))).
Defined.

(** ** The counters of the game *)

Lemma hardDropLoop_from (board : Board) (tetromino : Tetromino) (fuel : nat) :
  forall distance d,
    gameLogic.hardDropLoop fuel board tetromino distance = Done d -> distance <= d.
Proof.
  induction fuel as [|fuel IH]; intros distance d Hrun; [discriminate|].
  cbn [gameLogic.hardDropLoop] in Hrun.
  destruct (gameLogic.canPlacePiece _ _ _ _) as [[|]| |];
    cbn [mbind Outcome_bind] in Hrun; try discriminate.
  - apply IH in Hrun. lia.
  - injection Hrun as <-. lia.
Qed.

Lemma clearLines_count (board newBoard : Board) (linesCleared : Z) :
  gameLogic.clearLines board = Done (newBoard, linesCleared) -> 0 <= linesCleared.
Proof.
  unfold gameLogic.clearLines.
  destruct (gameLogic.findCompleteLines board) as [found| |];
    cbn [mbind Outcome_bind]; try discriminate.
  destruct (decide (length found = 0%nat)); [intros [= _ <-]; lia|].
  destruct (gameLogic.keepRowsFrom _ _ _ _) as [kept| |];
    cbn [mbind Outcome_bind]; try discriminate.
  intros [= _ <-]. lia.
Qed.

Lemma calculateLineScore_nonneg (linesCleared level : Z) :
  0 <= linesCleared -> 0 <= level -> 0 <= scoring.calculateLineScore linesCleared level.
Proof.
  intros Hn Hl. unfold scoring.calculateLineScore, constants.POINTS_SINGLE_LINE,
    constants.POINTS_DOUBLE_LINE, constants.POINTS_TRIPLE_LINE, constants.POINTS_TETRIS.
  repeat destruct (decide _); nia.
Qed.

Lemma calculateLevel_monotone (a b : Z) :
  a <= b -> scoring.calculateLevel a <= scoring.calculateLevel b.
Proof.
  intros Hab. unfold scoring.calculateLevel, constants.LINES_PER_LEVEL.
  pose proof (Z.div_le_mono a b 10 ltac:(lia) Hab). lia.
Qed.

Lemma lockIn_counters (state state' : GameState) (piece : Tetromino) (dropPoints : Z) :
  useGameState.lockIn state piece dropPoints = Done state' ->
  0 <= dropPoints ->
  scoreboardOk state ->
  scoreboardOk state' /\
  score state <= score state' /\ lines state <= lines state' /\ level state <= level state'.
Proof.
  unfold useGameState.lockIn. intros Hrun Hpoints (Hscore & Hlines & Hlevel).
  destruct (gameLogic.placePiece (board state) piece) as [placed| |];
    cbn [mbind Outcome_bind] in Hrun; try discriminate.
  destruct (gameLogic.clearLines placed) as [[cleared n]| |] eqn:Hclear;
    cbn [mbind Outcome_bind fst snd] in Hrun; try discriminate.
  injection Hrun as <-. cbn.
  pose proof (clearLines_count _ _ _ Hclear) as Hn.
  assert (1 <= level state) as Hlevel1.
  { rewrite Hlevel. unfold scoring.calculateLevel, constants.LINES_PER_LEVEL.
    pose proof (Z.div_pos (lines state) 10 Hlines ltac:(lia)). lia. }
  pose proof (calculateLineScore_nonneg n (level state) Hn ltac:(lia)) as Hline.
  pose proof (calculateLevel_monotone (lines state) (lines state + n) ltac:(lia)) as Hmono.
  rewrite <- Hlevel in Hmono.
  unfold scoreboardOk. cbn. repeat split; lia.
Qed.

Lemma gameStateReducer_counters (fuel : nat) (host : Host) (state state' : GameState)
    (action : useGameState.Action) :
  scoreboardOk state ->
  restoresSnapshot action = false ->
  useGameState.gameStateReducer fuel host state action = Done state' ->
  scoreboardOk state' /\
  (resetsCounters action = false ->
   score state <= score state' /\ lines state <= lines state' /\ level state <= level state').
Proof.
  intros Hok Hnot Hrun.
  assert (scoreboardOk state /\
          (score state <= score state /\ lines state <= lines state /\
           level state <= level state)) as Hsame by (split; [exact Hok | lia]).
  destruct action; try discriminate Hnot; cbn [useGameState.gameStateReducer] in Hrun.
  - (* INITIALIZE *)
    injection Hrun as <-. split; [|discriminate]. repeat split; cbn; lia.
  - (* START_GAME *)
    reducer_cases Hrun. split; [exact Hok | intros _; cbn; lia].
  - (* MOVE_PIECE *)
    reducer_cases Hrun; (split; [exact Hok | intros _; cbn; lia]).
  - (* ROTATE_PIECE *)
    reducer_cases Hrun; (split; [exact Hok | intros _; cbn; lia]).
  - (* SOFT_DROP *)
    destruct (currentPiece state) as [piece|]; [|injection Hrun as <-; tauto].
    destruct (isPaused state || isGameOver state); [injection Hrun as <-; tauto|].
    destruct (gameLogic.canPlacePiece _ _ _ _) as [[|]| |];
      cbn [mbind Outcome_bind] in Hrun; try discriminate.
    + injection Hrun as <-. destruct Hok as (Hscore & Hlines & Hlevel).
      unfold scoreboardOk. cbn. unfold scoring.calculateSoftDropScore,
        constants.POINTS_SOFT_DROP. repeat split; lia.
    + destruct (lockIn_counters _ _ _ _ Hrun ltac:(lia) Hok) as [Hok' Hup]. tauto.
  - (* HARD_DROP *)
    destruct (currentPiece state) as [piece|]; [|injection Hrun as <-; tauto].
    destruct (isPaused state || isGameOver state); [injection Hrun as <-; tauto|].
    destruct (gameLogic.getHardDropDistance fuel (board state) piece) as [d| |] eqn:Hdrop;
      cbn [mbind Outcome_bind] in Hrun; try discriminate.
    apply hardDropLoop_from in Hdrop.
    destruct (lockIn_counters _ _ _ _ Hrun
                ltac:(unfold scoring.calculateHardDropScore, constants.POINTS_HARD_DROP; lia)
                Hok) as [Hok' Hup]. tauto.
  - (* PLACE_PIECE *)
    destruct (currentPiece state) as [piece|]; [|injection Hrun as <-; tauto].
    destruct (lockIn_counters _ _ _ _ Hrun ltac:(lia) Hok) as [Hok' Hup]. tauto.
  - (* SPAWN_PIECE *)
    reducer_cases Hrun; (split; [exact Hok | intros _; cbn; lia]).
  - (* HOLD_PIECE *)
    reducer_cases Hrun; (split; [exact Hok | intros _; cbn; lia]).
  - (* PAUSE_GAME *)
    reducer_cases Hrun; (split; [exact Hok | intros _; cbn; lia]).
  - (* RESUME_GAME *)
    reducer_cases Hrun; (split; [exact Hok | intros _; cbn; lia]).
  - (* RESET_GAME *)
    injection Hrun as <-. split; [|discriminate]. repeat split; cbn; lia.
  - (* OTHER *)
    injection Hrun as <-. tauto.
Qed.

(** X16. The counters stay in step. Every transition other than
    [LOAD_STATE] keeps the score and the line count from going negative
    and keeps the level equal to [calculateLevel] of the lines; and apart
    from the actions that start afresh ([INITIALIZE], [RESET_GAME]) no
    transition lowers the score, the lines or the level. *)
Theorem counters_stay_in_step (fuel : nat) (host : Host) (state state' : GameState)
    (action : useGameState.Action) :
  scoreboardOk state ->
  restoresSnapshot action = false ->
  useGameState.gameStateReducer fuel host state action = Done state' ->
  scoreboardOk state' /\
  (resetsCounters action = false ->
   score state <= score state' /\ lines state <= lines state' /\ level state <= level state').
Proof. apply gameStateReducer_counters. Qed.

(** [START_GAME] from the initial state keeps the counters in step. *)
Lemma counters_stay_in_step_witness :
  exists state',
    useGameState.gameStateReducer 40 hostInOrder
      (gameLogic.createInitialGameState hostInOrder (Some "Player")) useGameState.START_GAME
      = Done state' /\
    scoreboardOk state'.
Proof.
  assert (exists state',
            useGameState.gameStateReducer 40 hostInOrder
              (gameLogic.createInitialGameState hostInOrder (Some "Player"))
              useGameState.START_GAME = Done state') as [state' Hrun]
    by (eexists; reflexivity).
  exists state'. split; [exact Hrun|].
  refine (proj1 (counters_stay_in_step 40 hostInOrder _ state' useGameState.START_GAME
                   _ eq_refl Hrun)).
  repeat split; cbn; lia.
Defined.


(** ** Hard drop and soft drop *)

Lemma runActions_app (fuel : nat) (steps1 steps2 : list (Host * useGameState.Action)) :
  forall state,
    runActions fuel state (steps1 ++ steps2) =
    state' ← runActions fuel state steps1; runActions fuel state' steps2.
Proof.
  induction steps1 as [|[host action] rest IH]; intros state; [reflexivity|].
  cbn [app runActions].
  destruct (useGameState.gameStateReducer fuel host state action) as [mid| |];
    cbn [mbind Outcome_bind]; [apply IH | reflexivity | reflexivity].
Qed.

(** What the loop of [getHardDropDistance] saw: a fit at every offset up
    to the distance it returns, none one row further. *)
Lemma hardDropLoop_tests (board : Board) (tetromino : Tetromino) (fuel : nat) :
  forall distance d,
    gameLogic.hardDropLoop fuel board tetromino distance = Done d ->
    (forall j, distance <= j < d ->
       gameLogic.canPlacePiece board tetromino (piece_x tetromino)
         (piece_y tetromino + j + 1) = Done true) /\
    gameLogic.canPlacePiece board tetromino (piece_x tetromino)
      (piece_y tetromino + d + 1) = Done false.
Proof.
  induction fuel as [|fuel IH]; intros distance d Hrun; [discriminate|].
  cbn [gameLogic.hardDropLoop] in Hrun.
  destruct (gameLogic.canPlacePiece board tetromino (piece_x tetromino)
              (piece_y tetromino + distance + 1)) as [[|]| |] eqn:Htest;
    cbn [mbind Outcome_bind] in Hrun; try discriminate.
  - destruct (IH _ _ Hrun) as [Hfit Hstop]. split; [|exact Hstop].
    intros j Hj. destruct (decide (j = distance)) as [-> | Hne]; [exact Htest|].
    apply Hfit. lia.
  - injection Hrun as <-. split; [intros j Hj; lia | exact Htest].
Qed.

Lemma softDropped_succ (host : Host) (k : Z) (state : GameState) (piece : Tetromino) :
  0 <= k ->
  currentPiece state = Some piece ->
  useGameState.set_currentPiece
    (Some (useGameState.set_xy (piece_x piece) (piece_y piece + k + 1) piece))
    (useGameState.set_score (score (softDropped host k state piece) + 1)
       (useGameState.set_lastDropTime (now host 0) (softDropped host k state piece)))
  = softDropped host (k + 1) state piece.
Proof.
  intros Hk Hpiece. unfold softDropped.
  destruct (decide (k + 1 = 0)); [lia|].
  destruct (decide (k = 0)) as [-> | Hpos]; destruct state;
    cbv [useGameState.set_currentPiece useGameState.set_score
         useGameState.set_lastDropTime useGameState.set_xy
         board currentPiece nextPiece holdPiece canHold score lines level isGameOver
         isPaused gameState playerName gameStartTime lastDropTime tetrominoBag bagIndex
         shouldSpawnNext gameEndTime];
    f_equal; try lia; f_equal; f_equal; lia.
Qed.

Lemma softDropped_piece (host : Host) (k : Z) (state : GameState) (piece : Tetromino) :
  currentPiece state = Some piece ->
  exists moved,
    currentPiece (softDropped host k state piece) = Some moved /\
    piece_shape moved = piece_shape piece /\
    piece_type moved = piece_type piece /\
    piece_x moved = piece_x piece /\
    piece_y moved = piece_y piece + k /\
    useGameState.set_xy (piece_x piece) (piece_y piece + k) piece = moved.
Proof.
  intros Hpiece. unfold softDropped. destruct (decide (k = 0)) as [-> | Hpos].
  - exists piece. rewrite Hpiece. repeat split; try lia.
    destruct piece; unfold useGameState.set_xy; cbn; f_equal; lia.
  - eexists. split; [reflexivity|]. repeat split.
Qed.

(** [k] soft drops in a row, each of which finds room one row lower. *)
Lemma softDrops_move (fuel : nat) (host : Host) (state : GameState) (piece : Tetromino) :
  currentPiece state = Some piece ->
  isPaused state = false ->
  isGameOver state = false ->
  forall k : nat,
    (forall j, 0 <= j < Z.of_nat k ->
       gameLogic.canPlacePiece (board state) piece (piece_x piece) (piece_y piece + j + 1)
         = Done true) ->
    runActions fuel state (replicate k (host, useGameState.SOFT_DROP))
      = Done (softDropped host (Z.of_nat k) state piece).
Proof.
  intros Hpiece Hpaused Hover. induction k as [|k IH]; intros Hfit.
  - reflexivity.
  - rewrite replicate_S_end, runActions_app, IH by (intros j Hj; apply Hfit; lia).
    cbn [mbind Outcome_bind runActions useGameState.gameStateReducer].
    destruct (softDropped_piece host (Z.of_nat k) state piece Hpiece)
      as (moved & Hmoved & Hshape & Htype & Hx & Hy & Hset).
    rewrite Hmoved.
    assert (isPaused (softDropped host (Z.of_nat k) state piece) = false /\
            isGameOver (softDropped host (Z.of_nat k) state piece) = false /\
            board (softDropped host (Z.of_nat k) state piece) = board state)
      as (-> & -> & ->).
    { unfold softDropped. destruct (decide _); cbn; auto. }
    cbn [orb].
    assert (gameLogic.canPlacePiece (board state) moved (piece_x moved) (piece_y moved + 1)
            = Done true) as ->.
    { unfold gameLogic.canPlacePiece. rewrite Hshape, Hx, Hy.
      specialize (Hfit (Z.of_nat k) ltac:(lia)). unfold gameLogic.canPlacePiece in Hfit.
      exact Hfit. }
    cbn [mbind Outcome_bind]. f_equal.
    unfold scoring.calculateSoftDropScore, constants.POINTS_SOFT_DROP.
    replace (useGameState.set_xy (piece_x moved) (piece_y moved + 1) moved)
      with (useGameState.set_xy (piece_x piece) (piece_y piece + Z.of_nat k + 1) piece).
    + replace (Z.of_nat (S k)) with (Z.of_nat k + 1) by lia.
      replace (score (softDropped host (Z.of_nat k) state piece) + 1 * 1)
        with (score (softDropped host (Z.of_nat k) state piece) + 1) by lia.
      apply softDropped_succ; [lia | exact Hpiece].
    + rewrite <- Hset. unfold useGameState.set_xy. cbn. f_equal.
Qed.

Ltac unfold_setters :=
  cbv [useGameState.set_board useGameState.set_currentPiece useGameState.set_nextPiece
       useGameState.set_holdPiece useGameState.set_canHold useGameState.set_score
       useGameState.set_lines useGameState.set_level useGameState.set_isGameOver
       useGameState.set_isPaused useGameState.set_gameState useGameState.set_playerName
       useGameState.set_gameStartTime useGameState.set_lastDropTime
       useGameState.set_tetrominoBag useGameState.set_bagIndex
       useGameState.set_shouldSpawnNext useGameState.set_gameEndTime
       board currentPiece nextPiece holdPiece canHold score lines level isGameOver
       isPaused gameState playerName gameStartTime lastDropTime tetrominoBag bagIndex
       shouldSpawnNext gameEndTime].

(** X17. A hard drop is the soft drop repeated until the piece locks.
    When [HARD_DROP] returns a state, its distance [d] is not negative and
    [d + 1] [SOFT_DROP]s in a row from the same state also return a state:
    the two differ only in the score, which is [d] higher after the hard
    drop (2 points a row instead of 1), and in the drop timer, which the
    hard drop leaves alone. *)
Theorem hard_drop_is_repeated_soft_drop (fuel : nat) (host : Host) (state dropped : GameState)
    (piece : Tetromino) :
  currentPiece state = Some piece ->
  isPaused state = false ->
  isGameOver state = false ->
  useGameState.gameStateReducer fuel host state useGameState.HARD_DROP = Done dropped ->
  exists (d : Z) (soft : GameState),
    0 <= d /\
    gameLogic.getHardDropDistance fuel (board state) piece = Done d /\
    runActions fuel state (replicate (S (Z.to_nat d)) (host, useGameState.SOFT_DROP))
      = Done soft /\
    dropped = useGameState.set_score (score soft + d)
                (useGameState.set_lastDropTime (lastDropTime state) soft).
Proof.
  intros Hpiece Hpaused Hover Hrun.
  cbn [useGameState.gameStateReducer] in Hrun.
  rewrite Hpiece, Hpaused, Hover in Hrun. cbn [orb] in Hrun.
  destruct (gameLogic.getHardDropDistance fuel (board state) piece) as [d| |] eqn:Hdrop;
    cbn [mbind Outcome_bind] in Hrun; try discriminate.
  pose proof (hardDropLoop_from _ _ _ _ _ Hdrop) as Hd.
  destruct (hardDropLoop_tests _ _ _ _ _ Hdrop) as [Hfit Hstop].
  exists d.
  rewrite replicate_S_end, runActions_app.
  rewrite (softDrops_move fuel host state piece Hpiece Hpaused Hover (Z.to_nat d))
    by (intros j Hj; apply Hfit; lia).
  rewrite Z2Nat.id by lia.
  cbn [mbind Outcome_bind runActions useGameState.gameStateReducer].
  destruct (softDropped_piece host d state piece Hpiece)
    as (moved & Hmoved & Hshape & Htype & Hx & Hy & Hset).
  rewrite Hmoved.
  assert (isPaused (softDropped host d state piece) = false /\
          isGameOver (softDropped host d state piece) = false /\
          board (softDropped host d state piece) = board state /\
          level (softDropped host d state piece) = level state /\
          lines (softDropped host d state piece) = lines state /\
          score (softDropped host d state piece) = score state + d)
    as (Hp & Ho & Hb & Hl & Hn & Hs).
  { unfold softDropped. destruct (decide (d = 0)) as [-> | Hpos].
    - repeat split; auto. lia.
    - unfold_setters. repeat split; auto. }
  rewrite Hp, Ho, Hb. cbn [orb].
  assert (gameLogic.canPlacePiece (board state) moved (piece_x moved) (piece_y moved + 1)
          = Done false) as ->.
  { unfold gameLogic.canPlacePiece. rewrite Hshape, Hx, Hy.
    unfold gameLogic.canPlacePiece in Hstop. exact Hstop. }
  cbn [mbind Outcome_bind].
  unfold useGameState.lockIn in Hrun |- *. rewrite Hb, Hl, Hn, Hs, <- Hset.
  destruct (gameLogic.placePiece (board state)
              (useGameState.set_xy (piece_x piece) (piece_y piece + d) piece))
    as [placed| |]; cbn [mbind Outcome_bind] in Hrun |- *; try discriminate.
  destruct (gameLogic.clearLines placed) as [[cleared n]| |];
    cbn [mbind Outcome_bind fst snd] in Hrun |- *; try discriminate.
  injection Hrun as <-.
  eexists. split; [exact Hd|]. split; [reflexivity|]. split; [reflexivity|].
  unfold softDropped, scoring.calculateHardDropScore, constants.POINTS_HARD_DROP.
  destruct (decide (d = 0)) as [-> | Hpos]; destruct state; unfold_setters;
    f_equal; lia.
Qed.

(** The I piece hard-dropped at the start of a game. *)
Lemma hard_drop_is_repeated_soft_drop_witness :
  exists piece dropped (d : Z) (soft : GameState),
    currentPiece startedState = Some piece /\
    useGameState.gameStateReducer 40 hostInOrder startedState useGameState.HARD_DROP
      = Done dropped /\
    runActions 40 startedState (replicate (S (Z.to_nat d)) (hostInOrder, useGameState.SOFT_DROP))
      = Done soft /\
    dropped = useGameState.set_score (score soft + d)
                (useGameState.set_lastDropTime (lastDropTime startedState) soft).
Proof.
  assert (exists piece, currentPiece startedState = Some piece) as [piece Hpiece]
    by (vm_compute; eexists; reflexivity).
  assert (exists dropped,
            useGameState.gameStateReducer 40 hostInOrder startedState useGameState.HARD_DROP
            = Done dropped) as [dropped Hdrop]
    by (vm_compute; eexists; reflexivity).
  assert (isPaused startedState = false) as Hpaused by (vm_compute; reflexivity).
  assert (isGameOver startedState = false) as Hover by (vm_compute; reflexivity).
  destruct (hard_drop_is_repeated_soft_drop 40 hostInOrder startedState dropped piece
              Hpiece Hpaused Hover Hdrop) as (d & soft & _ & _ & Hsoft & Hsame).
  exists piece, dropped, d, soft. auto.
Defined.


(** ** The leaderboard *)

Lemma rankedBefore_total (a b : scoring.LeaderboardEntry) :
  ~ rankedBefore a b -> rankedBefore b a.
Proof.
  unfold rankedBefore, scoring.compareEntries.
  repeat destruct (decide _); lia.
Qed.

Lemma rankedBefore_trans (a b c : scoring.LeaderboardEntry) :
  rankedBefore a b -> rankedBefore b c -> rankedBefore a c.
Proof.
  unfold rankedBefore, scoring.compareEntries.
  repeat destruct (decide _); lia.
Qed.

Lemma sortInsert_Permutation {A} (compareFn : A -> A -> Z) (a : A) (sorted : list A) :
  scoring.sortInsert compareFn a sorted ≡ₚ a :: sorted.
Proof.
  induction sorted as [|b rest IH]; cbn [scoring.sortInsert]; [reflexivity|].
  destruct (compareFn a b <=? 0); [reflexivity|].
  rewrite IH. apply Permutation_swap.
Qed.

Lemma sort_Permutation {A} (compareFn : A -> A -> Z) (arr : list A) :
  scoring.sort compareFn arr ≡ₚ arr.
Proof.
  induction arr as [|a rest IH]; cbn [scoring.sort]; [reflexivity|].
  rewrite sortInsert_Permutation, IH. reflexivity.
Qed.

Lemma sortInsert_sorted (a : scoring.LeaderboardEntry) (sorted : list scoring.LeaderboardEntry) :
  StronglySorted rankedBefore sorted ->
  StronglySorted rankedBefore (scoring.sortInsert scoring.compareEntries a sorted).
Proof.
  induction sorted as [|b rest IH]; intros Hsorted; cbn [scoring.sortInsert].
  - repeat constructor.
  - apply StronglySorted_cons in Hsorted as [Hb Hrest].
    destruct (scoring.compareEntries a b <=? 0) eqn:Hab.
    + apply Z.leb_le in Hab.
      apply StronglySorted_cons. split; [|apply StronglySorted_cons; auto].
      constructor; [exact Hab|].
      eapply Forall_impl; [exact Hb|].
      intros c Hbc. exact (rankedBefore_trans a b c Hab Hbc).
    + apply Z.leb_gt in Hab.
      apply StronglySorted_cons. split; [|auto].
      rewrite sortInsert_Permutation. constructor; [|exact Hb].
      apply rankedBefore_total. unfold rankedBefore. lia.
Qed.

Lemma sort_sorted (arr : list scoring.LeaderboardEntry) :
  StronglySorted rankedBefore (scoring.sort scoring.compareEntries arr).
Proof.
  induction arr as [|a rest IH]; cbn [scoring.sort]; [constructor|].
  apply sortInsert_sorted, IH.
Qed.

(** X18. [updateLeaderboard] keeps the best entries in rank order: the
    result has [maxEntries] entries, or all of them when there are fewer,
    it is ordered by the comparator (score, then lines, then level, highest
    first), and together with the entries it drops it is a rearrangement
    of the old leaderboard and the new entry, no kept entry being ranked
    after a dropped one. The old leaderboard need not be ordered. *)
Theorem updateLeaderboard_spec (leaderboard : list scoring.LeaderboardEntry)
    (newEntry : scoring.LeaderboardEntry) (maxEntries : nat) :
  let result := scoring.updateLeaderboard leaderboard newEntry maxEntries in
  length result = (maxEntries `min` S (length leaderboard))%nat /\
  StronglySorted rankedBefore result /\
  exists dropped,
    result ++ dropped ≡ₚ leaderboard ++ [newEntry] /\
    forall kept out, kept ∈ result -> out ∈ dropped -> rankedBefore kept out.
Proof.
  intros result. subst result. unfold scoring.updateLeaderboard.
  pose proof (sort_Permutation scoring.compareEntries (leaderboard ++ [newEntry])) as Hperm.
  pose proof (sort_sorted (leaderboard ++ [newEntry])) as Hsorted.
  set (sorted := scoring.sort scoring.compareEntries (leaderboard ++ [newEntry])) in *.
  rewrite <- (take_drop maxEntries sorted) in Hsorted.
  split; [|split].
  - rewrite length_take, Hperm, length_app. cbn [length]. lia.
  - exact (StronglySorted_app_1_l _ _ _ Hsorted).
  - exists (drop maxEntries sorted). split.
    + rewrite take_drop. exact Hperm.
    + intros kept out Hkept Hout.
      exact (StronglySorted_app_1_elem_of _ _ _ _ _ Hsorted Hkept Hout).
Qed.

(** X19. A score that [qualifiesForLeaderboard] is on the leaderboard
    after [updateLeaderboard] with the same [maxEntries], as [addScore]
    calls them: for a limit of at least one entry and a leaderboard within
    the limit, the new entry is among the entries kept. (With a limit of 0
    every positive score qualifies and none is kept.) *)
Theorem qualifying_entry_is_kept (leaderboard : list scoring.LeaderboardEntry)
    (newEntry : scoring.LeaderboardEntry) (maxEntries : nat) :
  (1 <= maxEntries)%nat ->
  (length leaderboard <= maxEntries)%nat ->
  scoring.qualifiesForLeaderboard (scoring.entry_score newEntry) leaderboard maxEntries = true ->
  newEntry ∈ scoring.updateLeaderboard leaderboard newEntry maxEntries.
Proof.
  intros Hmax Hlen Hqualifies. unfold scoring.updateLeaderboard.
  pose proof (sort_Permutation scoring.compareEntries (leaderboard ++ [newEntry])) as Hperm.
  pose proof (sort_sorted (leaderboard ++ [newEntry])) as Hsorted.
  set (sorted := scoring.sort scoring.compareEntries (leaderboard ++ [newEntry])) in *.
  assert (newEntry ∈ sorted) as Hnew
    by (rewrite Hperm; apply elem_of_app; right; apply list_elem_of_singleton; reflexivity).
  assert (length sorted = S (length leaderboard)) as Hlength
    by (rewrite Hperm, length_app; cbn [length]; lia).
  unfold scoring.qualifiesForLeaderboard in Hqualifies.
  destruct (decide (length leaderboard < maxEntries)%nat) as [Hroom | Hfull].
  - rewrite take_ge by lia. exact Hnew.
  - destruct (last leaderboard) as [lowest|] eqn:Hlast.
    + assert (scoring.entry_score newEntry > scoring.entry_score lowest) as Hscore.
      { apply bool_decide_eq_true in Hqualifies.
        destruct (decide (scoring.entry_score lowest = 0)); lia. }
      assert (lowest ∈ sorted) as Hlowest.
      { rewrite Hperm. apply elem_of_app. left. exact (last_Some_elem_of _ _ Hlast). }
      assert (~ rankedBefore lowest newEntry) as Hrank.
      { unfold rankedBefore, scoring.compareEntries.
        destruct (decide (scoring.entry_score newEntry <> scoring.entry_score lowest)); lia. }
      rewrite <- (take_drop maxEntries sorted) in Hsorted, Hnew, Hlowest.
      apply elem_of_app in Hnew as [Hnew | Hnew]; [exact Hnew|].
      apply elem_of_app in Hlowest as [Hlowest | Hlowest].
      * destruct Hrank.
        exact (StronglySorted_app_1_elem_of _ _ _ _ _ Hsorted Hlowest Hnew).
      * assert (length (drop maxEntries sorted) = 1%nat) as Hone
          by (rewrite length_drop; lia).
        destruct (drop maxEntries sorted) as [|only [|]]; try discriminate Hone.
        apply list_elem_of_singleton in Hnew, Hlowest. subst. lia.
    + apply last_None in Hlast. subst leaderboard. cbn [length] in Hfull. lia.
Qed.

(** A score of 700 against a full leaderboard of two entries whose lowest
    score is 500. *)
Lemma qualifying_entry_is_kept_witness :
  let entry name score lines level :=
    scoring.mkLeaderboardEntry name name score lines level 60000 "1:00" lines
      "2026-01-01T00:00:00.000Z" "1/1/2026" in
  entry "c" 700 7 1 ∈
    scoring.updateLeaderboard [entry "a" 900 12 2; entry "b" 500 5 1] (entry "c" 700 7 1) 2.
Proof.
  intros entry. apply qualifying_entry_is_kept; [lia | cbn; lia | reflexivity].
Defined.


(** ** Invariants of a game *)

Lemma runActions_counters (fuel : nat) (steps : list (Host * useGameState.Action)) :
  forall state state',
    scoreboardOk state ->
    Forall (fun step => restoresSnapshot (snd step) = false) steps ->
    runActions fuel state steps = Done state' ->
    scoreboardOk state'.
Proof.
  induction steps as [|[host action] rest IH]; intros state state' Hok Hsteps Hrun.
  - injection Hrun as <-. exact Hok.
  - apply Forall_cons in Hsteps as [Hstep Hrest]. cbn [runActions] in Hrun.
    destruct (useGameState.gameStateReducer fuel host state action) as [mid| |] eqn:Hmid;
      cbn [mbind Outcome_bind] in Hrun; try discriminate.
    apply (IH mid state'); [|exact Hrest|exact Hrun].
    exact (proj1 (gameStateReducer_counters fuel host state mid action Hok Hstep Hmid)).
Qed.

(** X20. The invariants of a game. From the state [createInitialGameState]
    builds, every sequence of actions without a [LOAD_STATE] runs to a
    state, whatever the random draws and clock readings of each step; the
    state reached has a board [validateBoard] accepts, pieces with a
    defined shape in its slots, a score and a line count that are not
    negative, and the level [calculateLevel] gives for its lines. *)
Theorem game_keeps_invariants (host : Host) (name : option string)
    (steps : list (Host * useGameState.Action)) :
  Forall (fun step => restoresSnapshot (snd step) = false) steps ->
  exists state' (n : nat),
    (forall fuel, (n <= fuel)%nat ->
       runActions fuel (gameLogic.createInitialGameState host name) steps = Done state') /\
    validState state' = true /\
    validateBoard (board state') = true /\
    scoreboardOk state'.
Proof.
  intros Hsteps.
  destruct (runActions_returns steps (gameLogic.createInitialGameState host name)
              (createInitialGameState_valid host name) Hsteps)
    as (state' & n & Hrun & Hvalid).
  exists state', n. split; [exact Hrun|]. split; [exact Hvalid|]. split.
  - unfold validState in Hvalid. rewrite !andb_true_iff in Hvalid. tauto.
  - apply (runActions_counters n steps (gameLogic.createInitialGameState host name) state');
      [|exact Hsteps|apply Hrun; lia].
    repeat split; cbn; lia.
Qed.

(** A game of three pieces: start, then hard drop and spawn three times. *)
Lemma game_keeps_invariants_witness :
  let round := [(hostInOrder, useGameState.HARD_DROP); (hostInOrder, useGameState.SPAWN_PIECE)] in
  exists state' (n : nat),
    (forall fuel, (n <= fuel)%nat ->
       runActions fuel (gameLogic.createInitialGameState hostInOrder (Some "Player"))
         ((hostInOrder, useGameState.START_GAME) :: concat (replicate 3 round))
       = Done state') /\
    validState state' = true /\
    validateBoard (board state') = true /\
    scoreboardOk state'.
Proof.
  intros round. apply game_keeps_invariants.
  apply Forall_forall. intros step Hstep.
  repeat (apply elem_of_cons in Hstep as [-> | Hstep]; [reflexivity|]).
  apply elem_of_nil in Hstep. destruct Hstep.
Defined.

(** ** Pause and resume *)

Lemma paused_commands_ignored (fuel : nat) (state : GameState)
    (commands : list (Host * useGameState.Action)) :
  isPaused state = true \/ isGameOver state = true ->
  Forall (fun step => isPieceCommand (snd step) = true) commands ->
  runActions fuel state commands = Done state.
Proof.
  intros Hguard Hcommands.
  induction commands as [|[host action] rest IH]; [reflexivity|].
  apply Forall_cons in Hcommands as [Hcommand Hrest]. cbn [snd] in Hcommand.
  cbn [runActions].
  assert (useGameState.gameStateReducer fuel host state action = Done state) as ->.
  { destruct action; try discriminate Hcommand; cbn [useGameState.gameStateReducer];
      destruct (currentPiece state) as [piece|]; try reflexivity;
      destruct Hguard as [-> | ->]; rewrite ?orb_true_r; reflexivity. }
  cbn [mbind Outcome_bind]. exact (IH Hrest).
Qed.

(** X21. Pause and resume. Whatever commands on the falling piece (move,
    rotate, soft drop, hard drop, hold) arrive between [PAUSE_GAME] and
    [RESUME_GAME], the state after the resume is the state before the
    pause with the pause flag off, the phase [PLAYING] and the drop timer
    restarted: board, pieces, score, lines and level are as they were. In
    a game that is over the whole sequence returns the state unchanged. *)
Theorem pause_resume_round_trip (fuel : nat) (pauseHost resumeHost : Host) (state : GameState)
    (commands : list (Host * useGameState.Action)) :
  Forall (fun step => isPieceCommand (snd step) = true) commands ->
  runActions fuel state
    ((pauseHost, useGameState.PAUSE_GAME) :: commands ++ [(resumeHost, useGameState.RESUME_GAME)])
  = Done (if isGameOver state then state
          else useGameState.set_isPaused false
                 (useGameState.set_gameState PLAYING
                    (useGameState.set_lastDropTime (now resumeHost 0) state))).
Proof.
  intros Hcommands.
  cbn [runActions useGameState.gameStateReducer].
  destruct (isGameOver state) eqn:Hover; cbn [mbind Outcome_bind]; rewrite runActions_app.
  - rewrite (paused_commands_ignored fuel state commands (or_intror Hover) Hcommands).
    cbn [mbind Outcome_bind runActions useGameState.gameStateReducer].
    rewrite Hover. reflexivity.
  - rewrite paused_commands_ignored; [|left; destruct state; reflexivity|exact Hcommands].
    cbn [mbind Outcome_bind runActions useGameState.gameStateReducer].
    destruct state; cbn in Hover |- *. rewrite Hover. reflexivity.
Qed.

(** A move, a hard drop and a hold tried during the pause of a started
    game. *)
Lemma pause_resume_round_trip_witness :
  runActions 40 startedState
    [(hostInOrder, useGameState.PAUSE_GAME);
     (hostInOrder, useGameState.MOVE_PIECE (-1) 0);
     (hostInOrder, useGameState.HARD_DROP);
     (hostInOrder, useGameState.HOLD_PIECE);
     (hostInOrder, useGameState.RESUME_GAME)]
  = Done (if isGameOver startedState then startedState
          else useGameState.set_isPaused false
                 (useGameState.set_gameState PLAYING
                    (useGameState.set_lastDropTime (now hostInOrder 0) startedState))).
Proof.
  apply (pause_resume_round_trip 40 hostInOrder hostInOrder startedState
           [(hostInOrder, useGameState.MOVE_PIECE (-1) 0);
            (hostInOrder, useGameState.HARD_DROP);
            (hostInOrder, useGameState.HOLD_PIECE)]).
  repeat constructor.
Defined.

(** ** Moves and the board *)

Lemma set_xy_back (piece : Tetromino) (x y : Z) :
  useGameState.set_xy (piece_x piece) (piece_y piece) (useGameState.set_xy x y piece) = piece.
Proof. destruct piece. reflexivity. Qed.

(** X22. A move that succeeds is undone by the opposite move. With a piece
    falling in a running game that fits where it stands and where
    [MOVE_PIECE] by [(deltaX, deltaY)] takes it, that move followed by the
    move by [(-deltaX, -deltaY)] returns the state it started from. (After
    a move that was refused the opposite move is a move of its own.) *)
Theorem move_round_trip (fuel : nat) (host1 host2 : Host) (state : GameState)
    (piece : Tetromino) (deltaX deltaY : Z) :
  currentPiece state = Some piece ->
  isPaused state = false ->
  isGameOver state = false ->
  gameLogic.canPlacePiece (board state) piece (piece_x piece) (piece_y piece) = Done true ->
  gameLogic.canPlacePiece (board state) piece (piece_x piece + deltaX) (piece_y piece + deltaY)
    = Done true ->
  runActions fuel state
    [(host1, useGameState.MOVE_PIECE deltaX deltaY);
     (host2, useGameState.MOVE_PIECE (- deltaX) (- deltaY))]
  = Done state.
Proof.
  intros Hpiece Hpaused Hover Hhere Hthere.
  cbn [runActions useGameState.gameStateReducer].
  rewrite Hpiece, Hpaused, Hover. cbn [orb]. rewrite Hthere. cbn [mbind Outcome_bind].
  assert (forall moved,
            currentPiece (useGameState.set_currentPiece (Some moved) state) = Some moved /\
            isPaused (useGameState.set_currentPiece (Some moved) state) = isPaused state /\
            isGameOver (useGameState.set_currentPiece (Some moved) state) = isGameOver state /\
            board (useGameState.set_currentPiece (Some moved) state) = board state /\
            useGameState.set_currentPiece (Some piece)
              (useGameState.set_currentPiece (Some moved) state) = state)
    as Hfields.
  { intros moved. destruct state. cbn in Hpiece |- *. subst. repeat split. }
  set (moved := useGameState.set_xy (piece_x piece + deltaX) (piece_y piece + deltaY) piece).
  destruct (Hfields moved) as (-> & -> & -> & -> & Hback).
  rewrite Hpaused, Hover. cbn [orb].
  assert (piece_x moved + - deltaX = piece_x piece /\
          piece_y moved + - deltaY = piece_y piece /\
          piece_shape moved = piece_shape piece) as (-> & -> & Hshape).
  { subst moved. destruct piece. cbn. repeat split; lia. }
  assert (gameLogic.canPlacePiece (board state) moved (piece_x piece) (piece_y piece)
          = Done true) as ->.
  { unfold gameLogic.canPlacePiece in Hhere |- *. rewrite Hshape. exact Hhere. }
  cbn [mbind Outcome_bind]. subst moved. rewrite set_xy_back, Hback. reflexivity.
Qed.

(** The I piece of a started game moved one column to the right and
    back. *)
Lemma move_round_trip_witness :
  runActions 40 startedState
    [(hostInOrder, useGameState.MOVE_PIECE 1 0);
     (hostInOrder, useGameState.MOVE_PIECE (- (1)) (- 0))]
  = Done startedState.
Proof.
  apply (move_round_trip 40 hostInOrder hostInOrder startedState
           (tetrominoes.createTetromino TI 3 (-1) 0) 1 0);
    vm_compute; reflexivity.
Defined.

(** X23. The board changes only when a piece locks. A transition other
    than [LOAD_STATE] whose result has another board than the state it
    started from is either a fresh start ([INITIALIZE], [RESET_GAME]) or
    the lock-in of the piece that was falling ([SOFT_DROP], [HARD_DROP] or
    [PLACE_PIECE]), and a lock-in leaves no falling piece, schedules the
    next spawn and allows a hold again. Moves, rotations, holds, spawns,
    pause and resume never touch the board. *)
Theorem board_changes_only_at_lock_in (fuel : nat) (host : Host) (state state' : GameState)
    (action : useGameState.Action) :
  restoresSnapshot action = false ->
  useGameState.gameStateReducer fuel host state action = Done state' ->
  board state' <> board state ->
  resetsCounters action = true \/
  ((action = useGameState.SOFT_DROP \/ action = useGameState.HARD_DROP \/
    action = useGameState.PLACE_PIECE) /\
   (exists piece, currentPiece state = Some piece) /\
   currentPiece state' = None /\
   shouldSpawnNext state' = true /\
   canHold state' = true).
Proof.
  intros Hnot Hrun Hboard.
  assert (forall piece dropPoints,
            useGameState.lockIn state piece dropPoints = Done state' ->
            currentPiece state' = None /\ shouldSpawnNext state' = true /\
            canHold state' = true) as Hlock.
  { intros piece dropPoints Hlocked. unfold useGameState.lockIn in Hlocked.
    reducer_cases Hlocked. repeat split. }
  destruct action; try discriminate Hnot; cbn [useGameState.gameStateReducer] in Hrun.
  - (* INITIALIZE *) left. reflexivity.
  - (* START_GAME *) reducer_cases Hrun. destruct Hboard. reflexivity.
  - (* MOVE_PIECE *) reducer_cases Hrun; destruct Hboard; reflexivity.
  - (* ROTATE_PIECE *) reducer_cases Hrun; destruct Hboard; reflexivity.
  - (* SOFT_DROP *)
    right. destruct (currentPiece state) as [piece|]; [|injection Hrun as <-; done].
    destruct (isPaused state || isGameOver state); [injection Hrun as <-; done|].
    destruct (gameLogic.canPlacePiece _ _ _ _) as [[|]| |];
      cbn [mbind Outcome_bind] in Hrun; try discriminate.
    + injection Hrun as <-. destruct Hboard. reflexivity.
    + split; [auto|]. split; [eauto|]. exact (Hlock _ _ Hrun).
  - (* HARD_DROP *)
    right. destruct (currentPiece state) as [piece|]; [|injection Hrun as <-; done].
    destruct (isPaused state || isGameOver state); [injection Hrun as <-; done|].
    destruct (gameLogic.getHardDropDistance fuel (board state) piece) as [d| |];
      cbn [mbind Outcome_bind] in Hrun; try discriminate.
    split; [auto|]. split; [eauto|]. exact (Hlock _ _ Hrun).
  - (* PLACE_PIECE *)
    right. destruct (currentPiece state) as [piece|]; [|injection Hrun as <-; done].
    split; [auto|]. split; [eauto|]. exact (Hlock _ _ Hrun).
  - (* SPAWN_PIECE *) reducer_cases Hrun; destruct Hboard; reflexivity.
  - (* HOLD_PIECE *) reducer_cases Hrun; destruct Hboard; reflexivity.
  - (* PAUSE_GAME *) reducer_cases Hrun; destruct Hboard; reflexivity.
  - (* RESUME_GAME *) reducer_cases Hrun; destruct Hboard; reflexivity.
  - (* RESET_GAME *) left. reflexivity.
  - (* OTHER *) injection Hrun as <-. done.
Qed.

(** The hard drop of the first piece of a started game changes the
    board. *)
Lemma board_changes_only_at_lock_in_witness :
  exists state',
    useGameState.gameStateReducer 40 hostInOrder startedState useGameState.HARD_DROP
      = Done state' /\
    board state' <> board startedState /\
    currentPiece state' = None /\ shouldSpawnNext state' = true /\ canHold state' = true.
Proof.
  destruct (useGameState.gameStateReducer 40 hostInOrder startedState useGameState.HARD_DROP)
    as [state'| |] eqn:Hrun; [|vm_compute in Hrun; discriminate Hrun ..].
  assert (board state' <> board startedState) as Hboard.
  { pose proof Hrun as Hresult. vm_compute in Hresult. injection Hresult as <-.
    vm_compute. discriminate. }
  exists state'. split; [reflexivity|]. split; [exact Hboard|].
  destruct (board_changes_only_at_lock_in 40 hostInOrder startedState state'
              useGameState.HARD_DROP eq_refl Hrun Hboard) as [Hreset | (_ & _ & Hlocked)].
  - discriminate Hreset.
  - exact Hlocked.
Defined.

(** ** The bag and the end of a game *)

(** X24. [SPAWN_PIECE] reads the bag in order. A spawn that does not end
    the game promotes the next piece and makes the next piece from the
    first kind not yet read, which it then counts as read: the first of
    the stored bag from [bagIndex] on, or, when nothing is left there, the
    first of a fresh bag, which is stored with the rest of it unread. No
    kind is skipped and none is read twice; moves, rotations, drops,
    holds, pause and resume leave the bag, its index and the next piece
    alone. *)
Theorem spawn_reads_bag_in_order (fuel : nat) (host : Host) (state state' : GameState)
    (action : useGameState.Action) :
  useGameState.gameStateReducer fuel host state action = Done state' ->
  (writesBag action = false ->
   tetrominoBag state' = tetrominoBag state /\ bagIndex state' = bagIndex state /\
   nextPiece state' = nextPiece state) /\
  (action = useGameState.SPAWN_PIECE ->
   forall promoted, nextPiece state = Some promoted -> isGameOver state' = false ->
     exists kind rest,
       (if decide (unreadKinds state = [])
        then tetrominoes.createTetrominoBag (random host)
        else unreadKinds state) = kind :: rest /\
       currentPiece state' = Some promoted /\
       nextPiece state' = Some (tetrominoes.createTetromino kind 3 (-1) 0) /\
       unreadKinds state' = rest).
Proof.
  intros Hrun. split.
  - intros Hframe.
    assert (forall piece dropPoints,
              useGameState.lockIn state piece dropPoints = Done state' ->
              tetrominoBag state' = tetrominoBag state /\ bagIndex state' = bagIndex state /\
              nextPiece state' = nextPiece state) as Hlock.
    { intros piece dropPoints Hlocked. unfold useGameState.lockIn in Hlocked.
      reducer_cases Hlocked. repeat split. }
    destruct action; try discriminate Hframe; cbn [useGameState.gameStateReducer] in Hrun.
    + (* MOVE_PIECE *) reducer_cases Hrun; repeat split.
    + (* ROTATE_PIECE *) reducer_cases Hrun; repeat split.
    + (* SOFT_DROP *)
      destruct (currentPiece state) as [piece|]; [|injection Hrun as <-; done].
      destruct (isPaused state || isGameOver state); [injection Hrun as <-; done|].
      destruct (gameLogic.canPlacePiece _ _ _ _) as [[|]| |];
        cbn [mbind Outcome_bind] in Hrun; try discriminate.
      * injection Hrun as <-. repeat split.
      * exact (Hlock _ _ Hrun).
    + (* HARD_DROP *)
      destruct (currentPiece state) as [piece|]; [|injection Hrun as <-; done].
      destruct (isPaused state || isGameOver state); [injection Hrun as <-; done|].
      destruct (gameLogic.getHardDropDistance fuel (board state) piece) as [d| |];
        cbn [mbind Outcome_bind] in Hrun; try discriminate.
      exact (Hlock _ _ Hrun).
    + (* PLACE_PIECE *)
      destruct (currentPiece state) as [piece|]; [|injection Hrun as <-; done].
      exact (Hlock _ _ Hrun).
    + (* HOLD_PIECE *) reducer_cases Hrun; repeat split.
    + (* PAUSE_GAME *) reducer_cases Hrun; repeat split.
    + (* RESUME_GAME *) reducer_cases Hrun; repeat split.
    + (* OTHER *) injection Hrun as <-. done.
  - intros -> promoted Hnext Hover'.
    cbn [useGameState.gameStateReducer] in Hrun. rewrite Hnext in Hrun.
    destruct (isGameOver state) eqn:Hover; [injection Hrun as <-; congruence|].
    unfold unreadKinds.
    destruct (decide (length (tetrominoBag state) <= bagIndex state)%nat) as [Hempty | Hleft].
    + rewrite (bool_decide_eq_true_2 _ Hempty) in Hrun.
      rewrite (drop_ge _ _ Hempty). rewrite decide_True by reflexivity.
      pose proof (createTetrominoBag_length (random host)) as Hseven.
      destruct (tetrominoes.createTetrominoBag (random host)) as [|kind rest];
        [discriminate Hseven|].
      exists kind, rest. split; [reflexivity|].
      cbn [lookup list_lookup tetrominoes.createTetrominoOf mbind Outcome_bind] in Hrun.
      destruct (gameLogic.isGameOver (board state) promoted) as [[|]| |];
        cbn [mbind Outcome_bind] in Hrun; try discriminate; injection Hrun as <-.
      * discriminate Hover'.
      * repeat split.
    + rewrite (bool_decide_eq_false_2 _ Hleft) in Hrun.
      destruct (lookup_lt_is_Some_2 (tetrominoBag state) (bagIndex state) ltac:(lia))
        as [kind Hkind].
      rewrite (drop_S _ _ _ Hkind). rewrite decide_False by discriminate.
      exists kind, (drop (S (bagIndex state)) (tetrominoBag state)). split; [reflexivity|].
      rewrite Hkind in Hrun.
      cbn [tetrominoes.createTetrominoOf mbind Outcome_bind] in Hrun.
      destruct (gameLogic.isGameOver (board state) promoted) as [[|]| |];
        cbn [mbind Outcome_bind] in Hrun; try discriminate; injection Hrun as <-.
      * discriminate Hover'.
      * split; [reflexivity|]. split; [reflexivity|].
        cbn. rewrite Nat.add_1_r. reflexivity.
Qed.

(** The first spawn after the first hard drop of a started game. *)
Lemma spawn_reads_bag_in_order_witness :
  exists locked spawned promoted kind rest,
    useGameState.gameStateReducer 40 hostInOrder startedState useGameState.HARD_DROP
      = Done locked /\
    useGameState.gameStateReducer 40 hostInOrder locked useGameState.SPAWN_PIECE
      = Done spawned /\
    nextPiece locked = Some promoted /\
    (if decide (unreadKinds locked = [])
     then tetrominoes.createTetrominoBag (random hostInOrder)
     else unreadKinds locked) = kind :: rest /\
    currentPiece spawned = Some promoted /\
    nextPiece spawned = Some (tetrominoes.createTetromino kind 3 (-1) 0) /\
    unreadKinds spawned = rest.
Proof.
  destruct (useGameState.gameStateReducer 40 hostInOrder startedState useGameState.HARD_DROP)
    as [locked| |] eqn:Hlock; [|vm_compute in Hlock; discriminate Hlock ..].
  pose proof Hlock as Hlocked. vm_compute in Hlocked. injection Hlocked as Hlocked.
  destruct (useGameState.gameStateReducer 40 hostInOrder locked useGameState.SPAWN_PIECE)
    as [spawned| |] eqn:Hspawn;
    [|rewrite <- Hlocked in Hspawn; vm_compute in Hspawn; discriminate Hspawn ..].
  assert (nextPiece locked = Some (tetrominoes.createTetromino TO 3 (-1) 0)) as Hnext
    by (rewrite <- Hlocked; reflexivity).
  assert (isGameOver spawned = false) as Hover.
  { pose proof Hspawn as Hspawned. rewrite <- Hlocked in Hspawned.
    vm_compute in Hspawned. injection Hspawned as <-. reflexivity. }
  destruct (proj2 (spawn_reads_bag_in_order 40 hostInOrder locked spawned
                     useGameState.SPAWN_PIECE Hspawn) eq_refl _ Hnext Hover)
    as (kind & rest & Hqueue & Hcurrent & Hnew & Hunread).
  exists locked, spawned, (tetrominoes.createTetromino TO 3 (-1) 0), kind, rest.
  repeat split; assumption.
Defined.

(** X25. A game that is over stays over until it is begun again. With
    [isGameOver] set, every action other than [INITIALIZE], [START_GAME],
    [RESET_GAME] and [LOAD_STATE] leaves the flag set, and every one of
    them but [PLACE_PIECE] returns the state it was given; [PLACE_PIECE]
    checks neither the pause nor the game-over flag and still locks a
    falling piece. *)
Theorem game_over_is_final (fuel : nat) (host : Host) (state state' : GameState)
    (action : useGameState.Action) :
  isGameOver state = true ->
  startsAfresh action = false ->
  useGameState.gameStateReducer fuel host state action = Done state' ->
  isGameOver state' = true /\
  (action <> useGameState.PLACE_PIECE -> state' = state) /\
  (action = useGameState.PLACE_PIECE ->
   forall piece, currentPiece state = Some piece ->
     useGameState.lockIn state piece 0 = Done state' /\ currentPiece state' = None).
Proof.
  intros Hover Hnot Hrun.
  destruct action; try discriminate Hnot; cbn [useGameState.gameStateReducer] in Hrun;
    rewrite ?Hover, ?orb_true_r in Hrun.
  - (* MOVE_PIECE *)
    destruct (currentPiece state); injection Hrun as <-; done.
  - (* ROTATE_PIECE *)
    destruct (currentPiece state); injection Hrun as <-; done.
  - (* SOFT_DROP *)
    destruct (currentPiece state); injection Hrun as <-; done.
  - (* HARD_DROP *)
    destruct (currentPiece state); injection Hrun as <-; done.
  - (* PLACE_PIECE *)
    destruct (currentPiece state) as [piece|] eqn:Hpiece.
    + destruct (lockIn_keeps_flags _ _ _ _ Hrun) as [Hflag _].
      split; [congruence|]. split; [done|].
      intros _ piece' [= <-]. split; [exact Hrun|].
      unfold useGameState.lockIn in Hrun. reducer_cases Hrun. reflexivity.
    + injection Hrun as <-. split; [exact Hover|]. split; [done|]. intros _ piece' [=].
  - (* SPAWN_PIECE *)
    destruct (nextPiece state); injection Hrun as <-; done.
  - (* HOLD_PIECE *)
    destruct (currentPiece state); injection Hrun as <-; done.
  - (* PAUSE_GAME *) injection Hrun as <-; done.
  - (* RESUME_GAME *) injection Hrun as <-; done.
  - (* OTHER *) injection Hrun as <-; done.
Qed.

(** A hard drop tried on a started game whose flag is set. *)
Lemma game_over_is_final_witness :
  let over := useGameState.set_isGameOver true startedState in
  useGameState.gameStateReducer 40 hostInOrder over useGameState.HARD_DROP = Done over /\
  isGameOver over = true.
Proof.
  intros over.
  assert (useGameState.gameStateReducer 40 hostInOrder over useGameState.HARD_DROP = Done over)
    as Hrun by (vm_compute; reflexivity).
  split; [exact Hrun|].
  exact (proj1 (game_over_is_final 40 hostInOrder over over useGameState.HARD_DROP
                  ltac:(vm_compute; reflexivity) eq_refl Hrun)).
Defined.
